(** * Session orchestration of the classroom tutoring server

    A shallow embedding of the server side of the tutoring simulation:

    - [server/conversationManager.mjs]: the in-memory session store;
    - [server/tutorPrompts.mjs]: the per-turn strategy directive and the
      phase of a turn;
    - [server/studentPersonalities.mjs]: the lookup of the prompt of a
      student;
    - [server/index.mjs]: the two request handlers that advance a dialogue,
      [POST /api/interact] and [POST /api/tutor-response], with the one-time
      locking of the predicted understanding level.

    JavaScript numbers that are counters (turn numbers, list lengths) are
    [nat]; the numbers that come out of [JSON.parse] are IEEE 754 doubles,
    here Rocq's primitive [float].  Strings are byte strings (the UTF-8
    form of the text); [String.prototype.toLowerCase] is taken from the
    language.  The content of a message is [Some text], or [None] for a
    [null] content.  The store is a [gmap] from conversation ids to
    conversation records; every function that mutates the store takes the
    store and returns the new one.  A reading of the clock
    ([new Date().toISOString()]) and a fresh uuid are arguments of the
    function that asks for them, and the outcomes of the OpenAI calls are
    arguments of the handlers. *)

From Stdlib Require Import ZArith String Ascii List Lia PrimFloat Uint63.
From stdpp Require Import gmap strings pretty.
Import ListNotations.
Open Scope string_scope.

(** ** JavaScript values and the operators the handlers use on them *)

Module JsValues.

#[local] Set Warnings "-register-all".

Inductive JsValue : Type :=
| JsUndefined
| JsNull
| JsBool (b : bool)
| JsNumber (x : float)
| JsString (s : string)
| JsArray (items : list JsValue)
| JsObject (props : list (string * JsValue)).

(** The student and topic objects of the students cache, with the fields
    the server reads. *)
Record Student : Type := mkStudent {
  student_name : string;
  student_grade_level : string
}.

Record Topic : Type := mkTopic {
  topic_name : string;
  topic_subject_name : string;
  topic_grade_level : string
}.

(** Truthiness, as tested by [if (v)], [!v], [v && _] and [v || _]. *)
Definition ToBoolean (v : JsValue) : bool :=
  match v with
  | JsUndefined | JsNull => false
  | JsBool b => b
  | JsNumber x => negb (PrimFloat.eqb x 0%float) && negb (PrimFloat.is_nan x)
  | JsString s => negb (String.eqb s "")
  | JsArray _ | JsObject _ => true
  end.

(** [v || d] *)
Definition js_or (v d : JsValue) : JsValue := if ToBoolean v then v else d.

Fixpoint own_property (props : list (string * JsValue)) (key : string) : JsValue :=
  match props with
  | [] => JsUndefined
  | (k, v) :: rest => if String.eqb k key then v else own_property rest key
  end.

(** [v.key] for a key that no prototype defines ([level], [rationale]):
    a TypeError ([None]) on [null] and [undefined], the own property of an
    object, [undefined] on the other values. *)
Definition getProperty (v : JsValue) (key : string) : option JsValue :=
  match v with
  | JsUndefined | JsNull => None
  | JsObject props => Some (own_property props key)
  | _ => Some JsUndefined
  end.

(** The number of a counter. *)
Definition Number_of_nat (n : nat) : float :=
  PrimFloat.of_uint63 (Uint63.of_Z (Z.of_nat n)).

Definition has_own_property (props : list (string * JsValue)) (key : string) : bool :=
  existsb (fun kv => String.eqb (fst kv) key) props.

(** Whether the conversion of a value of [JSON.parse] to a string, as in a
    template literal, throws a TypeError.  An object that has a property
    [toString] of its own has no callable [toString], and [valueOf] gives
    the object back: the conversion throws.  An array is joined, which
    converts its elements. *)
Fixpoint toString_throws (v : JsValue) : bool :=
  match v with
  | JsObject props => has_own_property props "toString"
  | JsArray items => existsb toString_throws items
  | _ => false
  end.

(** The outcome of an expression that can throw. *)
Inductive Fallible (A : Type) : Type :=
| Returns (a : A)
| Throws.

Arguments Returns {A} a.
Arguments Throws {A}.

(** The outcome of [await openai.chat.completions.create(...)] followed by
    the reading of [choices[0].message.content]: the call or the reading
    throws, or the content is a text ([Some]) or [null] ([None]). *)
Abbreviation Completion := (Fallible (option string)).

End JsValues.
Import JsValues.

(** ** String methods *)

Module JsString.

Fixpoint startsWith (text m : string) : bool :=
  match m, text with
  | EmptyString, _ => true
  | String _ _, EmptyString => false
  | String a m', String b text' => Ascii.eqb a b && startsWith text' m'
  end.

(** [text.includes(m)] *)
Fixpoint includes (text m : string) : bool :=
  startsWith text m ||
  match text with
  | EmptyString => false
  | String _ rest => includes rest m
  end.

Definition is_digit (c : ascii) : bool :=
  let n := nat_of_ascii c in (48 <=? n)%nat && (n <=? 57)%nat.

(** [/\d/.test(text)] *)
Fixpoint test_digit (text : string) : bool :=
  match text with
  | EmptyString => false
  | String c rest => is_digit c || test_digit rest
  end.

Definition is_1_to_5 (c : ascii) : bool :=
  let n := nat_of_ascii c in (49 <=? n)%nat && (n <=? 53)%nat.

(** [text.match(/[1-5]/)]: the first character in the class, if any. *)
Fixpoint match_1_to_5 (text : string) : option ascii :=
  match text with
  | EmptyString => None
  | String c rest => if is_1_to_5 c then Some c else match_1_to_5 rest
  end.

(** [parseInt] of one decimal digit. *)
Definition parseInt_digit (c : ascii) : JsValue :=
  JsNumber (Number_of_nat (nat_of_ascii c - 48)).

(** [list.some(m => text.includes(m))] *)
Definition some_includes (markers : list string) (text : string) : bool :=
  existsb (fun m => includes text m) markers.

(** [x || ''] on a content that is a text or [null]. *)
Definition or_empty (x : option string) : string :=
  match x with
  | Some text => text
  | None => ""
  end.

(** A content inside a template literal: [null] prints as the word. *)
Definition template_text (x : option string) : string :=
  match x with
  | Some text => text
  | None => "null"
  end.

End JsString.
Import JsString.

(** ** What is taken from the language and the prompt files *)

Module Builtins.

(** What the development takes as given: the built-ins of the language whose
    algorithms are not part of the repository, and the three prompt texts,
    which no property below looks into.
    [JSON_parse raw] is [None] when [JSON.parse] throws a SyntaxError; an
    object comes back as the list of its own properties.  [ObjectToNumber]
    is the numeric conversion of an array or object, [None] when it throws a
    TypeError.  [toLowerCase] is [String.prototype.toLowerCase], the
    lower-casing of the Unicode standard; two facts about it are used: the
    empty text stays empty, and lower-casing neither makes nor removes a
    decimal digit.  The three prompt texts are the templates of
    [TUTORING_SYSTEM_PROMPT], [buildSystemPrompt] and
    [PREDICTION_PROMPT_TEMPLATE] with their placeholders filled. *)
Class Environment : Type := {
  JSON_parse : string -> option JsValue;
  StringToNumber : string -> float;
  ObjectToNumber : JsValue -> option float;
  toLowerCase : string -> string;
  toLowerCase_empty : toLowerCase "" = "";
  toLowerCase_digit : forall text, test_digit (toLowerCase text) = test_digit text;
  tutorSystemPromptText : string -> string -> string -> string -> nat -> nat -> string;
  studentSystemPromptText : string -> Topic -> string;
  predictionPromptText : string -> string -> string -> string -> list string -> string
}.

Definition ToNumber `{Environment} (v : JsValue) : option float :=
  match v with
  | JsUndefined => Some PrimFloat.nan
  | JsNull => Some 0%float
  | JsBool b => Some (if b then 1%float else 0%float)
  | JsNumber x => Some x
  | JsString s => Some (StringToNumber s)
  | JsArray _ | JsObject _ => ObjectToNumber v
  end.

(** The lower-casing of a text of ASCII characters. *)
Definition lower_ascii (c : ascii) : ascii :=
  let n := nat_of_ascii c in
  if (65 <=? n)%nat && (n <=? 90)%nat then ascii_of_nat (n + 32) else c.

Fixpoint asciiLowerCase (s : string) : string :=
  match s with
  | EmptyString => EmptyString
  | String c rest => String (lower_ascii c) (asciiLowerCase rest)
  end.

End Builtins.
Import Builtins.

(** ** conversationManager.mjs *)

Module ConversationManager.

Record Message : Type := mkMessage {
  role : string;
  content : option string;
  timestamp : string
}.

Record LockedPrediction : Type := mkLockedPrediction {
  level : JsValue;
  rationale : JsValue;
  lockedAtTurn : nat;
  lockedAt : string
}.

Record Conversation : Type := mkConversation {
  conv_id : string;
  studentId : string;
  topicId : string;
  student : Student;
  topic : Topic;
  messages : list Message;
  turnNumber : nat;
  maxTurns : nat;
  isComplete : bool;
  createdAt : string;
  lockedPrediction : option LockedPrediction
}.

(** [const conversations = new Map()] *)
Abbreviation Store := (gmap string Conversation).

Definition MAX_TURNS : nat := 10.

Record CreateResult : Type := mkCreateResult {
  conversation_id : string;
  student_id : string;
  topic_id : string;
  max_turns : nat;
  conversations_remaining : nat
}.

(** [uuid] is the value of [uuidv4()], [now] the reading of the clock. *)
Definition createConversation (uuid now : string) (studentId0 topicId0 : string)
    (student0 : Student) (topic0 : Topic) (s : Store) : Store * CreateResult :=
  let conversationId := "conv_" +:+ uuid in
  let conversation :=
    {| conv_id := conversationId; studentId := studentId0; topicId := topicId0;
       student := student0; topic := topic0; messages := []; turnNumber := 0;
       maxTurns := MAX_TURNS; isComplete := false; createdAt := now;
       lockedPrediction := None |} in
  (<[conversationId := conversation]> s,
   {| conversation_id := conversationId; student_id := studentId0;
      topic_id := topicId0; max_turns := MAX_TURNS;
      conversations_remaining := 999 |}).

Definition getConversation (s : Store) (conversationId : string) : option Conversation :=
  s !! conversationId.

(** The three updates of [addMessage] on the conversation object, in the
    order of the source: push, increment on a tutor message, completion. *)
Definition push_message (m : Message) (c : Conversation) : Conversation :=
  {| conv_id := conv_id c; studentId := studentId c; topicId := topicId c;
     student := student c; topic := topic c; messages := messages c ++ [m];
     turnNumber := turnNumber c; maxTurns := maxTurns c;
     isComplete := isComplete c; createdAt := createdAt c;
     lockedPrediction := lockedPrediction c |}.

Definition increment_turn (c : Conversation) : Conversation :=
  {| conv_id := conv_id c; studentId := studentId c; topicId := topicId c;
     student := student c; topic := topic c; messages := messages c;
     turnNumber := S (turnNumber c); maxTurns := maxTurns c;
     isComplete := isComplete c; createdAt := createdAt c;
     lockedPrediction := lockedPrediction c |}.

Definition set_complete (c : Conversation) : Conversation :=
  {| conv_id := conv_id c; studentId := studentId c; topicId := topicId c;
     student := student c; topic := topic c; messages := messages c;
     turnNumber := turnNumber c; maxTurns := maxTurns c;
     isComplete := true; createdAt := createdAt c;
     lockedPrediction := lockedPrediction c |}.

Definition set_locked (p : LockedPrediction) (c : Conversation) : Conversation :=
  {| conv_id := conv_id c; studentId := studentId c; topicId := topicId c;
     student := student c; topic := topic c; messages := messages c;
     turnNumber := turnNumber c; maxTurns := maxTurns c;
     isComplete := isComplete c; createdAt := createdAt c;
     lockedPrediction := Some p |}.

Definition addMessage (conversationId role0 : string) (content0 : option string)
    (now : string) (s : Store) : Store * option Conversation :=
  match s !! conversationId with
  | None => (s, None)
  | Some conversation =>
      let c1 := push_message
                  {| role := role0; content := content0; timestamp := now |}
                  conversation in
      let c2 := if String.eqb role0 "tutor" then increment_turn c1 else c1 in
      let c3 := if (maxTurns c2 <=? turnNumber c2)%nat then set_complete c2 else c2 in
      (<[conversationId := c3]> s, Some c3)
  end.

Record ChatMessage : Type := mkChat {
  chat_role : string;
  chat_content : option string
}.

Definition getOpenAIMessages (s : Store) (conversationId : string) : list ChatMessage :=
  match s !! conversationId with
  | None => []
  | Some conversation =>
      map (fun msg =>
             {| chat_role := if String.eqb (role msg) "tutor" then "user" else "assistant";
                chat_content := content msg |})
          (messages conversation)
  end.

Definition isConversationComplete (s : Store) (conversationId : string) : bool :=
  match s !! conversationId with
  | Some conversation => isComplete conversation
  | None => true
  end.

Definition endConversation (conversationId : string) (s : Store)
    : Store * option Conversation :=
  match s !! conversationId with
  | Some conversation =>
      let c := set_complete conversation in
      (<[conversationId := c]> s, Some c)
  | None => (s, None)
  end.

Definition setLockedPrediction (conversationId : string) (level0 rationale0 : JsValue)
    (now : string) (s : Store) : Store * option LockedPrediction :=
  match s !! conversationId with
  | Some conversation =>
      match lockedPrediction conversation with
      | None =>
          let p := {| level := level0; rationale := rationale0;
                      lockedAtTurn := turnNumber conversation; lockedAt := now |} in
          (<[conversationId := set_locked p conversation]> s, Some p)
      | Some p => (s, Some p)
      end
  | None => (s, None)
  end.

Definition getLockedPrediction (s : Store) (conversationId : string)
    : option LockedPrediction :=
  match s !! conversationId with
  | Some conversation => lockedPrediction conversation
  | None => None
  end.

Definition deleteConversation (conversationId : string) (s : Store) : Store * bool :=
  (delete conversationId s, bool_decide (is_Some (s !! conversationId))).

(** *** Sequences of store operations

    The exported functions that change the store, as a type of operations,
    so that statements can range over every sequence of them.  The reads
    ([getConversation], [getOpenAIMessages], [isConversationComplete],
    [getLockedPrediction], [getStats]) leave the store as it is. *)
Inductive StoreOp : Type :=
| OpCreate (uuid now studentId0 topicId0 : string) (student0 : Student) (topic0 : Topic)
| OpAddMessage (conversationId role0 : string) (content0 : option string) (now : string)
| OpEnd (conversationId : string)
| OpSetLocked (conversationId : string) (level0 rationale0 : JsValue) (now : string)
| OpDelete (conversationId : string).

Definition apply_op (op : StoreOp) (s : Store) : Store :=
  match op with
  | OpCreate uuid now sid tid st tp => fst (createConversation uuid now sid tid st tp s)
  | OpAddMessage cid r c now => fst (addMessage cid r c now s)
  | OpEnd cid => fst (endConversation cid s)
  | OpSetLocked cid l r now => fst (setLockedPrediction cid l r now s)
  | OpDelete cid => fst (deleteConversation cid s)
  end.

Fixpoint run_ops (ops : list StoreOp) (s : Store) : Store :=
  match ops with
  | [] => s
  | op :: rest => run_ops rest (apply_op op s)
  end.

(** [uuidv4] returns an id that is not in use: every creation in the
    sequence is at a key the store does not hold at that moment. *)
Definition fresh_op (op : StoreOp) (s : Store) : Prop :=
  match op with
  | OpCreate uuid _ _ _ _ _ => s !! ("conv_" +:+ uuid) = None
  | _ => True
  end.

Fixpoint fresh_uuids (ops : list StoreOp) (s : Store) : Prop :=
  match ops with
  | [] => True
  | op :: rest => fresh_op op s /\ fresh_uuids rest (apply_op op s)
  end.

Definition is_append_to (conversationId : string) (op : StoreOp) : bool :=
  match op with
  | OpAddMessage cid _ _ _ => String.eqb cid conversationId
  | _ => false
  end.

Definition is_tutor_append (conversationId : string) (op : StoreOp) : bool :=
  match op with
  | OpAddMessage cid r _ _ => String.eqb cid conversationId && String.eqb r "tutor"
  | _ => false
  end.

Definition is_delete_of (conversationId : string) (op : StoreOp) : bool :=
  match op with
  | OpDelete cid => String.eqb cid conversationId
  | _ => false
  end.

Definition is_end_of (conversationId : string) (op : StoreOp) : bool :=
  match op with
  | OpEnd cid => String.eqb cid conversationId
  | _ => false
  end.

Definition tutor_appends (conversationId : string) (ops : list StoreOp) : nat :=
  length (filter (fun op => is_tutor_append conversationId op = true) ops).

Definition never_deletes (conversationId : string) (ops : list StoreOp) : Prop :=
  Forall (fun op => is_delete_of conversationId op = false) ops.

Definition never_ends (conversationId : string) (ops : list StoreOp) : Prop :=
  Forall (fun op => is_end_of conversationId op = false) ops.

(** How one operation [op] relates the record [c] of a conversation before
    it to the record [c'] after it. *)
Record session_step (conversationId : string) (op : StoreOp) (c c' : Conversation)
    : Prop := mkSessionStep {
  step_turnNumber :
    turnNumber c' =
    (turnNumber c + (if is_tutor_append conversationId op then 1 else 0))%nat;
  step_maxTurns : maxTurns c' = maxTurns c;
  step_isComplete :
    isComplete c' =
    isComplete c || is_end_of conversationId op ||
    (is_append_to conversationId op && (maxTurns c <=? turnNumber c')%nat);
  step_locked :
    forall p, lockedPrediction c = Some p -> lockedPrediction c' = Some p;
  step_messages :
    exists added, messages c' = (messages c ++ added)%list
}.

(** The record [createConversation] stores. *)
Record is_new (c : Conversation) : Prop := mkIsNew {
  new_turnNumber : turnNumber c = 0%nat;
  new_maxTurns : maxTurns c = MAX_TURNS;
  new_isComplete : isComplete c = false;
  new_locked : lockedPrediction c = None;
  new_messages : messages c = []
}.

End ConversationManager.
Import ConversationManager.

(** ** tutorPrompts.mjs *)

Module TutorPrompts.

(** [x || d] on a string field. *)
Definition or_default (x d : string) : string :=
  if String.eqb x "" then d else x.

Definition is_student (m : ChatMessage) : bool := String.eqb (chat_role m) "student".

Definition buildPredictionPrompt `{Environment} (student0 : Student) (topic0 : Topic)
    (msgs : list ChatMessage) : string :=
  let transcriptLines :=
    imap (fun i m => "Student (turn " +:+ pretty (i + 1)%nat +:+ "): " +:+
                      template_text (chat_content m))
         (filter (fun m => is_student m = true) msgs) in
  predictionPromptText
    (or_default (student_name student0) "Student")
    (or_default (student_grade_level student0) "?")
    (or_default (topic_name topic0) "Topic")
    (or_default (topic_subject_name topic0) "Subject")
    transcriptLines.

Definition CONFUSION_MARKERS : list string :=
  [ "dont understand"; "don't understand"; "do not understand"; "idk";
    "no idea"; "not sure"; "i dont know"; "i don't know"; "i am lost";
    "im lost"; "confused" ].

Definition hedgeMarkers : list string :=
  [ "maybe"; "i think"; "i guess"; "not sure"; "unsure" ].

Definition reasonMarkers : list string :=
  [ "because"; "so that"; "therefore"; "since"; "so"; "means"; "reason" ].

(** [list.slice(-3)] *)
Definition slice_last3 {A : Type} (l : list A) : list A :=
  skipn (length l - 3) l.

(** One pass of the [for] loop of [quickEstimateForStrategy] over a message,
    with [score] the running total. *)
Definition score_message `{Environment} (score : Z) (msg : ChatMessage) : Z :=
  let text := toLowerCase (or_empty (chat_content msg)) in
  let score := if some_includes CONFUSION_MARKERS text then (score - 2)%Z else score in
  let score := if some_includes hedgeMarkers text then (score - 1)%Z else score in
  let score := if some_includes reasonMarkers text then (score + 1)%Z else score in
  let score := if includes text "wait" || includes text "actually"
               then (score + 1)%Z else score in
  let score := if test_digit text then (score + 1)%Z else score in
  score.

Definition quickEstimateForStrategy `{Environment} (msgs : list ChatMessage) : nat :=
  let studentMessages := slice_last3 (filter (fun m => is_student m = true) msgs) in
  let score := fold_left score_message studentMessages 0%Z in
  if (score <=? -3)%Z then 1
  else if (score <=? -1)%Z then 2
  else if (score <=? 1)%Z then 3
  else if (score <=? 3)%Z then 4
  else 5.

Definition buildTutorSystemPrompt `{Environment} (student0 : Student) (topic0 : Topic)
    (turn maxTurns0 : nat) : string :=
  tutorSystemPromptText
    (or_default (student_name student0) "Student")
    (or_default (student_grade_level student0) "?")
    (or_default (topic_name topic0) "Topic")
    (or_default (topic_subject_name topic0) "Subject")
    turn maxTurns0.

(** [lastText] and [isConfused], the [const]s that [buildStrategyDirective]
    computes from the history before it branches; a message that is not
    there, or has no content, counts as the empty text. *)
Definition lastStudentText `{Environment} (msgs : list ChatMessage) : string :=
  match find is_student (rev msgs) with
  | Some lastStudentMsg => toLowerCase (or_empty (chat_content lastStudentMsg))
  | None => toLowerCase ""
  end.

Definition isConfused `{Environment} (msgs : list ChatMessage) : bool :=
  some_includes CONFUSION_MARKERS (lastStudentText msgs).

Definition OPENING_DIRECTIVE : string :=
  "Adaptive strategy: Follow the TURN 1 Opening Survey structure exactly. " +:+
  "Include the 3 questions labeled Basic/Intermediate/Advanced. " +:+
  "Do not add extra questions beyond those three.".

Definition buildStrategyDirective `{Environment} (turn maxTurns0 : nat) (phase : string)
    (topic0 : Topic) (msgs : list ChatMessage) : string :=
  if (turn =? 1)%nat then OPENING_DIRECTIVE
  else
    let confused := isConfused msgs in
    let estimatedLevel := quickEstimateForStrategy msgs in
    let guidance :=
      if String.eqb phase "diagnostic" then
        if confused then
          "If the student is confused, acknowledge it and give ONE short clarification, " +:+
          "then ask ONE simple check question."
        else
          "Ask at most TWO short diagnostic questions. Require a brief reason for one."
      else
        if confused then
          "Start by resolving the confusion from the last turn in 2-3 sentences, " +:+
          "then ask ONE focused check question."
        else if (4 <=? estimatedLevel)%nat then
          "Ask a transfer or 'why' question to probe depth. Require a 1-sentence justification."
        else
          "Give a concise explanation, then ask ONE practice question plus a short reason." in
    "Adaptive strategy: " +:+
    "turn=" +:+ pretty turn +:+ "/" +:+ pretty maxTurns0 +:+ ", phase=" +:+ phase +:+ ", " +:+
    "topic=" +:+ topic_name topic0 +:+ ", estimated_level=" +:+ pretty estimatedLevel +:+ ". " +:+
    guidance +:+ " Avoid long lectures and always respond to the last student message.".

(** [turn <= 5 ? 'diagnostic' : 'tutoring'], as written in
    [buildTutorMessages] and again in the [/api/tutor-response] handler. *)
Definition turnPhase (turn : nat) : string :=
  if (turn <=? 5)%nat then "diagnostic" else "tutoring".

Definition buildTutorMessages `{Environment} (student0 : Student) (topic0 : Topic)
    (conversationMessages : list ChatMessage) (turn maxTurns0 : nat) : list ChatMessage :=
  let phase := turnPhase turn in
  let systemPrompt := buildTutorSystemPrompt student0 topic0 turn maxTurns0 in
  let turnDirective :=
    if (turn =? 1)%nat then
      "Turn " +:+ pretty turn +:+ " of " +:+ pretty maxTurns0 +:+ ". Phase: " +:+ phase +:+ ". " +:+
      "Follow the TURN 1 Opening Survey structure exactly. " +:+
      "Ask exactly 3 questions labeled Basic/Intermediate/Advanced."
    else
      "Turn " +:+ pretty turn +:+ " of " +:+ pretty maxTurns0 +:+ ". Phase: " +:+ phase +:+ ". " +:+
      "Diagnostic phase: ask short questions only; no teaching. " +:+
      "Tutoring phase: explain and teach based on the student's level." in
  let strategyDirective :=
    buildStrategyDirective turn maxTurns0 phase topic0 conversationMessages in
  [ {| chat_role := "system"; chat_content := Some systemPrompt |};
    {| chat_role := "system"; chat_content := Some turnDirective |};
    {| chat_role := "system"; chat_content := Some strategyDirective |} ] ++
  flat_map (fun msg =>
              if String.eqb (chat_role msg) "tutor"
              then [ {| chat_role := "assistant"; chat_content := chat_content msg |} ]
              else if String.eqb (chat_role msg) "student"
              then [ {| chat_role := "user"; chat_content := chat_content msg |} ]
              else [])
           conversationMessages.

End TutorPrompts.
Import TutorPrompts.

(** ** The Strategy Selector as the specification words it

    A second definition of the directive, written from the description of
    the algorithm in section 4.3 and not from the code.  It is a relation
    between a history and a directive: a marker occurs in a text when the
    text is made of something, the marker, and something; a message shows a
    signal or does not; its score is the sum of the weights of the signals
    it shows; the level is the bucket of the sum over the last three student
    messages; the branch goes by phase, confusion and level.  The sets of
    markers are an argument, so that the relation can be read with the sets
    section 4.3 names and with the sets of the code.  It is compared with
    [buildStrategyDirective] below. *)

Module StrategySpec.

Inductive Phase : Type := Diagnostic | Tutoring.

Inductive Branch : Type :=
| DiagnosticConfused
| DiagnosticProbe
| TutoringConfused
| TutoringTransfer
| TutoringPractice.

Record MarkerSets : Type := mkMarkerSets {
  confusion_markers : list string;
  hedging_markers : list string;
  reasoning_markers : list string;
  self_correction_markers : list string
}.

(** Of the confusion markers section 4.3 says that they are a fixed set and
    names four of them, "i don't know", "not sure", "confused" and
    "i am lost".  The fixed set is taken to be these eleven, which have the
    four. *)
Definition confusion_set : list string :=
  [ "dont understand"; "don't understand"; "do not understand"; "idk";
    "no idea"; "not sure"; "i dont know"; "i don't know"; "i am lost";
    "im lost"; "confused" ].

(** The sets of section 4.3, which lists the hedging, the reasoning and the
    self-correction markers. *)
Definition specified_markers : MarkerSets :=
  {| confusion_markers := confusion_set;
     hedging_markers := [ "maybe"; "i think"; "not sure" ];
     reasoning_markers := [ "because"; "therefore"; "since" ];
     self_correction_markers := [ "wait"; "actually" ] |}.

(** The sets of section 4.3 with two more hedging markers and four more
    reasoning markers. *)
Definition implemented_markers : MarkerSets :=
  {| confusion_markers := confusion_set;
     hedging_markers := [ "maybe"; "i think"; "i guess"; "not sure"; "unsure" ];
     reasoning_markers :=
       [ "because"; "so that"; "therefore"; "since"; "so"; "means"; "reason" ];
     self_correction_markers := [ "wait"; "actually" ] |}.

Definition student_messages (msgs : list ChatMessage) : list ChatMessage :=
  filter (fun m => chat_role m = "student") msgs.

Definition most_recent_student (msgs : list ChatMessage) : option ChatMessage :=
  last (student_messages msgs).

(** The text of a message; a message without content has the empty text. *)
Definition text_of (m : ChatMessage) : string := default "" (chat_content m).

(** [marker] is a substring of [text]. *)
Definition occurs_in (marker text : string) : Prop :=
  exists before after, text = before +:+ marker +:+ after.

(** Case-insensitive substring match against a set of markers, which are
    in lower case: one of them occurs in the lower-cased text. *)
Definition matches `{Environment} (markers : list string) (text : string) : Prop :=
  exists marker, In marker markers /\ occurs_in marker (toLowerCase text).

Definition decimal_digit (c : ascii) : Prop :=
  In c [ "0"; "1"; "2"; "3"; "4"; "5"; "6"; "7"; "8"; "9" ]%char.

Definition has_digit (text : string) : Prop :=
  exists before c after, text = before +:+ String c after /\ decimal_digit c.

(** The signals and their weights. *)
Inductive Signal : Type := Confusion | Hedging | Reasoning | SelfCorrection | Digit.

Definition all_signals : list Signal :=
  [ Confusion; Hedging; Reasoning; SelfCorrection; Digit ].

Definition weight (sig : Signal) : Z :=
  match sig with
  | Confusion => -2
  | Hedging => -1
  | Reasoning => 1
  | SelfCorrection => 1
  | Digit => 1
  end.

Definition shows `{Environment} (M : MarkerSets) (sig : Signal) (text : string) : Prop :=
  match sig with
  | Confusion => matches (confusion_markers M) text
  | Hedging => matches (hedging_markers M) text
  | Reasoning => matches (reasoning_markers M) text
  | SelfCorrection => matches (self_correction_markers M) text
  | Digit => has_digit text
  end.

Definition sumZ (l : list Z) : Z := foldr Z.add 0%Z l.

(** [score] is the score of a message with this text: the sum of the
    weights of the signals the text shows, [shown] being the signals it
    shows. *)
Definition message_score `{Environment} (M : MarkerSets) (text : string) (score : Z)
    : Prop :=
  exists shown : Signal -> bool,
    (forall sig, shown sig = true <-> shows M sig text) /\
    score = sumZ (map (fun sig => if shown sig then weight sig else 0%Z) all_signals).

Definition last_three {A : Type} (l : list A) : list A := rev (firstn 3 (rev l)).

(** [total] is the sum of the scores of the last three student messages. *)
Definition window_score `{Environment} (M : MarkerSets) (msgs : list ChatMessage)
    (total : Z) : Prop :=
  exists scores,
    Forall2 (fun m score => message_score M (text_of m) score)
            (last_three (student_messages msgs)) scores /\
    total = sumZ scores.

Definition bucket (total : Z) : nat :=
  if (total <=? -3)%Z then 1
  else if (total <=? -1)%Z then 2
  else if (total <=? 1)%Z then 3
  else if (total <=? 3)%Z then 4
  else 5.

Definition heuristic_level `{Environment} (M : MarkerSets) (msgs : list ChatMessage)
    (level0 : nat) : Prop :=
  exists total, window_score M msgs total /\ level0 = bucket total.

Definition confused `{Environment} (M : MarkerSets) (msgs : list ChatMessage) : Prop :=
  exists m, most_recent_student msgs = Some m /\ matches (confusion_markers M) (text_of m).

Definition phase_of_string (phase : string) : Phase :=
  if String.eqb phase "diagnostic" then Diagnostic else Tutoring.

(** The branch of step 3, by phase, confusion and level. *)
Definition branch_of (phase : Phase) (isConfused0 : Prop) (level0 : nat) (b : Branch)
    : Prop :=
  match phase with
  | Diagnostic =>
      (isConfused0 /\ b = DiagnosticConfused) \/
      (~ isConfused0 /\ b = DiagnosticProbe)
  | Tutoring =>
      (isConfused0 /\ b = TutoringConfused) \/
      (~ isConfused0 /\ 4 <= level0 /\ b = TutoringTransfer) \/
      (~ isConfused0 /\ level0 < 4 /\ b = TutoringPractice)
  end.

Definition guidance_of (b : Branch) : string :=
  match b with
  | DiagnosticConfused =>
      "If the student is confused, acknowledge it and give ONE short clarification, then ask ONE simple check question."
  | DiagnosticProbe =>
      "Ask at most TWO short diagnostic questions. Require a brief reason for one."
  | TutoringConfused =>
      "Start by resolving the confusion from the last turn in 2-3 sentences, then ask ONE focused check question."
  | TutoringTransfer =>
      "Ask a transfer or 'why' question to probe depth. Require a 1-sentence justification."
  | TutoringPractice =>
      "Give a concise explanation, then ask ONE practice question plus a short reason."
  end.

(** The text of a directive after the first turn. *)
Definition render (turn maxTurns0 : nat) (phase : string) (topic0 : Topic)
    (level0 : nat) (b : Branch) : string :=
  "Adaptive strategy: turn=" +:+ pretty turn +:+ "/" +:+ pretty maxTurns0 +:+
  ", phase=" +:+ phase +:+ ", topic=" +:+ topic_name topic0 +:+
  ", estimated_level=" +:+ pretty level0 +:+ ". " +:+
  guidance_of b +:+
  " Avoid long lectures and always respond to the last student message.".

(** [d] is the directive of turn [turn]: the opening template on the first
    turn, whatever the history; after it, the text of the branch. *)
Definition directive `{Environment} (M : MarkerSets) (turn maxTurns0 : nat)
    (phase : string) (topic0 : Topic) (msgs : list ChatMessage) (d : string) : Prop :=
  if (turn =? 1)%nat then d = OPENING_DIRECTIVE
  else
    exists level0 b,
      heuristic_level M msgs level0 /\
      branch_of (phase_of_string phase) (confused M msgs) level0 b /\
      d = render turn maxTurns0 phase topic0 level0 b.

End StrategySpec.

(** ** The relations of the Strategy Selector, evaluated

    Functions that compute what the relations of [StrategySpec] describe,
    for any sets of markers; they are shown below to decide the relations,
    and are what the examples run. *)

Module StrategyEvaluation.

Import StrategySpec.

Definition shows_b `{Environment} (M : MarkerSets) (sig : Signal) (text : string) : bool :=
  match sig with
  | Confusion => some_includes (confusion_markers M) (toLowerCase text)
  | Hedging => some_includes (hedging_markers M) (toLowerCase text)
  | Reasoning => some_includes (reasoning_markers M) (toLowerCase text)
  | SelfCorrection => some_includes (self_correction_markers M) (toLowerCase text)
  | Digit => test_digit text
  end.

Definition tally `{Environment} (M : MarkerSets) (text : string) : Z :=
  sumZ (map (fun sig => if shows_b M sig text then weight sig else 0%Z) all_signals).

Definition window_tally `{Environment} (M : MarkerSets) (msgs : list ChatMessage) : Z :=
  sumZ (map (fun m => tally M (text_of m)) (last_three (student_messages msgs))).

Definition level_b `{Environment} (M : MarkerSets) (msgs : list ChatMessage) : nat :=
  bucket (window_tally M msgs).

Definition confused_b `{Environment} (M : MarkerSets) (msgs : list ChatMessage) : bool :=
  match most_recent_student msgs with
  | Some m => some_includes (confusion_markers M) (toLowerCase (text_of m))
  | None => false
  end.

Definition branch_b (phase : Phase) (isConfused0 : bool) (level0 : nat) : Branch :=
  match phase, isConfused0 with
  | Diagnostic, true => DiagnosticConfused
  | Diagnostic, false => DiagnosticProbe
  | Tutoring, true => TutoringConfused
  | Tutoring, false => if (4 <=? level0)%nat then TutoringTransfer else TutoringPractice
  end.

Definition directive_b `{Environment} (M : MarkerSets) (turn maxTurns0 : nat)
    (phase : string) (topic0 : Topic) (msgs : list ChatMessage) : string :=
  if (turn =? 1)%nat then OPENING_DIRECTIVE
  else
    render turn maxTurns0 phase topic0 (level_b M msgs)
      (branch_b (phase_of_string phase) (confused_b M msgs) (level_b M msgs)).

End StrategyEvaluation.

(** ** studentPersonalities.mjs *)

Module StudentPersonalities.

(** The keys of the [studentPersonalities] object literal. *)
Definition personalityIds : list string :=
  [ "55cf65c1-9ddf-4d16-a301-41121d93b079";
    "654b4823-23a0-4c1f-a9cb-3c2d5f0e403a";
    "99e2ce0b-5773-4d01-b084-05c663438d3c";
    "c011d01c-29d4-4452-8fd7-fe84c3372f6d";
    "5417fe47-35aa-46b7-a811-566b14546422" ].

(** The names the literal inherits from [Object.prototype].  Read from the
    literal, each gives a function, and [__proto__] the prototype itself:
    a truthy value without [traits]. *)
Definition objectPrototypeKeys : list string :=
  [ "constructor"; "__defineGetter__"; "__defineSetter__"; "hasOwnProperty";
    "__lookupGetter__"; "__lookupSetter__"; "isPrototypeOf";
    "propertyIsEnumerable"; "toString"; "valueOf"; "__proto__"; "toLocaleString" ].

(** [studentPersonalities[studentId]] is a personality for the five keys
    and [undefined] for a name that is neither a key nor inherited: the
    function returns the prompt, or [null].  For an inherited name the
    value passes the test [!personality] and [personality.traits.map]
    throws a TypeError. *)
Definition buildSystemPrompt `{Environment} (studentId0 : string) (topic0 : Topic)
    : Fallible (option string) :=
  if existsb (String.eqb studentId0) personalityIds
  then Returns (Some (studentSystemPromptText studentId0 topic0))
  else if existsb (String.eqb studentId0) objectPrototypeKeys
  then Throws
  else Returns None.

End StudentPersonalities.
Import StudentPersonalities.

(** ** index.mjs: the two handlers that advance a dialogue *)

Module Server.

(** A call to the OpenAI client, with the messages it is given. *)
Inductive ExternalCall : Type :=
| StudentCompletion (systemPrompt : string) (messageHistory : list ChatMessage)
| TutorCompletion (tutorMessages : list ChatMessage)
| JudgeCompletion (predictionPrompt : string).

Definition is_judge_call (c : ExternalCall) : bool :=
  match c with
  | JudgeCompletion _ => true
  | _ => false
  end.

(** The JSON bodies the handlers send; [details] of an error and the
    [interaction_id], which is made from the clock, are left out.
    [Unanswered]: the handler throws outside its [try] and sends nothing;
    what becomes of the rejected promise is up to Express and Node. *)
Inductive Response : Type :=
| ErrorResponse (status : nat) (error : string)
| InteractResponse (conversation_id0 student_response : string) (turn_number : nat)
    (is_complete : bool) (estimated_level : JsValue)
| TutorResponse (tutor_response : string) (turn_number : nat) (phase : string)
    (estimated_level : JsValue) (is_last_turn : bool)
| Unanswered.

Record Outcome : Type := mkOutcome {
  store_after : Store;
  calls : list ExternalCall;
  response : Response
}.

(** [!field] on a field of the request body: absent or the empty string. *)
Definition missing (field : option string) : bool :=
  match field with
  | None => true
  | Some v => String.eqb v ""
  end.

Definition field_value (field : option string) : string :=
  match field with
  | None => ""
  | Some v => v
  end.

(** [parsed.level && parsed.level >= 1 && parsed.level <= 5]; [None] when a
    conversion throws. *)
Definition level_in_range `{Environment} (lv : JsValue) : option bool :=
  if ToBoolean lv then
    n ← ToNumber lv;
    if PrimFloat.leb 1%float n then
      n' ← ToNumber lv;
      Some (PrimFloat.leb n' 5%float)
    else Some false
  else Some false.

(** The [try] block on the raw reply; [None] when it throws. *)
Definition try_parse `{Environment} (rawPrediction : string) : option (JsValue * JsValue) :=
  parsed ← JSON_parse rawPrediction;
  lv ← getProperty parsed "level";
  accept ← level_in_range lv;
  rat ← getProperty parsed "rationale";
  Some (if accept : bool then lv else JsNumber 3%float, js_or rat (JsString "")).

(** [let level = 3; let rationale = ''; try { ... } catch { ... }]: the
    level and rationale both handlers compute from the raw reply of the
    judge. *)
Definition parsePrediction `{Environment} (rawPrediction : string) : JsValue * JsValue :=
  match try_parse rawPrediction with
  | Some result => result
  | None =>
      (match match_1_to_5 rawPrediction with
       | Some digit => parseInt_digit digit
       | None => JsNumber 3%float
       end, JsString "")
  end.

(** The body of the outer [try] around the judge call, with its [catch]:
    the level and rationale passed to [setLockedPrediction].  On a [null]
    content [JSON.parse(null)] is [null], reading [level] of it throws, and
    in the inner [catch] [rawPrediction.match] throws again, to the outer
    [catch]. *)
Definition predictedLevel `{Environment} (judge : Completion) : JsValue * JsValue :=
  match judge with
  | Returns (Some rawPrediction) => parsePrediction rawPrediction
  | Returns None | Throws => (JsNumber 3%float, JsString "Default (prediction failed)")
  end.

(** [estimatedLevel] after the lock.  The line
    [console.log(`Locked prediction: Level ${level} - ${rationale}`)] comes
    after [setLockedPrediction] and inside the outer [try]: when the
    conversion of the level or of the rationale throws, the [catch] sets
    [estimatedLevel = 3], and its own [setLockedPrediction] finds the level
    locked. *)
Definition estimatedLevelAfterLock (level0 rationale0 : JsValue) : JsValue :=
  if toString_throws level0 || toString_throws rationale0
  then JsNumber 3%float
  else level0.

Definition conversationMessagesOf (c : Conversation) : list ChatMessage :=
  map (fun m => {| chat_role := role m; chat_content := content m |}) (messages c).

Definition studentMessagesOf (c : Conversation) : list Message :=
  filter (fun m => String.eqb (role m) "student" = true) (messages c).

(** [POST /api/interact].  The fields of the request body are strings when
    present.  [clock k] is the k-th reading of the clock during the request;
    [dialogue] and [judge] are the outcomes of the two completions.  A
    [null] content of the student completion is appended to the log, and
    the [substring] of the log line after it throws, to the [catch].  The
    line that logs a level that is already locked, here and in
    [/api/tutor-response], is left out: a locked level has passed the test
    of the handler, and a value that passes it converts to a string. *)
Definition interact `{Environment} (conversation_id0 tutor_message : option string)
    (clock : nat -> string) (dialogue judge : Completion) (s : Store) : Outcome :=
  if missing conversation_id0 || missing tutor_message then
    mkOutcome s [] (ErrorResponse 400 "conversation_id and tutor_message are required")
  else
    let cid := field_value conversation_id0 in
    match getConversation s cid with
    | None => mkOutcome s [] (ErrorResponse 404 "Conversation not found")
    | Some conversation =>
        if isComplete conversation then
          mkOutcome s [] (ErrorResponse 400 "Conversation is already complete")
        else
          let s1 :=
            fst (addMessage cid "tutor" (Some (field_value tutor_message)) (clock 0) s) in
          match buildSystemPrompt (studentId conversation) (topic conversation) with
          | Throws => mkOutcome s1 [] Unanswered
          | Returns None => mkOutcome s1 [] (ErrorResponse 500 "Failed to build system prompt")
          | Returns (Some systemPrompt) =>
              let messageHistory := getOpenAIMessages s1 cid in
              let call1 := StudentCompletion systemPrompt messageHistory in
              match dialogue with
              | Throws =>
                  mkOutcome s1 [call1] (ErrorResponse 500 "Failed to generate student response")
              | Returns studentResponse =>
                  let '(s2, updated) := addMessage cid "student" studentResponse (clock 1) s1 in
                  match updated, studentResponse with
                  | Some updatedConversation, Some studentText =>
                      let reply estimatedLevel :=
                        InteractResponse cid studentText
                          (turnNumber updatedConversation)
                          (isComplete updatedConversation) estimatedLevel in
                      match getLockedPrediction s2 cid with
                      | Some lockedPrediction0 =>
                          mkOutcome s2 [call1] (reply (level lockedPrediction0))
                      | None =>
                          if (5 <=? length (studentMessagesOf updatedConversation))%nat then
                            let predictionPrompt :=
                              buildPredictionPrompt (student updatedConversation)
                                (topic updatedConversation)
                                (conversationMessagesOf updatedConversation) in
                            let '(level0, rationale0) := predictedLevel judge in
                            mkOutcome
                              (fst (setLockedPrediction cid level0 rationale0 (clock 2) s2))
                              [call1; JudgeCompletion predictionPrompt]
                              (reply (estimatedLevelAfterLock level0 rationale0))
                          else
                            mkOutcome s2 [call1] (reply JsNull)
                      end
                  | _, _ =>
                      mkOutcome s2 [call1]
                        (ErrorResponse 500 "Failed to generate student response")
                  end
              end
          end
    end.

(** [POST /api/tutor-response].  On a [null] content of the tutor
    completion the level is looked up, and locked when it is due, before
    the [substring] of the last log line throws, to the [catch]. *)
Definition tutorResponse `{Environment} (conversation_id0 : option string)
    (clock : nat -> string) (dialogue judge : Completion) (s : Store) : Outcome :=
  if missing conversation_id0 then
    mkOutcome s [] (ErrorResponse 400 "conversation_id is required")
  else
    let cid := field_value conversation_id0 in
    match getConversation s cid with
    | None => mkOutcome s [] (ErrorResponse 404 "Conversation not found")
    | Some conversation =>
        let turn := (turnNumber conversation + 1)%nat in
        let maxTurns0 := maxTurns conversation in
        let conversationMessages := conversationMessagesOf conversation in
        let tutorMessages :=
          buildTutorMessages (student conversation) (topic conversation)
            conversationMessages turn maxTurns0 in
        let call1 := TutorCompletion tutorMessages in
        match dialogue with
        | Throws => mkOutcome s [call1] (ErrorResponse 500 "Failed to generate tutor response")
        | Returns tutorResponse0 =>
            let phase := turnPhase turn in
            let reply estimatedLevel :=
              match tutorResponse0 with
              | Some tutorText =>
                  TutorResponse tutorText turn phase estimatedLevel (maxTurns0 <=? turn)%nat
              | None => ErrorResponse 500 "Failed to generate tutor response"
              end in
            match getLockedPrediction s cid with
            | Some existingPrediction =>
                mkOutcome s [call1] (reply (level existingPrediction))
            | None =>
                if (6 <=? turn)%nat then
                  let predictionPrompt :=
                    buildPredictionPrompt (student conversation) (topic conversation)
                      conversationMessages in
                  let '(level0, rationale0) := predictedLevel judge in
                  mkOutcome
                    (fst (setLockedPrediction cid level0 rationale0 (clock 0) s))
                    [call1; JudgeCompletion predictionPrompt]
                    (reply (estimatedLevelAfterLock level0 rationale0))
                else
                  mkOutcome s [call1] (reply JsNull)
            end
        end
    end.

End Server.
Import Server.

(** ** Concrete data for the examples *)

Module Examples.

Definition dq : string := String (ascii_of_nat 34) EmptyString.

(** The reply [{"level": 4, "rationale": "clear reasoning"}]. *)
Definition reply_json : string :=
  "{" +:+ dq +:+ "level" +:+ dq +:+ ": 4, " +:+ dq +:+ "rationale" +:+ dq +:+ ": " +:+
  dq +:+ "clear reasoning" +:+ dq +:+ "}".


(** Lower-casing the ASCII letters neither makes nor removes a digit. *)
Definition asciiLowerCase_digit :
  forall text, test_digit (asciiLowerCase text) = test_digit text.
Proof.
  induction text as [|c rest IH]; [reflexivity|].
  cbn [asciiLowerCase test_digit]. rewrite IH. f_equal.
  unfold is_digit, lower_ascii.
  destruct ((65 <=? nat_of_ascii c)%nat && (nat_of_ascii c <=? 90)%nat) eqn:E;
    [|reflexivity].
  apply andb_true_iff in E as [Hlo Hhi].
  apply Nat.leb_le in Hlo, Hhi.
  rewrite nat_ascii_embedding by lia.
  transitivity false; [|symmetry];
    apply andb_false_iff; right; apply Nat.leb_gt; lia.
Qed.

(** [JSON.parse] on the three replies above: the object for the first, a
    SyntaxError on the other two.  The entries for other texts are not used.
    No example converts a string or an object to a number.  The texts of
    the examples are ASCII texts, which [toLowerCase] lower-cases letter by
    letter. *)
Definition example_env : Environment := {|
  JSON_parse := fun raw =>
    if String.eqb raw reply_json
    then Some (JsObject [("level", JsNumber 4%float);
                         ("rationale", JsString "clear reasoning")])
    else None;
  StringToNumber := fun _ => PrimFloat.nan;
  ObjectToNumber := fun _ => Some PrimFloat.nan;
  toLowerCase := asciiLowerCase;
  toLowerCase_empty := eq_refl;
  toLowerCase_digit := asciiLowerCase_digit;
  tutorSystemPromptText := fun _ _ _ _ _ _ => "";
  studentSystemPromptText := fun _ _ => "";
  predictionPromptText := fun _ _ _ _ lines => String.concat "
" lines
|}.

#[local] Existing Instance example_env.

Definition tim : Student := {| student_name := "Tim Weber"; student_grade_level := "8" |}.

Definition tectonics : Topic :=
  {| topic_name := "Plate Tectonics"; topic_subject_name := "Geography";
     topic_grade_level := "8" |}.

Definition tim_id : string := "55cf65c1-9ddf-4d16-a301-41121d93b079".

Definition clock0 : nat -> string := fun _ => "2026-01-16T10:00:00.000Z".

(** A store with one new conversation, [conv_u1], whose record is [conv1]. *)
Definition conv1 : Conversation :=
  {| conv_id := "conv_u1"; studentId := tim_id; topicId := "t1";
     student := tim; topic := tectonics; messages := []; turnNumber := 0;
     maxTurns := 10; isComplete := false; createdAt := clock0 0;
     lockedPrediction := None |}.

Definition store1 : Store :=
  fst (createConversation "u1" (clock0 0) tim_id "t1" tim tectonics ∅).

(** [n] requests to [/api/interact] in a row, each with the same outcomes
    [reply] and [judge] of the two completions. *)
Fixpoint interact_n (n : nat) (reply judge : Completion) (s : Store) : Store :=
  match n with
  | O => s
  | S k =>
      interact_n k reply judge
        (store_after (interact (Some "conv_u1") (Some "What is a plate?") clock0 reply judge s))
  end.

End Examples.
Import Examples.

(** ** conversationManager.mjs: the record of one conversation under an operation *)

Module SessionEffect.

(** The record [addMessage] stores for a conversation whose record was [c]. *)
Definition appended (role0 : string) (content0 : option string) (now : string)
    (c : Conversation) : Conversation :=
  let c1 := push_message {| role := role0; content := content0; timestamp := now |} c in
  let c2 := if String.eqb role0 "tutor" then increment_turn c1 else c1 in
  if (maxTurns c2 <=? turnNumber c2)%nat then set_complete c2 else c2.

(** The record of conversation [conversationId] after [op], from its record
    [c] before: an operation on another conversation leaves it alone. *)
Definition session_after (conversationId : string) (op : StoreOp) (c : Conversation)
    : Conversation :=
  match op with
  | OpAddMessage cid r ct now =>
      if String.eqb cid conversationId then appended r ct now c else c
  | OpEnd cid => if String.eqb cid conversationId then set_complete c else c
  | OpSetLocked cid l r now =>
      if String.eqb cid conversationId then
        match lockedPrediction c with
        | None => set_locked (mkLockedPrediction l r (turnNumber c) now) c
        | Some _ => c
        end
      else c
  | OpCreate _ _ _ _ _ _ | OpDelete _ => c
  end.

(** The conversation an operation is addressed to; a creation is addressed
    to the key it makes. *)
Definition target (op : StoreOp) : string :=
  match op with
  | OpCreate uuid _ _ _ _ _ => "conv_" +:+ uuid
  | OpAddMessage cid _ _ _ | OpEnd cid | OpSetLocked cid _ _ _ | OpDelete cid => cid
  end.

Definition appends_to (conversationId : string) (ops : list StoreOp) : list Message :=
  flat_map (fun op =>
              match op with
              | OpAddMessage cid r ct now =>
                  if String.eqb cid conversationId then [mkMessage r ct now] else []
              | _ => []
              end) ops.

Definition tutorMessagesOf (c : Conversation) : list Message :=
  filter (fun m => String.eqb (role m) "tutor" = true) (messages c).

(** The student messages that have a text; a student message with a [null]
    content is in the log when the completion gave no text. *)
Definition studentTextsOf (c : Conversation) : list Message :=
  filter (fun m => is_Some (content m)) (studentMessagesOf c).

End SessionEffect.
Import SessionEffect.

(** ** index.mjs: the [catch] of the parsing of the judge's reply *)

Module PredictionCatch.

(** What the [catch (parseError)] block leaves in [level] and [rationale]. *)
Definition digit_scan (raw : string) : JsValue * JsValue :=
  (match match_1_to_5 raw with
   | Some digit => parseInt_digit digit
   | None => JsNumber 3%float
   end, JsString "").

End PredictionCatch.
Import PredictionCatch.

(** ** index.mjs: the students cache, the start of a conversation, the lists *)

Module Catalog.

(** A topic and a student of [studentsData]: the id fields, the fields of
    [Topic] and [Student] above, and the topics of the student. *)
Record CachedTopic : Type := mkCachedTopic {
  cached_topic_id : string;
  cached_subject_id : string;
  cached_topic : Topic
}.

Record CachedStudent : Type := mkCachedStudent {
  cached_student_id : string;
  cached_student : Student;
  cached_topics : list CachedTopic
}.

Abbreviation StudentsData := (list CachedStudent).

Definition findStudent (studentsData : StudentsData) (studentId0 : string)
    : option CachedStudent :=
  find (fun st => String.eqb (cached_student_id st) studentId0) studentsData.

Definition findTopic (studentsData : StudentsData) (studentId0 topicId0 : string)
    : option CachedTopic :=
  match findStudent studentsData studentId0 with
  | None => None
  | Some st => find (fun t => String.eqb (cached_topic_id t) topicId0) (cached_topics st)
  end.

(** [GET /api/students/:studentId/topics]: [None] is the 404. *)
Definition studentTopics (studentsData : StudentsData) (studentId0 : string)
    : option (list CachedTopic) :=
  match findStudent studentsData studentId0 with
  | None => None
  | Some st => Some (cached_topics st)
  end.

(** A JavaScript [Map] with string keys, as the list of its entries in
    insertion order; [map_add] is [set] on a key the map does not have. *)
Definition map_has {V : Type} (m : list (string * V)) (key : string) : bool :=
  existsb (fun e => String.eqb (fst e) key) m.

Definition map_add {V : Type} (m : list (string * V)) (key : string) (v : V)
    : list (string * V) :=
  (m ++ [(key, v)])%list.

Definition map_values {V : Type} (m : list (string * V)) : list V := map snd m.

(** [if (!m.has(key)) m.set(key, v)] *)
Definition set_if_absent {V : Type} (m : list (string * V)) (key : string) (v : V)
    : list (string * V) :=
  if map_has m key then m else map_add m key v.

Record Subject : Type := mkSubject {
  subject_id : string;
  subject_name : string
}.

Definition subject_of (t : CachedTopic) : Subject :=
  {| subject_id := cached_subject_id t;
     subject_name := topic_subject_name (cached_topic t) |}.

(** [GET /api/subjects] *)
Definition listSubjects (studentsData : StudentsData) : list Subject :=
  let subjectsMap :=
    fold_left
      (fun subjectsMap st =>
         fold_left
           (fun subjectsMap t =>
              set_if_absent subjectsMap (cached_subject_id t) (subject_of t))
           (cached_topics st) subjectsMap)
      studentsData [] in
  map_values subjectsMap.

(** [!subject_id || topic.subject_id === subject_id] *)
Definition subject_matches (subject_id0 : option string) (t : CachedTopic) : bool :=
  missing subject_id0 || String.eqb (cached_subject_id t) (field_value subject_id0).

(** [GET /api/topics], with the [subject_id] of the query when it has one. *)
Definition listTopics (studentsData : StudentsData) (subject_id0 : option string)
    : list CachedTopic :=
  let topicsMap :=
    fold_left
      (fun topicsMap st =>
         fold_left
           (fun topicsMap t =>
              if subject_matches subject_id0 t
              then set_if_absent topicsMap (cached_topic_id t) t
              else topicsMap)
           (cached_topics st) topicsMap)
      studentsData [] in
  map_values topicsMap.

Inductive StartResponse : Type :=
| StartError (status : nat) (error : string)
| StartOk (created : CreateResult).

(** [POST /api/interact/start]; [uuid] and [now] are what
    [createConversation] reads from [uuidv4] and the clock. *)
Definition startConversation (studentsData : StudentsData)
    (student_id0 topic_id0 : option string) (uuid now : string) (s : Store)
    : Store * StartResponse :=
  if missing student_id0 || missing topic_id0 then
    (s, StartError 400 "student_id and topic_id are required")
  else
    match findStudent studentsData (field_value student_id0) with
    | None => (s, StartError 404 "Student not found")
    | Some st =>
        match findTopic studentsData (field_value student_id0) (field_value topic_id0) with
        | None => (s, StartError 404 "Topic not found for this student")
        | Some t =>
            let '(s', conversation) :=
              createConversation uuid now (field_value student_id0) (field_value topic_id0)
                (cached_student st) (cached_topic t) s in
            (s', StartOk conversation)
        end
    end.

End Catalog.
Import Catalog.

(** ** index.mjs: sequences of requests *)

Module Api.

(** The three requests that change the store, each with what the handler
    reads from outside while it runs. *)
Inductive Request : Type :=
| PostStart (student_id0 topic_id0 : option string) (uuid now : string)
| PostInteract (conversation_id0 tutor_message : option string) (clock : nat -> string)
    (dialogue judge : Completion)
| PostTutorResponse (conversation_id0 : option string) (clock : nat -> string)
    (dialogue judge : Completion).

Definition serve `{Environment} (studentsData : StudentsData) (r : Request) (s : Store)
    : Store :=
  match r with
  | PostStart sid tid uuid now => fst (startConversation studentsData sid tid uuid now s)
  | PostInteract cid msg clock dialogue judge =>
      store_after (interact cid msg clock dialogue judge s)
  | PostTutorResponse cid clock dialogue judge =>
      store_after (tutorResponse cid clock dialogue judge s)
  end.

Fixpoint serve_all `{Environment} (studentsData : StudentsData) (rs : list Request)
    (s : Store) : Store :=
  match rs with
  | [] => s
  | r :: rest => serve_all studentsData rest (serve studentsData r s)
  end.

(** [uuidv4] returns an id that is not in use. *)
Definition fresh_request (r : Request) (s : Store) : Prop :=
  match r with
  | PostStart _ _ uuid _ => s !! ("conv_" +:+ uuid) = None
  | _ => True
  end.

Fixpoint fresh_requests `{Environment} (studentsData : StudentsData) (rs : list Request)
    (s : Store) : Prop :=
  match rs with
  | [] => True
  | r :: rest => fresh_request r s /\ fresh_requests studentsData rest (serve studentsData r s)
  end.

(** What holds of the record of every conversation that the requests have
    made and driven. *)
Record api_session `{Environment} (c : Conversation) : Prop := mkApiSession {
  api_roles :
    Forall (fun m => role m = "tutor" \/ role m = "student") (messages c);
  api_turns : turnNumber c = length (tutorMessagesOf c);
  api_students : length (studentMessagesOf c) <= turnNumber c;
  api_maxTurns : maxTurns c = MAX_TURNS;
  api_bound : turnNumber c <= maxTurns c;
  api_complete : isComplete c = (maxTurns c <=? turnNumber c)%nat;
  api_unlocked : lockedPrediction c = None -> length (studentTextsOf c) < 5;
  api_locked :
    forall p, lockedPrediction c = Some p ->
      5 <= lockedAtTurn p <= turnNumber c /\ level_in_range (level p) = Some true
}.

End Api.
Import Api.

(** ** More concrete data *)

Module MoreExamples.

(** The reply [{"level": 7, "rationale": "off the scale"}]. *)
Definition reply_seven : string :=
  "{" +:+ dq +:+ "level" +:+ dq +:+ ": 7, " +:+ dq +:+ "rationale" +:+ dq +:+ ": " +:+
  dq +:+ "off the scale" +:+ dq +:+ "}".

Definition reply_bare_digit : string := "4".
Definition reply_null : string := "null".

(** [JSON.parse] on three more replies, next to those of [example_env]:
    the object whose level is 7, the number 4 and [null]. *)
Definition example_env2 : Environment := {|
  JSON_parse := fun raw =>
    if String.eqb raw reply_seven
    then Some (JsObject [("level", JsNumber 7%float);
                         ("rationale", JsString "off the scale")])
    else if String.eqb raw reply_bare_digit then Some (JsNumber 4%float)
    else if String.eqb raw reply_null then Some JsNull
    else @JSON_parse example_env raw;
  StringToNumber := @StringToNumber example_env;
  ObjectToNumber := @ObjectToNumber example_env;
  toLowerCase := asciiLowerCase;
  toLowerCase_empty := eq_refl;
  toLowerCase_digit := asciiLowerCase_digit;
  tutorSystemPromptText := @tutorSystemPromptText example_env;
  studentSystemPromptText := @studentSystemPromptText example_env;
  predictionPromptText := @predictionPromptText example_env
|}.

(** The reply [{"level": 4, "rationale": {"toString": 1}}], whose rationale
    cannot be converted to a string. *)
Definition reply_odd : string :=
  "{" +:+ dq +:+ "level" +:+ dq +:+ ": 4, " +:+ dq +:+ "rationale" +:+ dq +:+ ": {" +:+
  dq +:+ "toString" +:+ dq +:+ ": 1}}".

(** [JSON.parse] on that reply, next to those of [example_env]. *)
Definition example_env3 : Environment := {|
  JSON_parse := fun raw =>
    if String.eqb raw reply_odd
    then Some (JsObject [("level", JsNumber 4%float);
                         ("rationale", JsObject [("toString", JsNumber 1%float)])])
    else @JSON_parse example_env raw;
  StringToNumber := @StringToNumber example_env;
  ObjectToNumber := @ObjectToNumber example_env;
  toLowerCase := asciiLowerCase;
  toLowerCase_empty := eq_refl;
  toLowerCase_digit := asciiLowerCase_digit;
  tutorSystemPromptText := @tutorSystemPromptText example_env;
  studentSystemPromptText := @studentSystemPromptText example_env;
  predictionPromptText := @predictionPromptText example_env
|}.

Definition volcanoes : Topic :=
  {| topic_name := "Volcanoes"; topic_subject_name := "Geography";
     topic_grade_level := "8" |}.

Definition fractions : Topic :=
  {| topic_name := "Fractions"; topic_subject_name := "Mathematics";
     topic_grade_level := "9" |}.

Definition lena : Student := {| student_name := "Lena Schmidt"; student_grade_level := "9" |}.

Definition lena_id : string := "654b4823-23a0-4c1f-a9cb-3c2d5f0e403a".

(** A cache of two students; both have the tectonics topic. *)
Definition cache : StudentsData :=
  [ {| cached_student_id := tim_id; cached_student := tim;
       cached_topics := [ mkCachedTopic "t1" "geo" tectonics;
                          mkCachedTopic "t2" "geo" volcanoes ] |};
    {| cached_student_id := lena_id; cached_student := lena;
       cached_topics := [ mkCachedTopic "t3" "math" fractions;
                          mkCachedTopic "t1" "geo" tectonics ] |} ].

(** A conversation of Tim on tectonics, started and driven for [n] turns
    through the handlers: the student answers every time, the judge call
    throws. *)
Definition turn_request : Request :=
  PostInteract (Some "conv_u1") (Some "Why does it move?") clock0
    (Returns (Some "I think it moves because of heat")) Throws.

Definition session_requests (n : nat) : list Request :=
  PostStart (Some tim_id) (Some "t1") "u1" (clock0 0) :: repeat turn_request n.

(** A student of the cache who has no entry in [studentPersonalities], and
    one whose id is a name that every object inherits. *)
Definition store_stranger : Store :=
  fst (createConversation "u2" (clock0 0) "someone-else" "t1" tim tectonics ∅).

Definition store_constructor : Store :=
  fst (createConversation "u3" (clock0 0) "constructor" "t1" tim tectonics ∅).

End MoreExamples.
Import MoreExamples.

(** * Properties of the session store *)

Section StoreProperties.

Implicit Types (s : Store) (c : Conversation) (op : StoreOp) (ops : list StoreOp).

Lemma eqb_string_true (a b : string) : String.eqb a b = true <-> a = b.
Proof. apply String.eqb_eq. Qed.

Lemma eqb_string_false (a b : string) : String.eqb a b = false <-> a <> b.
Proof. apply String.eqb_neq. Qed.

Lemma addMessage_at s (id r : string) (ct : option string) (now : string) c :
  s !! id = Some c ->
  exists c',
    addMessage id r ct now s = (<[id := c']> s, Some c') /\
    messages c' = (messages c ++ [mkMessage r ct now])%list /\
    turnNumber c' = (if String.eqb r "tutor" then S (turnNumber c) else turnNumber c) /\
    maxTurns c' = maxTurns c /\
    isComplete c' = isComplete c || (maxTurns c <=? turnNumber c')%nat /\
    lockedPrediction c' = lockedPrediction c /\
    student c' = student c /\ topic c' = topic c /\ studentId c' = studentId c.
Proof.
  intros Hc. unfold addMessage. rewrite Hc.
  eexists. split; [reflexivity|].
  destruct (String.eqb r "tutor"); cbn;
    destruct (Nat.leb _ _) eqn:E; cbn; rewrite ?E, ?orb_true_r, ?orb_false_r;
    repeat split; reflexivity.
Qed.

Lemma addMessage_missing s (id r : string) (ct : option string) (now : string) :
  s !! id = None -> addMessage id r ct now s = (s, None).
Proof. intros Hc. unfold addMessage. now rewrite Hc. Qed.

Lemma session_step_same (id : string) op c :
  is_append_to id op = false -> is_end_of id op = false -> session_step id op c c.
Proof.
  intros Happ Hend.
  assert (Htut : is_tutor_append id op = false).
  { destruct op; cbn in *; try reflexivity. now rewrite Happ. }
  constructor; rewrite ?Htut, ?Happ, ?Hend; cbn;
    rewrite ?Nat.add_0_r, ?orb_false_r; auto.
  exists []. now rewrite app_nil_r.
Qed.

Lemma apply_op_present op s (id : string) c :
  s !! id = Some c -> fresh_op op s -> is_delete_of id op = false ->
  exists c', apply_op op s !! id = Some c' /\ session_step id op c c'.
Proof.
  intros Hc Hfresh Hdel.
  destruct op as [uuid now sid tid st tp | cid r ct now | cid | cid l r now | cid];
    cbn [apply_op fresh_op is_delete_of] in *.
  - exists c. split; [|now apply session_step_same].
    cbn. rewrite lookup_insert_ne; [assumption|].
    intros E. rewrite <- E in Hc. congruence.
  - destruct (String.eqb cid id) eqn:E.
    + apply eqb_string_true in E. subst cid.
      destruct (addMessage_at s id r ct now c Hc)
        as (c' & -> & Hm & Ht & Hmx & Hic & Hl & _).
      exists c'. cbn. rewrite lookup_insert_eq. split; [reflexivity|].
      constructor; cbn; rewrite ?String.eqb_refl; cbn; try assumption.
      * rewrite Ht. destruct (String.eqb r "tutor"); lia.
      * now rewrite Hic, orb_false_r.
      * intros p. now rewrite Hl.
      * eauto.
    + exists c. split; [|now apply session_step_same].
      apply eqb_string_false in E.
      unfold addMessage. destruct (s !! cid); cbn; [|assumption].
      now rewrite lookup_insert_ne.
  - unfold endConversation. destruct (String.eqb cid id) eqn:E.
    + apply eqb_string_true in E. subst cid. rewrite Hc. cbn.
      rewrite lookup_insert_eq. eexists. split; [reflexivity|].
      constructor; cbn; rewrite ?String.eqb_refl, ?Nat.add_0_r, ?orb_true_r; auto.
      exists []. now rewrite app_nil_r.
    + exists c. split; [|now apply session_step_same].
      apply eqb_string_false in E.
      destruct (s !! cid); cbn; [|assumption]. now rewrite lookup_insert_ne.
  - unfold setLockedPrediction. destruct (decide (cid = id)) as [->|Hne].
    + rewrite Hc. destruct (lockedPrediction c) as [p|] eqn:Hp; cbn.
      * exists c. split; [assumption|]. now apply session_step_same.
      * rewrite lookup_insert_eq. eexists. split; [reflexivity|].
        constructor; cbn; rewrite ?Nat.add_0_r, ?orb_false_r; auto.
        -- intros p. rewrite Hp. discriminate.
        -- exists []. now rewrite app_nil_r.
    + exists c. split; [|now apply session_step_same].
      destruct (s !! cid) as [c0|]; cbn; [|assumption].
      destruct (lockedPrediction c0); cbn; [assumption|].
      now rewrite lookup_insert_ne.
  - apply eqb_string_false in Hdel. exists c. split; [|now apply session_step_same].
    cbn. now rewrite lookup_delete_ne.
Qed.

Lemma apply_op_absent op s (id : string) c' :
  s !! id = None -> apply_op op s !! id = Some c' -> is_new c'.
Proof.
  intros Hnone.
  destruct op as [uuid now sid tid st tp | cid r ct now | cid | cid l r now | cid]; cbn.
  - destruct (decide ("conv_" +:+ uuid = id)) as [->|Hne].
    + rewrite lookup_insert_eq. intros [= <-]. now constructor.
    + rewrite lookup_insert_ne; [|assumption]. congruence.
  - unfold addMessage. destruct (s !! cid) eqn:E; cbn; [|congruence].
    destruct (decide (cid = id)) as [->|Hne]; [congruence|].
    rewrite lookup_insert_ne; [|assumption]. congruence.
  - unfold endConversation. destruct (s !! cid) eqn:E; cbn; [|congruence].
    destruct (decide (cid = id)) as [->|Hne]; [congruence|].
    rewrite lookup_insert_ne; [|assumption]. congruence.
  - unfold setLockedPrediction. destruct (s !! cid) as [c0|] eqn:E; cbn; [|congruence].
    destruct (lockedPrediction c0); cbn; [congruence|].
    destruct (decide (cid = id)) as [->|Hne]; [congruence|].
    rewrite lookup_insert_ne; [|assumption]. congruence.
  - destruct (decide (cid = id)) as [->|Hne].
    + rewrite lookup_delete_eq. congruence.
    + rewrite lookup_delete_ne; [|assumption]. congruence.
Qed.

Lemma apply_op_delete op s (id : string) :
  is_delete_of id op = true -> apply_op op s !! id = None.
Proof.
  destruct op; cbn; try discriminate.
  intros E. apply eqb_string_true in E. subst. apply lookup_delete_eq.
Qed.

(** A property of a conversation record that holds of a new record and that
    every allowed operation preserves holds of the record after every
    sequence of allowed operations. *)
Lemma run_ops_invariant (P : Conversation -> Prop) (allowed : StoreOp -> Prop) (id : string) :
  (forall c, is_new c -> P c) ->
  (forall op c c', allowed op -> session_step id op c c' -> P c -> P c') ->
  forall ops s,
    Forall allowed ops -> fresh_uuids ops s ->
    (forall c, s !! id = Some c -> P c) ->
    forall c, run_ops ops s !! id = Some c -> P c.
Proof.
  intros Hnew Hstep ops.
  induction ops as [|op ops IH]; intros s Hall Hfresh Hs c Hrun; cbn in *.
  - now apply Hs.
  - destruct Hfresh as [Hop Hfresh]. inversion Hall as [|? ? Hok Hall']; subst.
    apply (IH (apply_op op s)); try assumption.
    intros c1 Hc1. destruct (s !! id) as [c0|] eqn:Hc0.
    + destruct (is_delete_of id op) eqn:Hdel.
      * rewrite (apply_op_delete op s id Hdel) in Hc1. discriminate.
      * destruct (apply_op_present op s id c0 Hc0 Hop Hdel) as (c' & Hc' & Hst).
        rewrite Hc' in Hc1. injection Hc1 as <-. eapply Hstep; eauto.
    + apply Hnew. eapply apply_op_absent; eauto.
Qed.

(** The record of a conversation that is never deleted, after a sequence of
    operations: the steps compose. *)
Lemma run_ops_present ops : forall s (id : string) c,
  s !! id = Some c -> fresh_uuids ops s -> never_deletes id ops ->
  exists c',
    run_ops ops s !! id = Some c' /\
    turnNumber c' = (turnNumber c + tutor_appends id ops)%nat /\
    maxTurns c' = maxTurns c /\
    (isComplete c = true -> isComplete c' = true) /\
    (forall p, lockedPrediction c = Some p -> lockedPrediction c' = Some p).
Proof.
  induction ops as [|op ops IH]; intros s id c Hc Hfresh Hdel;
    cbn [run_ops fresh_uuids] in *.
  - exists c. unfold tutor_appends. cbn. rewrite Nat.add_0_r. auto.
  - destruct Hfresh as [Hop Hfresh]. inversion Hdel as [|? ? Hd Hdel']; subst.
    destruct (apply_op_present op s id c Hc Hop Hd) as (c1 & Hc1 & Hst).
    destruct (IH _ id c1 Hc1 Hfresh Hdel') as (c' & Hrun & Ht & Hm & Hic & Hl).
    exists c'. split; [assumption|]. destruct Hst as [St Sm Si Sl _].
    repeat split.
    + rewrite Ht, St. unfold tutor_appends.
      destruct (is_tutor_append id op) eqn:E.
      * rewrite filter_cons_True by assumption. cbn. lia.
      * rewrite filter_cons_False by congruence. lia.
    + congruence.
    + intros H. apply Hic. rewrite Si, H. reflexivity.
    + intros p Hp. apply Hl, Sl, Hp.
Qed.

Lemma session_step_bound (id : string) op c c' :
  session_step id op c c' ->
  (maxTurns c <= turnNumber c -> isComplete c = true) ->
  maxTurns c' <= turnNumber c' -> isComplete c' = true.
Proof.
  intros [St Sm Si _ _] Hinv Hle. rewrite Si.
  destruct (is_append_to id op) eqn:Happ.
  - rewrite Sm in Hle. apply Nat.leb_le in Hle. rewrite Hle. cbn. apply orb_true_r.
  - assert (Htut : is_tutor_append id op = false).
    { destruct op; cbn in *; try reflexivity. now rewrite Happ. }
    rewrite Htut, Nat.add_0_r in St. rewrite Hinv by lia. reflexivity.
Qed.

Lemma session_step_exact (id : string) op c c' :
  is_end_of id op = false ->
  session_step id op c c' ->
  (isComplete c = true <-> maxTurns c <= turnNumber c) ->
  (isComplete c' = true <-> maxTurns c' <= turnNumber c').
Proof.
  intros Hend Hst Hiff. split.
  - destruct Hst as [St Sm Si _ _]. rewrite Si, Hend, orb_false_r.
    intros H. apply orb_true_iff in H as [H|H].
    + apply Hiff in H. lia.
    + apply andb_true_iff in H as [_ H]. apply Nat.leb_le in H. lia.
  - apply (session_step_bound id op c c' Hst). apply Hiff.
Qed.

End StoreProperties.

(** * The claims about the session store *)

Section StoreClaims.

Implicit Types (s : Store) (c : Conversation) (op : StoreOp) (ops : list StoreOp).

(** C1. The locked level of a session is set at most once.  On a session
    whose [lockedPrediction] is unset, [setLockedPrediction] stores the given
    level and rationale (with the turn number and the time) and returns the
    record.  After that, whatever operations follow on the store (the
    session not being deleted), the stored record is the same, and every
    further call of [setLockedPrediction], with any level, rationale and
    time, leaves the whole store as it is and returns that first record: two
    attempts on one session give the level and rationale of the first. *)
Theorem setLockedPrediction_first_writer_wins :
  forall s (id : string) c (level0 rationale0 : JsValue) (now : string),
    s !! id = Some c ->
    lockedPrediction c = None ->
    let p := {| level := level0; rationale := rationale0;
                lockedAtTurn := turnNumber c; lockedAt := now |} in
    let s1 := fst (setLockedPrediction id level0 rationale0 now s) in
    snd (setLockedPrediction id level0 rationale0 now s) = Some p /\
    getLockedPrediction s1 id = Some p /\
    forall ops, fresh_uuids ops s1 -> never_deletes id ops ->
      let s2 := run_ops ops s1 in
      getLockedPrediction s2 id = Some p /\
      forall (level1 rationale1 : JsValue) (later : string),
        setLockedPrediction id level1 rationale1 later s2 = (s2, Some p).
Proof.
  intros s id c level0 rationale0 now Hc Hnone p s1.
  assert (Hs1 : s1 !! id = Some (set_locked p c)).
  { subst s1. unfold setLockedPrediction. rewrite Hc, Hnone. cbn.
    apply lookup_insert_eq. }
  split; [|split].
  - unfold setLockedPrediction. now rewrite Hc, Hnone.
  - unfold getLockedPrediction. now rewrite Hs1.
  - intros ops Hfresh Hdel s2.
    destruct (run_ops_present ops s1 id _ Hs1 Hfresh Hdel)
      as (c' & Hrun & _ & _ & _ & Hl).
    specialize (Hl p eq_refl). fold s2 in Hrun. split.
    + unfold getLockedPrediction. now rewrite Hrun.
    + intros level1 rationale1 later. unfold setLockedPrediction.
      now rewrite Hrun, Hl.
Qed.

Lemma setLockedPrediction_first_writer_wins_witness :
  let later_ops :=
    [OpAddMessage "conv_u1" "tutor" (Some "Why?") (clock0 1);
     OpSetLocked "conv_u1" (JsNumber 1%float) (JsString "second attempt") (clock0 2)] in
  let s1 := fst (setLockedPrediction "conv_u1" (JsNumber 4%float)
                   (JsString "clear reasoning") (clock0 0) store1) in
  getLockedPrediction (run_ops later_ops s1) "conv_u1" =
    Some {| level := JsNumber 4%float; rationale := JsString "clear reasoning";
            lockedAtTurn := 0; lockedAt := clock0 0 |}.
Proof.
  intros later_ops s1.
  assert (Hc : exists c, store1 !! "conv_u1" = Some c /\ lockedPrediction c = None
                         /\ turnNumber c = 0%nat).
  { eexists. split; [vm_compute; reflexivity|]. split; reflexivity. }
  destruct Hc as (c & Hc & Hnone & Hturn).
  pose proof (setLockedPrediction_first_writer_wins store1 "conv_u1" c
                (JsNumber 4%float) (JsString "clear reasoning") (clock0 0) Hc Hnone)
    as (_ & _ & Hlater).
  rewrite Hturn in Hlater.
  apply (Hlater later_ops).
  - cbn. auto.
  - repeat constructor.
Defined.

(** C9. The turn counter of a session changes only by the append of a tutor
    message, and then by exactly one.  After any sequence of store
    operations (the session not being deleted) the counter is its old value
    plus the number of tutor-authored appends to the session in the
    sequence, so it never decreases; and one more [addMessage] on the
    session adds one when the role is ["tutor"] and nothing for any other
    role. *)
Theorem turnNumber_counts_tutor_appends :
  forall ops s (id : string) c,
    s !! id = Some c -> fresh_uuids ops s -> never_deletes id ops ->
    exists c',
      run_ops ops s !! id = Some c' /\
      turnNumber c' = (turnNumber c + tutor_appends id ops)%nat /\
      turnNumber c <= turnNumber c' /\
      forall (role0 : string) (content0 : option string) (now : string),
        exists c'',
          snd (addMessage id role0 content0 now (run_ops ops s)) = Some c'' /\
          fst (addMessage id role0 content0 now (run_ops ops s)) !! id = Some c'' /\
          turnNumber c'' =
            if String.eqb role0 "tutor" then S (turnNumber c') else turnNumber c'.
Proof.
  intros ops s id c Hc Hfresh Hdel.
  destruct (run_ops_present ops s id c Hc Hfresh Hdel) as (c' & Hrun & Ht & _).
  exists c'. repeat split; try assumption; [lia|].
  intros role0 content0 now.
  destruct (addMessage_at _ id role0 content0 now c' Hrun) as (c'' & -> & _ & Ht' & _).
  exists c''. cbn. rewrite lookup_insert_eq. auto.
Qed.

Lemma turnNumber_counts_tutor_appends_witness :
  exists c',
    run_ops [OpAddMessage "conv_u1" "tutor" (Some "What is a plate?") (clock0 0);
             OpAddMessage "conv_u1" "student" (Some "A piece of crust") (clock0 1);
             OpEnd "conv_u1";
             OpAddMessage "conv_u1" "tutor" (Some "Why does it move?") (clock0 2)]
            store1 !! "conv_u1" = Some c' /\
    turnNumber c' = 2%nat.
Proof.
  assert (Hc : exists c, store1 !! "conv_u1" = Some c /\ turnNumber c = 0%nat).
  { eexists. split; [vm_compute; reflexivity|reflexivity]. }
  destruct Hc as (c & Hc & Hturn).
  edestruct (turnNumber_counts_tutor_appends
               [OpAddMessage "conv_u1" "tutor" (Some "What is a plate?") (clock0 0);
                OpAddMessage "conv_u1" "student" (Some "A piece of crust") (clock0 1);
                OpEnd "conv_u1";
                OpAddMessage "conv_u1" "tutor" (Some "Why does it move?") (clock0 2)]
               store1 "conv_u1" c Hc) as (c' & Hrun & Ht & _).
  - cbn. auto.
  - repeat constructor.
  - exists c'. split; [exact Hrun|]. rewrite Ht, Hturn. reflexivity.
Defined.

(** C10. For a conversation id with no stored conversation,
    [isConversationComplete] returns [true]: a session that does not exist
    is reported as complete, not as an error and not as incomplete. *)
Theorem isConversationComplete_unknown :
  forall s (id : string),
    getConversation s id = None -> isConversationComplete s id = true.
Proof.
  intros s id Hnone. unfold getConversation in Hnone.
  unfold isConversationComplete. now rewrite Hnone.
Qed.

Lemma isConversationComplete_unknown_witness :
  getConversation store1 "conv_missing" = None /\
  isConversationComplete store1 "conv_missing" = true.
Proof.
  assert (H : getConversation store1 "conv_missing" = None) by (vm_compute; reflexivity).
  split; [exact H | exact (isConversationComplete_unknown store1 "conv_missing" H)].
Defined.

(** C4, as the code has it.  From the empty store of a starting server,
    after every sequence of store operations and for every session: if
    [turnNumber >= maxTurns] then [isComplete] is true; the converse holds
    as long as [endConversation] was not called on the session; and once
    [isComplete] is true it stays true under every further sequence of
    operations (the session not being deleted). *)
Theorem isComplete_after_operations :
  forall ops (id : string) c,
    fresh_uuids ops ∅ ->
    run_ops ops ∅ !! id = Some c ->
    (maxTurns c <= turnNumber c -> isComplete c = true) /\
    (never_ends id ops -> (isComplete c = true <-> maxTurns c <= turnNumber c)) /\
    (forall more,
       fresh_uuids more (run_ops ops ∅) -> never_deletes id more ->
       isComplete c = true ->
       exists c', run_ops more (run_ops ops ∅) !! id = Some c' /\ isComplete c' = true).
Proof.
  intros ops id c Hfresh Hrun. split; [|split].
  - revert c Hrun.
    apply (run_ops_invariant
             (fun c => maxTurns c <= turnNumber c -> isComplete c = true)
             (fun _ => True) id) with (s := ∅); try assumption.
    + intros c [Ht Hm _ _ _]. rewrite Ht, Hm. unfold MAX_TURNS. lia.
    + intros op c c' _ Hst. apply (session_step_bound id op c c' Hst).
    + apply Forall_forall. auto.
    + intros c. rewrite lookup_empty. discriminate.
  - intros Hends. revert c Hrun.
    apply (run_ops_invariant
             (fun c => isComplete c = true <-> maxTurns c <= turnNumber c)
             (fun op => is_end_of id op = false) id) with (s := ∅); try assumption.
    + intros c [Ht Hm Hi _ _]. rewrite Ht, Hm, Hi. unfold MAX_TURNS.
      split; [discriminate|lia].
    + intros op c c' Hend Hst. apply (session_step_exact id op c c' Hend Hst).
    + intros c. rewrite lookup_empty. discriminate.
  - intros more Hmore Hdel Hic.
    destruct (run_ops_present more _ id c Hrun Hmore Hdel) as (c' & Hc' & _ & _ & Hk & _).
    exists c'. auto.
Qed.

Lemma isComplete_after_operations_witness :
  exists c,
    run_ops [OpCreate "u1" (clock0 0) tim_id "t1" tim tectonics;
             OpAddMessage "conv_u1" "tutor" (Some "What is a plate?") (clock0 1)]
            ∅ !! "conv_u1" = Some c /\
    (isComplete c = true <-> maxTurns c <= turnNumber c).
Proof.
  eexists. split; [vm_compute; reflexivity|].
  refine (proj1 (proj2 (isComplete_after_operations
            [OpCreate "u1" (clock0 0) tim_id "t1" tim tectonics;
             OpAddMessage "conv_u1" "tutor" (Some "What is a plate?") (clock0 1)]
            "conv_u1" _ _ _)) _).
  - cbn. split; [vm_compute; reflexivity|auto].
  - vm_compute. reflexivity.
  - repeat constructor.
Defined.

(** C4 as stated fails: [endConversation] on a new session sets the flag
    while the turn counter is 0 and [maxTurns] is 10. *)
Lemma endConversation_completes_before_maxTurns :
  exists c,
    fst (endConversation "conv_u1" store1) !! "conv_u1" = Some c /\
    turnNumber c = 0%nat /\ maxTurns c = 10%nat /\
    ~ (isComplete c = true <-> maxTurns c <= turnNumber c).
Proof.
  eexists. split; [vm_compute; reflexivity|]. cbn.
  split; [reflexivity|]. split; [reflexivity|].
  intros [H _]. specialize (H eq_refl). unfold MAX_TURNS in H. lia.
Qed.

End StoreClaims.

(** * The two handlers, unfolded along their paths *)

Section HandlerPaths.

Context `{Environment}.

Implicit Types (s : Store) (c : Conversation).

Lemma missing_Some (v : string) : v <> "" -> missing (Some v) = false.
Proof. intros Hv. cbn. now apply eqb_string_false. Qed.

(** The record after the tutor message of a request has been appended. *)
Lemma tutor_append s (cid msg now : string) c :
  s !! cid = Some c -> isComplete c = false ->
  exists c1,
    addMessage cid "tutor" (Some msg) now s = (<[cid := c1]> s, Some c1) /\
    messages c1 = (messages c ++ [mkMessage "tutor" (Some msg) now])%list /\
    turnNumber c1 = S (turnNumber c) /\
    maxTurns c1 = maxTurns c /\
    isComplete c1 = (maxTurns c <=? S (turnNumber c))%nat /\
    lockedPrediction c1 = lockedPrediction c /\
    student c1 = student c /\ topic c1 = topic c /\ studentId c1 = studentId c.
Proof.
  intros Hc Hic.
  destruct (addMessage_at s cid "tutor" (Some msg) now c Hc)
    as (c1 & Heq & Hm & Ht & Hmx & Hi & Hl & Hs & Htp & Hsid).
  cbn in Ht. exists c1. rewrite Hi, Hic, Ht. cbn. auto 10.
Qed.

(** The record after the reply of the student, a text or [null], has been
    appended too. *)
Lemma student_append s (cid : string) (reply : option string) (now : string) c1 :
  s !! cid = Some c1 ->
  exists c2,
    addMessage cid "student" reply now s = (<[cid := c2]> s, Some c2) /\
    messages c2 = (messages c1 ++ [mkMessage "student" reply now])%list /\
    turnNumber c2 = turnNumber c1 /\
    maxTurns c2 = maxTurns c1 /\
    isComplete c2 = isComplete c1 || (maxTurns c1 <=? turnNumber c1)%nat /\
    lockedPrediction c2 = lockedPrediction c1 /\
    student c2 = student c1 /\ topic c2 = topic c1 /\ studentId c2 = studentId c1.
Proof.
  intros Hc.
  destruct (addMessage_at s cid "student" reply now c1 Hc)
    as (c2 & Heq & Hm & Ht & Hmx & Hi & Hl & Hs & Htp & Hsid).
  cbn in Ht. exists c2. rewrite Hi, Ht. auto 10.
Qed.

Lemma setLockedPrediction_unset s (cid : string) c (l r : JsValue) (now : string) :
  s !! cid = Some c -> lockedPrediction c = None ->
  fst (setLockedPrediction cid l r now s) =
  <[cid := set_locked (mkLockedPrediction l r (turnNumber c) now) c]> s.
Proof. intros Hc Hl. unfold setLockedPrediction. now rewrite Hc, Hl. Qed.

(** [/api/interact] when the student completion throws: the tutor message
    is in the log, the reply is the 500 error. *)
Lemma interact_dialogue_throws s (cid msg : string) c clock judge sp :
  cid <> "" -> msg <> "" ->
  s !! cid = Some c -> isComplete c = false ->
  buildSystemPrompt (studentId c) (topic c) = Returns (Some sp) ->
  exists c1 call1,
    interact (Some cid) (Some msg) clock Throws judge s =
      mkOutcome (<[cid := c1]> s) [call1]
        (ErrorResponse 500 "Failed to generate student response") /\
    is_judge_call call1 = false /\
    messages c1 = (messages c ++ [mkMessage "tutor" (Some msg) (clock 0)])%list /\
    turnNumber c1 = S (turnNumber c) /\
    maxTurns c1 = maxTurns c /\
    isComplete c1 = (maxTurns c <=? S (turnNumber c))%nat /\
    lockedPrediction c1 = lockedPrediction c.
Proof.
  intros Hcid Hmsg Hc Hic Hsp.
  destruct (tutor_append s cid msg (clock 0) c Hc Hic)
    as (c1 & Heq & Hm & Ht & Hmx & Hi & Hl & _).
  exists c1. eexists. split.
  - unfold interact. rewrite !missing_Some by assumption.
    cbn [orb field_value]. unfold getConversation. rewrite Hc, Hic, Heq.
    cbn [fst]. rewrite Hsp. reflexivity.
  - auto 10.
Qed.

(** The record after both messages of a turn are in the log, the reply of
    the student being a text or [null]. *)
Lemma both_appended s (cid msg : string) (reply : option string) c clock :
  s !! cid = Some c -> isComplete c = false ->
  exists c1 c2,
    addMessage cid "tutor" (Some msg) (clock 0) s = (<[cid := c1]> s, Some c1) /\
    addMessage cid "student" reply (clock 1) (<[cid := c1]> s) =
      (<[cid := c2]> s, Some c2) /\
    messages c2 = (messages c ++ [mkMessage "tutor" (Some msg) (clock 0);
                                  mkMessage "student" reply (clock 1)])%list /\
    turnNumber c2 = S (turnNumber c) /\
    maxTurns c2 = maxTurns c /\
    isComplete c2 = (maxTurns c <=? S (turnNumber c))%nat /\
    lockedPrediction c2 = lockedPrediction c /\
    student c2 = student c /\ topic c2 = topic c.
Proof.
  intros Hc Hic.
  destruct (tutor_append s cid msg (clock 0) c Hc Hic)
    as (c1 & Heq1 & Hm1 & Ht1 & Hmx1 & Hi1 & Hl1 & Hs1 & Htp1 & _).
  destruct (student_append (<[cid := c1]> s) cid reply (clock 1) c1
              (lookup_insert_eq _ _ _))
    as (c2 & Heq2 & Hm2 & Ht2 & Hmx2 & Hi2 & Hl2 & Hs2 & Htp2 & _).
  rewrite insert_insert_eq in Heq2.
  exists c1, c2.
  split; [assumption|]. split; [assumption|].
  split; [rewrite Hm2, Hm1, <- app_assoc; reflexivity|].
  split; [congruence|]. split; [congruence|].
  split; [rewrite Hi2, Hi1, Hmx1, Ht1; apply orb_diag|].
  split; [congruence|]. split; congruence.
Qed.

(** [/api/interact] when the student completion returns the text [reply]:
    both messages are in the log, and the level is read, computed or left
    unset. *)
Lemma interact_dialogue_returns s (cid msg reply : string) c clock judge sp :
  cid <> "" -> msg <> "" ->
  s !! cid = Some c -> isComplete c = false ->
  buildSystemPrompt (studentId c) (topic c) = Returns (Some sp) ->
  exists c2 call1 prompt,
    messages c2 = (messages c ++ [mkMessage "tutor" (Some msg) (clock 0);
                                  mkMessage "student" (Some reply) (clock 1)])%list /\
    turnNumber c2 = S (turnNumber c) /\
    maxTurns c2 = maxTurns c /\
    isComplete c2 = (maxTurns c <=? S (turnNumber c))%nat /\
    lockedPrediction c2 = lockedPrediction c /\
    is_judge_call call1 = false /\
    interact (Some cid) (Some msg) clock (Returns (Some reply)) judge s =
      let answer := InteractResponse cid reply (turnNumber c2) (isComplete c2) in
      match lockedPrediction c with
      | Some p => mkOutcome (<[cid := c2]> s) [call1] (answer (level p))
      | None =>
          if (5 <=? length (studentMessagesOf c2))%nat then
            let p := {| level := fst (predictedLevel judge);
                        rationale := snd (predictedLevel judge);
                        lockedAtTurn := turnNumber c2; lockedAt := clock 2 |} in
            mkOutcome (<[cid := set_locked p c2]> s)
              [call1; JudgeCompletion prompt]
              (answer (estimatedLevelAfterLock (fst (predictedLevel judge))
                         (snd (predictedLevel judge))))
          else mkOutcome (<[cid := c2]> s) [call1] (answer JsNull)
      end.
Proof.
  intros Hcid Hmsg Hc Hic Hsp.
  destruct (both_appended s cid msg (Some reply) c clock Hc Hic)
    as (c1 & c2 & Heq1 & Heq2 & Hm & Ht & Hmx & Hi & Hl & _).
  exists c2, (StudentCompletion sp (getOpenAIMessages (<[cid := c1]> s) cid)),
    (buildPredictionPrompt (student c2) (topic c2) (conversationMessagesOf c2)).
  do 5 (split; [assumption|]). split; [reflexivity|].
  unfold interact. rewrite !missing_Some by assumption.
  cbn [orb field_value]. unfold getConversation. rewrite Hc, Hic, Heq1.
  cbn [fst]. rewrite Hsp, Heq2.
  unfold getLockedPrediction. rewrite lookup_insert_eq, Hl.
  destruct (lockedPrediction c) as [p|] eqn:Hp; [reflexivity|].
  destruct (5 <=? length (studentMessagesOf c2))%nat; [|reflexivity].
  destruct (predictedLevel judge) as [l r] eqn:Hj. cbn [fst snd].
  rewrite (setLockedPrediction_unset _ cid c2) by
    (rewrite ?lookup_insert_eq; congruence).
  rewrite insert_insert_eq. reflexivity.
Qed.

(** [/api/interact] when the content of the student completion is [null]:
    both messages are in the log, the second without a text, the reply is
    the 500 error and the level is not looked at. *)
Lemma interact_dialogue_null s (cid msg : string) c clock judge sp :
  cid <> "" -> msg <> "" ->
  s !! cid = Some c -> isComplete c = false ->
  buildSystemPrompt (studentId c) (topic c) = Returns (Some sp) ->
  exists c2 call1,
    messages c2 = (messages c ++ [mkMessage "tutor" (Some msg) (clock 0);
                                  mkMessage "student" None (clock 1)])%list /\
    turnNumber c2 = S (turnNumber c) /\
    maxTurns c2 = maxTurns c /\
    isComplete c2 = (maxTurns c <=? S (turnNumber c))%nat /\
    lockedPrediction c2 = lockedPrediction c /\
    is_judge_call call1 = false /\
    interact (Some cid) (Some msg) clock (Returns None) judge s =
      mkOutcome (<[cid := c2]> s) [call1]
        (ErrorResponse 500 "Failed to generate student response").
Proof.
  intros Hcid Hmsg Hc Hic Hsp.
  destruct (both_appended s cid msg None c clock Hc Hic)
    as (c1 & c2 & Heq1 & Heq2 & Hm & Ht & Hmx & Hi & Hl & _).
  exists c2, (StudentCompletion sp (getOpenAIMessages (<[cid := c1]> s) cid)).
  do 5 (split; [assumption|]). split; [reflexivity|].
  unfold interact. rewrite !missing_Some by assumption.
  cbn [orb field_value]. unfold getConversation. rewrite Hc, Hic, Heq1.
  cbn [fst]. rewrite Hsp, Heq2. reflexivity.
Qed.

(** [/api/tutor-response] when the tutor completion returns [content], a
    text or [null]: the level is read, computed or left unset, and the
    answer is the turn, or the 500 error when there is no text. *)
Lemma tutorResponse_dialogue_returns s (cid : string) (content0 : option string)
    c clock judge :
  cid <> "" -> s !! cid = Some c ->
  exists call1 prompt,
    is_judge_call call1 = false /\
    tutorResponse (Some cid) clock (Returns content0) judge s =
      let turn := (turnNumber c + 1)%nat in
      let answer lvl :=
        match content0 with
        | Some text =>
            TutorResponse text turn (turnPhase turn) lvl (maxTurns c <=? turn)%nat
        | None => ErrorResponse 500 "Failed to generate tutor response"
        end in
      match lockedPrediction c with
      | Some p => mkOutcome s [call1] (answer (level p))
      | None =>
          if (6 <=? turn)%nat then
            let p := {| level := fst (predictedLevel judge);
                        rationale := snd (predictedLevel judge);
                        lockedAtTurn := turnNumber c; lockedAt := clock 0 |} in
            mkOutcome (<[cid := set_locked p c]> s)
              [call1; JudgeCompletion prompt]
              (answer (estimatedLevelAfterLock (fst (predictedLevel judge))
                         (snd (predictedLevel judge))))
          else mkOutcome s [call1] (answer JsNull)
      end.
Proof.
  intros Hcid Hc.
  exists (TutorCompletion
            (buildTutorMessages (student c) (topic c) (conversationMessagesOf c)
               (turnNumber c + 1) (maxTurns c))),
    (buildPredictionPrompt (student c) (topic c) (conversationMessagesOf c)).
  split; [reflexivity|].
  unfold tutorResponse. rewrite missing_Some by assumption.
  cbn [field_value]. unfold getConversation, getLockedPrediction. rewrite Hc.
  cbv zeta.
  destruct (lockedPrediction c) as [p|] eqn:Hp; [reflexivity|].
  destruct (6 <=? turnNumber c + 1)%nat; [|reflexivity].
  destruct (predictedLevel judge) as [l r] eqn:Hj. cbn [fst snd].
  rewrite (setLockedPrediction_unset _ cid c) by assumption.
  reflexivity.
Qed.

(** [/api/tutor-response] when the tutor completion throws. *)
Lemma tutorResponse_dialogue_throws s (cid : string) c clock judge :
  cid <> "" -> s !! cid = Some c ->
  exists call1,
    is_judge_call call1 = false /\
    tutorResponse (Some cid) clock Throws judge s =
      mkOutcome s [call1] (ErrorResponse 500 "Failed to generate tutor response").
Proof.
  intros Hcid Hc. eexists. split; [|].
  2: { unfold tutorResponse. rewrite missing_Some by assumption.
       cbn [field_value]. unfold getConversation. rewrite Hc. reflexivity. }
  reflexivity.
Qed.

End HandlerPaths.

(** * The claims about the Level Lock and the guards of the handlers *)

Section HandlerClaims.

Context `{Environment}.

Implicit Types (s : Store) (c : Conversation).

Lemma level_in_range_integer (n : nat) :
  1 <= n <= 5 -> level_in_range (JsNumber (Number_of_nat n)) = Some true.
Proof.
  intros [Hlo Hhi].
  assert (Hn : n = 1 \/ n = 2 \/ n = 3 \/ n = 4 \/ n = 5) by lia.
  destruct Hn as [-> | [-> | [-> | [-> | ->]]]]; reflexivity.
Qed.

Lemma is_1_to_5_value (d : ascii) :
  is_1_to_5 d = true -> 1 <= nat_of_ascii d - 48 <= 5.
Proof.
  unfold is_1_to_5. intros Hd. apply andb_true_iff in Hd as [Hlo Hhi].
  apply Nat.leb_le in Hlo, Hhi. lia.
Qed.

(** The scan returns the first character of the text that is in the class:
    nothing before it is. *)
Lemma match_1_to_5_first (raw : string) (d : ascii) :
  match_1_to_5 raw = Some d ->
  is_1_to_5 d = true /\
  exists before after,
    raw = before +:+ String d after /\ match_1_to_5 before = None.
Proof.
  induction raw as [|a raw IH]; cbn; [discriminate|].
  destruct (is_1_to_5 a) eqn:Ea.
  - intros [= ->]. split; [assumption|]. exists "", raw. split; reflexivity.
  - intros Hd. destruct (IH Hd) as (Hcls & before & after & -> & Hnone).
    split; [assumption|]. exists (String a before), after. cbn.
    rewrite Ea. split; [reflexivity|assumption].
Qed.


(** C2, against the code.  What calls the judge, for every outcome of the
    completion of the turn:
    - on [/api/interact] the tutor message is appended, and the content of
      the student completion after it; the judge is called exactly when
      that content is a text, no locked level exists and the log then holds
      at least 5 student-authored messages.  When the content is [null] the
      message is in the log, and counted, but the handler is in its [catch]
      before it looks at the level;
    - on [/api/tutor-response] the judge is called exactly when the
      completion did not throw, no locked level exists and the upcoming
      turn number [turnNumber + 1] is at least 6.  The student messages are
      not looked at: this is the raw check of the tutor-turn counter that
      the claim rules out. *)
Theorem level_lock_trigger :
  forall s (cid : string) c clock (dialogue judge : Completion),
    cid <> "" -> s !! cid = Some c ->
    (forall msg sp,
       msg <> "" -> isComplete c = false ->
       buildSystemPrompt (studentId c) (topic c) = Returns (Some sp) ->
       let o := interact (Some cid) (Some msg) clock dialogue judge s in
       exists c2,
         store_after o !! cid = Some c2 /\
         messages c2 =
           (messages c ++
            mkMessage "tutor" (Some msg) (clock 0) ::
            match dialogue with
            | Returns reply => [mkMessage "student" reply (clock 1)]
            | Throws => []
            end)%list /\
         (existsb is_judge_call (calls o) = true <->
          (exists text, dialogue = Returns (Some text)) /\
          lockedPrediction c = None /\ 5 <= length (studentMessagesOf c2))) /\
    (let o := tutorResponse (Some cid) clock dialogue judge s in
     existsb is_judge_call (calls o) = true <->
     dialogue <> Throws /\ lockedPrediction c = None /\ 6 <= turnNumber c + 1).
Proof.
  intros s cid c clock dialogue judge Hcid Hc. split.
  - intros msg sp Hmsg Hic Hsp o.
    destruct dialogue as [[reply|]|].
    + destruct (interact_dialogue_returns s cid msg reply c clock judge sp
                  Hcid Hmsg Hc Hic Hsp)
        as (c2 & call1 & prompt & Hm & _ & _ & _ & _ & Hcall & Heq).
      subst o. rewrite Heq. cbv zeta.
      destruct (lockedPrediction c) as [p|] eqn:Hp.
      * exists c2. cbn. rewrite lookup_insert_eq, Hcall.
        split; [reflexivity|]. split; [assumption|].
        split; [discriminate | intros (_ & ? & _); discriminate].
      * destruct (5 <=? length (studentMessagesOf c2))%nat eqn:E.
        -- eexists. cbn. rewrite lookup_insert_eq, Hcall.
           split; [reflexivity|]. split; [exact Hm|].
           apply Nat.leb_le in E. cbn. split; [|reflexivity].
           intros _. split; [eauto|]. split; [reflexivity|assumption].
        -- exists c2. cbn. rewrite lookup_insert_eq, Hcall.
           apply Nat.leb_gt in E.
           split; [reflexivity|]. split; [assumption|].
           split; [discriminate | intros (_ & _ & ?); lia].
    + destruct (interact_dialogue_null s cid msg c clock judge sp
                  Hcid Hmsg Hc Hic Hsp)
        as (c2 & call1 & Hm & _ & _ & _ & _ & Hcall & Heq).
      subst o. rewrite Heq. exists c2. cbn. rewrite lookup_insert_eq, Hcall.
      split; [reflexivity|]. split; [assumption|].
      split; [discriminate | intros ((text & ?) & _); discriminate].
    + destruct (interact_dialogue_throws s cid msg c clock judge sp
                  Hcid Hmsg Hc Hic Hsp)
        as (c1 & call1 & Heq & Hcall & Hm & _).
      subst o. rewrite Heq. exists c1. cbn. rewrite lookup_insert_eq, Hcall.
      split; [reflexivity|]. split; [assumption|].
      split; [discriminate | intros ((text & ?) & _); discriminate].
  - intros o. destruct dialogue as [content0|].
    + destruct (tutorResponse_dialogue_returns s cid content0 c clock judge Hcid Hc)
        as (call1 & prompt & Hcall & Heq).
      subst o. rewrite Heq. cbv zeta.
      destruct (lockedPrediction c) as [p|] eqn:Hp.
      * cbn. rewrite Hcall. split; [discriminate|]. intros (_ & ? & _). discriminate.
      * destruct (6 <=? turnNumber c + 1)%nat eqn:E; cbn; rewrite Hcall; cbn.
        -- apply Nat.leb_le in E. split; [|reflexivity].
           intros _. split; [discriminate|]. split; [reflexivity|assumption].
        -- apply Nat.leb_gt in E. split; [discriminate|]. intros (_ & _ & ?). lia.
    + destruct (tutorResponse_dialogue_throws s cid c clock judge Hcid Hc)
        as (call1 & Hcall & Heq).
      subst o. rewrite Heq. cbn. rewrite Hcall.
      split; [discriminate|]. intros (Hd & _). now destruct Hd.
Qed.

(** C5, as the code has it.  A request that names an unknown session is
    rejected with not-found by [/api/interact] and by
    [/api/tutor-response], and a request to [/api/interact] on a completed
    session is rejected with "Conversation is already complete"; a rejected
    request calls no service and leaves the store as it is.
    [/api/tutor-response] has no guard on the completion flag. *)
Theorem rejected_requests_leave_the_store :
  forall s (cid msg : string) clock (dialogue judge : Completion),
    cid <> "" -> msg <> "" ->
    (s !! cid = None ->
       interact (Some cid) (Some msg) clock dialogue judge s =
         mkOutcome s [] (ErrorResponse 404 "Conversation not found") /\
       tutorResponse (Some cid) clock dialogue judge s =
         mkOutcome s [] (ErrorResponse 404 "Conversation not found")) /\
    (forall c,
       s !! cid = Some c -> isComplete c = true ->
       interact (Some cid) (Some msg) clock dialogue judge s =
         mkOutcome s [] (ErrorResponse 400 "Conversation is already complete")).
Proof.
  intros s cid msg clock dialogue judge Hcid Hmsg. split.
  - intros Hnone. unfold interact, tutorResponse.
    rewrite !missing_Some by assumption. cbn [orb field_value].
    unfold getConversation. rewrite Hnone. split; reflexivity.
  - intros c Hc Hic. unfold interact.
    rewrite !missing_Some by assumption. cbn [orb field_value].
    unfold getConversation. rewrite Hc, Hic. reflexivity.
Qed.

(** C6: what [/api/interact] does when the student completion throws.  The
    caller gets the 500 error "Failed to generate student response", no
    student message is appended and no level is locked, but the tutor
    message of the request, appended before the call, stays in the log: the
    log is one message longer, the turn counter one higher, and the
    completion flag is set when the counter has reached [maxTurns]. *)
Theorem interact_failure_keeps_tutor_message :
  forall s (cid msg : string) c clock (judge : Completion) sp,
    cid <> "" -> msg <> "" ->
    s !! cid = Some c -> isComplete c = false ->
    buildSystemPrompt (studentId c) (topic c) = Returns (Some sp) ->
    let o := interact (Some cid) (Some msg) clock Throws judge s in
    response o = ErrorResponse 500 "Failed to generate student response" /\
    existsb is_judge_call (calls o) = false /\
    exists c1,
      store_after o !! cid = Some c1 /\
      messages c1 = (messages c ++ [mkMessage "tutor" (Some msg) (clock 0)])%list /\
      turnNumber c1 = S (turnNumber c) /\
      isComplete c1 = (maxTurns c <=? S (turnNumber c))%nat /\
      lockedPrediction c1 = lockedPrediction c.
Proof.
  intros s cid msg c clock judge sp Hcid Hmsg Hc Hic Hsp o.
  destruct (interact_dialogue_throws s cid msg c clock judge sp Hcid Hmsg Hc Hic Hsp)
    as (c1 & call1 & Heq & Hcall & Hm & Ht & _ & Hi & Hl).
  subst o. rewrite Heq. cbn. rewrite Hcall.
  split; [reflexivity|]. split; [reflexivity|].
  exists c1. rewrite lookup_insert_eq. auto.
Qed.

(** C8. For every turn number [N >= 1] the phase of the upcoming tutor turn
    is ["diagnostic"] if and only if [N <= 5] and ["tutoring"] otherwise.
    It is a function of the turn number alone: whatever the session and
    its messages, [/api/tutor-response] answers for turn [N] with that
    phase, and [buildTutorMessages] hands that phase to the strategy
    directive. *)
Theorem phase_of_turn :
  forall N : nat,
    1 <= N ->
    (turnPhase N = "diagnostic" <-> N <= 5) /\
    (turnPhase N = "tutoring" <-> 5 < N) /\
    (forall s (cid text : string) c clock (judge : Completion),
       cid <> "" -> s !! cid = Some c -> (turnNumber c + 1)%nat = N ->
       exists lvl last,
         response (tutorResponse (Some cid) clock (Returns (Some text)) judge s) =
         TutorResponse text N (turnPhase N) lvl last) /\
    (forall student0 topic0 (msgs : list ChatMessage) (maxTurns0 : nat),
       buildTutorMessages student0 topic0 msgs N maxTurns0 !! 2%nat =
       Some {| chat_role := "system";
               chat_content :=
                 Some (buildStrategyDirective N maxTurns0 (turnPhase N) topic0 msgs) |}).
Proof.
  intros N HN. unfold turnPhase at 1 2.
  split; [|split; [|split]].
  - destruct (N <=? 5)%nat eqn:E.
    + apply Nat.leb_le in E. tauto.
    + apply Nat.leb_gt in E. split; [discriminate|lia].
  - destruct (N <=? 5)%nat eqn:E.
    + apply Nat.leb_le in E. split; [discriminate|lia].
    + apply Nat.leb_gt in E. tauto.
  - intros s cid text c clock judge Hcid Hc HNc.
    destruct (tutorResponse_dialogue_returns s cid (Some text) c clock judge Hcid Hc)
      as (call1 & prompt & _ & Heq).
    rewrite Heq, HNc. cbv zeta.
    destruct (lockedPrediction c); [|destruct (6 <=? N)%nat]; cbn; eauto.
  - intros student0 topic0 msgs maxTurns0. reflexivity.
Qed.

End HandlerClaims.

(** * The handlers on concrete sessions *)

Section HandlerExamples.

#[local] Existing Instance example_env.

(** The session [conv_u1] after four turns that went through. *)
Lemma four_turns_session :
  exists c,
    interact_n 4 (Returns (Some "I think it moves because of heat")) Throws store1
      !! "conv_u1" = Some c /\
    isComplete c = false /\ lockedPrediction c = None /\
    buildSystemPrompt (studentId c) (topic c) = Returns (Some "") /\
    turnNumber c = 4%nat.
Proof.
  eexists. split; [vm_compute; reflexivity|]. repeat split; reflexivity.
Defined.

(** The session [conv_u1] after five turns whose student completion threw. *)
Lemma five_failed_turns_session :
  exists c,
    interact_n 5 Throws Throws store1 !! "conv_u1" = Some c /\
    lockedPrediction c = None /\
    length (studentMessagesOf c) = 0%nat /\
    turnNumber c = 5%nat.
Proof.
  eexists. split; [vm_compute; reflexivity|]. repeat split; reflexivity.
Defined.



(** The trigger on two sessions.  After four turns that went through, a
    fifth reply calls the judge on [/api/interact], a fifth reply without a
    text does not, and [/api/tutor-response], for turn 5, does not.  After
    five turns whose student completion threw, the log has no student
    message and [/api/tutor-response], for turn 6, calls the judge. *)
Lemma level_lock_trigger_witness :
  let s4 := interact_n 4 (Returns (Some "I think it moves because of heat")) Throws store1 in
  let s5 := interact_n 5 Throws Throws store1 in
  existsb is_judge_call
    (calls (interact (Some "conv_u1") (Some "Why?") clock0 (Returns (Some "It floats"))
              (Returns (Some reply_json)) s4)) = true /\
  existsb is_judge_call
    (calls (interact (Some "conv_u1") (Some "Why?") clock0 (Returns None)
              (Returns (Some reply_json)) s4)) = false /\
  existsb is_judge_call
    (calls (tutorResponse (Some "conv_u1") clock0 (Returns (Some "Why?"))
              (Returns (Some reply_json)) s4)) = false /\
  exists c,
    s5 !! "conv_u1" = Some c /\
    length (studentMessagesOf c) = 0%nat /\
    existsb is_judge_call
      (calls (tutorResponse (Some "conv_u1") clock0 (Returns (Some "Next question"))
                (Returns (Some reply_json)) s5)) = true.
Proof.
  intros s4 s5.
  destruct four_turns_session as (c & Hc & Hic & Hnone & Hsp & Hturn).
  split; [|split; [|split]].
  - destruct (proj1 (level_lock_trigger s4 "conv_u1" c clock0
                       (Returns (Some "It floats")) (Returns (Some reply_json))
                       ltac:(discriminate) Hc)
                "Why?" "" ltac:(discriminate) Hic Hsp)
      as (c2 & Hc2 & Hm & Hiff).
    apply Hiff. split; [eauto|]. split; [exact Hnone|].
    unfold studentMessagesOf. rewrite Hm.
    vm_compute in Hc. injection Hc as <-. vm_compute. lia.
  - destruct (proj1 (level_lock_trigger s4 "conv_u1" c clock0
                       (Returns None) (Returns (Some reply_json))
                       ltac:(discriminate) Hc)
                "Why?" "" ltac:(discriminate) Hic Hsp)
      as (c2 & Hc2 & Hm & Hiff).
    apply not_true_is_false. intros E.
    apply Hiff in E as ((text & E) & _). discriminate E.
  - destruct (existsb is_judge_call _) eqn:E; [|reflexivity].
    apply (proj2 (level_lock_trigger s4 "conv_u1" c clock0
                    (Returns (Some "Why?")) (Returns (Some reply_json))
                    ltac:(discriminate) Hc)) in E as (_ & _ & E).
    rewrite Hturn in E. lia.
  - destruct five_failed_turns_session as (c5 & Hc5 & Hnone5 & Hlen5 & Hturn5).
    exists c5. split; [exact Hc5|]. split; [exact Hlen5|].
    apply (proj2 (level_lock_trigger s5 "conv_u1" c5 clock0
                    (Returns (Some "Next question")) (Returns (Some reply_json))
                    ltac:(discriminate) Hc5)).
    split; [discriminate|]. split; [exact Hnone5|]. rewrite Hturn5. lia.
Defined.

(** The failing inputs of C2.  After five requests to [/api/interact] whose
    student completion threw, the session has five tutor messages and no
    student message; the next [/api/tutor-response] is for turn 6 and calls
    the judge.  And after four turns that went through, a fifth student
    completion whose content is [null] leaves five student-authored
    messages in the log and no locked level, and the judge is not called. *)
Lemma tutorResponse_judges_without_student_messages :
  let s5 := interact_n 5 Throws Throws store1 in
  let o := tutorResponse (Some "conv_u1") clock0 (Returns (Some "Next question"))
             (Returns (Some reply_json)) s5 in
  let s4 := interact_n 4 (Returns (Some "I think it moves because of heat")) Throws store1 in
  let o' := interact (Some "conv_u1") (Some "Why?") clock0 (Returns None)
              (Returns (Some reply_json)) s4 in
  (exists c,
     s5 !! "conv_u1" = Some c /\
     lockedPrediction c = None /\
     length (studentMessagesOf c) = 0%nat /\
     turnNumber c = 5%nat /\
     existsb is_judge_call (calls o) = true /\
     ~ (existsb is_judge_call (calls o) = true <->
        lockedPrediction c = None /\ 5 <= length (studentMessagesOf c))) /\
  (exists c',
     store_after o' !! "conv_u1" = Some c' /\
     lockedPrediction c' = None /\
     length (studentMessagesOf c') = 5%nat /\
     existsb is_judge_call (calls o') = false /\
     response o' = ErrorResponse 500 "Failed to generate student response").
Proof.
  cbv zeta. split.
  - eexists. split; [vm_compute; reflexivity|].
    split; [reflexivity|]. split; [reflexivity|]. split; [reflexivity|].
    split; [vm_compute; reflexivity|].
    intros [Hto _].
    assert (Hcalled : existsb is_judge_call
              (calls (tutorResponse (Some "conv_u1") clock0 (Returns (Some "Next question"))
                        (Returns (Some reply_json))
                        (interact_n 5 Throws Throws store1))) = true)
      by (vm_compute; reflexivity).
    apply Hto in Hcalled as [_ Hlen]. vm_compute in Hlen. lia.
  - eexists. split; [vm_compute; reflexivity|].
    split; [reflexivity|]. split; [reflexivity|].
    split; vm_compute; reflexivity.
Qed.

Lemma rejected_requests_leave_the_store_witness :
  let s10 := interact_n 10 (Returns (Some "I think it moves because of heat")) Throws store1 in
  interact (Some "conv_u1") (Some "One more?") clock0 (Returns (Some "Yes")) Throws s10 =
    mkOutcome s10 [] (ErrorResponse 400 "Conversation is already complete") /\
  tutorResponse (Some "conv_missing") clock0 (Returns (Some "Hello")) Throws s10 =
    mkOutcome s10 [] (ErrorResponse 404 "Conversation not found").
Proof.
  intros s10.
  assert (Hc : exists c, s10 !! "conv_u1" = Some c /\ isComplete c = true).
  { eexists. split; [vm_compute; reflexivity|reflexivity]. }
  destruct Hc as (c & Hc & Hic). split.
  - exact (proj2 (rejected_requests_leave_the_store s10 "conv_u1" "One more?" clock0
                    (Returns (Some "Yes")) Throws ltac:(discriminate) ltac:(discriminate))
             c Hc Hic).
  - refine (proj2 (proj1 (rejected_requests_leave_the_store s10 "conv_missing" "x" clock0
                    (Returns (Some "Hello")) Throws ltac:(discriminate) ltac:(discriminate)) _)).
    vm_compute. reflexivity.
Defined.

(** C5 as stated fails on [/api/tutor-response].  On a completed session
    (turn counter 10 of 10) it answers with a tutor message for turn 11;
    and when the session has no locked level yet, as after ten requests to
    [/api/interact] whose student completion threw, it locks one. *)
Lemma tutorResponse_proceeds_on_completed_session :
  let s10 := interact_n 10 (Returns (Some "I think it moves because of heat")) Throws store1 in
  let t10 := interact_n 10 Throws Throws store1 in
  isConversationComplete s10 "conv_u1" = true /\
  response (tutorResponse (Some "conv_u1") clock0 (Returns (Some "One more question")) Throws s10) =
    TutorResponse "One more question" 11 "tutoring" (JsNumber 3%float) true /\
  isConversationComplete t10 "conv_u1" = true /\
  getLockedPrediction t10 "conv_u1" = None /\
  getLockedPrediction
    (store_after (tutorResponse (Some "conv_u1") clock0
                    (Returns (Some "One more question")) Throws t10))
    "conv_u1" =
    Some {| level := JsNumber 3%float; rationale := JsString "Default (prediction failed)";
            lockedAtTurn := 10; lockedAt := clock0 0 |}.
Proof.
  cbv zeta. repeat split; vm_compute; reflexivity.
Qed.

Lemma interact_failure_keeps_tutor_message_witness :
  let o := interact (Some "conv_u1") (Some "What is a plate?") clock0 Throws Throws store1 in
  store1 !! "conv_u1" = Some conv1 /\
  messages conv1 = [] /\ turnNumber conv1 = 0%nat /\
  response o = ErrorResponse 500 "Failed to generate student response" /\
  exists c1,
    store_after o !! "conv_u1" = Some c1 /\
    messages c1 = [mkMessage "tutor" (Some "What is a plate?") (clock0 0)] /\
    turnNumber c1 = 1%nat.
Proof.
  intros o.
  assert (Hc1 : store1 !! "conv_u1" = Some conv1) by (vm_compute; reflexivity).
  split; [exact Hc1|]. split; [reflexivity|]. split; [reflexivity|].
  destruct (interact_failure_keeps_tutor_message store1 "conv_u1" "What is a plate?"
              conv1 clock0 Throws "" ltac:(discriminate) ltac:(discriminate) Hc1
              eq_refl eq_refl)
    as (Hresp & _ & c1 & Hc & Hm & Ht & _).
  split; [exact Hresp|]. exists c1. split; [exact Hc|]. split; assumption.
Defined.

Lemma phase_of_turn_witness :
  turnPhase 5 = "diagnostic" /\ turnPhase 6 = "tutoring".
Proof.
  split.
  - apply (proj1 (phase_of_turn 5 ltac:(lia))). lia.
  - apply (proj1 (proj2 (phase_of_turn 6 ltac:(lia)))). lia.
Defined.

End HandlerExamples.

(** * The string tests against what they test *)

Section StringTests.

Import StrategySpec.

Lemma startsWith_spec (m : string) : forall text : string,
  startsWith text m = true <-> exists after, text = m +:+ after.
Proof.
  induction m as [|a m IH]; intros [|b text]; cbn.
  - split; [intros _; exists ""; reflexivity | reflexivity].
  - split; [intros _; eexists; reflexivity | reflexivity].
  - split; [discriminate | intros (after & Heq); discriminate].
  - rewrite andb_true_iff, IH. split.
    + intros (Hab & after & ->). apply Ascii.eqb_eq in Hab as ->. eauto.
    + intros (after & [= -> ->]). split; [apply Ascii.eqb_refl | eauto].
Qed.

(** [includes] finds the marker exactly when the text is made of
    something, the marker, and something. *)
Lemma includes_spec (m : string) : forall text : string,
  includes text m = true <-> occurs_in m text.
Proof.
  unfold occurs_in. induction text as [|c text IH]; cbn [includes].
  - rewrite orb_false_r, startsWith_spec. split.
    + intros (after & Heq). exists "", after. exact Heq.
    + intros (before & after & Heq).
      destruct before; cbn in Heq; [eauto | discriminate].
  - rewrite orb_true_iff, startsWith_spec, IH. split.
    + intros [(after & Heq) | (before & after & Heq)].
      * exists "", after. exact Heq.
      * exists (String c before), after. cbn. now rewrite Heq.
    + intros (before & after & Heq). destruct before as [|b before]; cbn in Heq.
      * left. eauto.
      * right. injection Heq as -> ->. eauto.
Qed.

Lemma some_includes_spec (markers : list string) (text : string) :
  some_includes markers text = true <->
  exists marker, In marker markers /\ occurs_in marker text.
Proof.
  unfold some_includes. rewrite existsb_exists.
  split; intros (marker & Hin & Hm); exists marker; split; try assumption;
    now apply includes_spec.
Qed.

Lemma is_digit_spec (c : ascii) : is_digit c = true <-> decimal_digit c.
Proof.
  unfold is_digit, decimal_digit. split.
  - intros Hc. apply andb_true_iff in Hc as [Hlo Hhi].
    apply Nat.leb_le in Hlo, Hhi.
    rewrite <- (ascii_nat_embedding c).
    assert (Hn : exists k, nat_of_ascii c = 48 + k /\ k <= 9)
      by (exists (nat_of_ascii c - 48); lia).
    destruct Hn as (k & -> & Hk).
    do 10 (destruct k as [|k]; [cbn; tauto|]). lia.
  - cbn. intros Hc.
    repeat (destruct Hc as [<- | Hc]; [reflexivity|]). destruct Hc.
Qed.

Lemma test_digit_spec (text : string) : test_digit text = true <-> has_digit text.
Proof.
  unfold has_digit. induction text as [|c text IH]; cbn [test_digit].
  - split; [discriminate|]. intros (before & d & after & Heq & _).
    destruct before; discriminate.
  - rewrite orb_true_iff, is_digit_spec, IH. split.
    + intros [Hc | (before & d & after & -> & Hd)].
      * exists "", c, text. split; [reflexivity|assumption].
      * exists (String c before), d, after. split; [reflexivity|assumption].
    + intros (before & d & after & Heq & Hd). destruct before as [|b before]; cbn in Heq.
      * injection Heq as -> ->. now left.
      * injection Heq as -> ->. right. eauto.
Qed.

Lemma bool_iff_eq (a b : bool) : (a = true <-> b = true) -> a = b.
Proof. destruct a, b; intuition congruence. Qed.

End StringTests.

(** * The relations of the specification are decided by their evaluation *)

Section StrategyDecided.

Context `{Environment}.

Import StrategySpec StrategyEvaluation.

Implicit Types (M : MarkerSets) (msgs : list ChatMessage).

Lemma matches_decided (markers : list string) (text : string) :
  some_includes markers (toLowerCase text) = true <-> matches markers text.
Proof. apply some_includes_spec. Qed.

Lemma shows_decided M (sig : Signal) (text : string) :
  shows_b M sig text = true <-> shows M sig text.
Proof.
  destruct sig; cbn [shows_b shows];
    [apply matches_decided .. | apply test_digit_spec].
Qed.

Lemma message_score_decided M (text : string) (score : Z) :
  message_score M text score <-> score = tally M text.
Proof.
  unfold message_score, tally. split.
  - intros (shown & Hshown & ->). f_equal. apply map_ext. intros sig.
    rewrite (bool_iff_eq (shown sig) (shows_b M sig text)); [reflexivity|].
    rewrite Hshown. symmetry. apply shows_decided.
  - intros ->. exists (fun sig => shows_b M sig text).
    split; [intros sig; apply shows_decided | reflexivity].
Qed.

Lemma scores_decided M (window : list ChatMessage) (scores : list Z) :
  Forall2 (fun m score => message_score M (text_of m) score) window scores <->
  scores = map (fun m => tally M (text_of m)) window.
Proof.
  split.
  - induction 1 as [|m score window scores Hm _ IH]; [reflexivity|].
    apply message_score_decided in Hm. cbn. now rewrite Hm, IH.
  - intros ->. induction window as [|m window IH]; constructor; [|exact IH].
    now apply message_score_decided.
Qed.

Lemma window_score_decided M msgs (total : Z) :
  window_score M msgs total <-> total = window_tally M msgs.
Proof.
  unfold window_score, window_tally. split.
  - intros (scores & Hscores & ->). apply scores_decided in Hscores. now subst.
  - intros ->. eexists. split; [apply scores_decided|]; reflexivity.
Qed.

Lemma heuristic_level_decided M msgs (level0 : nat) :
  heuristic_level M msgs level0 <-> level0 = level_b M msgs.
Proof.
  unfold heuristic_level, level_b. split.
  - intros (total & Htotal & ->). apply window_score_decided in Htotal. now subst.
  - intros ->. eexists. split; [apply window_score_decided|]; reflexivity.
Qed.

Lemma confused_decided M msgs : confused_b M msgs = true <-> confused M msgs.
Proof.
  unfold confused_b, confused. destruct (most_recent_student msgs) as [m|].
  - rewrite matches_decided. split.
    + intros Hm. exists m. auto.
    + intros (m' & [= <-] & Hm). exact Hm.
  - split; [discriminate|]. intros (m & Hm & _). discriminate.
Qed.

Lemma branch_decided (phase : Phase) (isConfused0 : Prop) (isConfused_b : bool)
    (level0 : nat) (b : Branch) :
  (isConfused_b = true <-> isConfused0) ->
  branch_of phase isConfused0 level0 b <-> b = branch_b phase isConfused_b level0.
Proof.
  intros Hc. unfold branch_of, branch_b.
  destruct isConfused_b.
  - assert (HP : isConfused0) by now apply Hc.
    destruct phase; tauto.
  - assert (HP : ~ isConfused0) by (intros HP; apply Hc in HP; discriminate).
    destruct phase; [tauto|].
    destruct (4 <=? level0)%nat eqn:E.
    + apply Nat.leb_le in E. assert (~ level0 < 4) by lia. tauto.
    + apply Nat.leb_gt in E. assert (~ 4 <= level0) by lia. tauto.
Qed.

Lemma directive_decided M (turn maxTurns0 : nat) (phase : string) (topic0 : Topic) msgs
    (d : string) :
  directive M turn maxTurns0 phase topic0 msgs d <->
  d = directive_b M turn maxTurns0 phase topic0 msgs.
Proof.
  unfold directive, directive_b. destruct (turn =? 1)%nat; [reflexivity|]. split.
  - intros (level0 & b & Hl & Hb & ->).
    apply heuristic_level_decided in Hl. subst level0.
    apply (branch_decided _ _ (confused_b M msgs)) in Hb; [|apply confused_decided].
    now subst b.
  - intros ->. eexists _, _. split; [apply heuristic_level_decided; reflexivity|].
    split; [|reflexivity].
    apply (branch_decided _ _ (confused_b M msgs)); [apply confused_decided|reflexivity].
Qed.

End StrategyDecided.

(** * The Strategy Selector against its specification *)

Section StrategyClaims.

Context `{Environment}.

Import StrategySpec StrategyEvaluation.

Lemma or_empty_text_of (m : ChatMessage) : or_empty (chat_content m) = text_of m.
Proof. unfold text_of. now destruct (chat_content m). Qed.

Lemma student_filter (l : list ChatMessage) :
  filter (fun m => is_student m = true) l = student_messages l.
Proof.
  unfold student_messages. apply list_filter_iff. intros m.
  unfold is_student. apply eqb_string_true.
Qed.

Lemma score_message_adds (score : Z) (msg : ChatMessage) :
  score_message score msg = (score + tally implemented_markers (text_of msg))%Z.
Proof.
  unfold score_message, tally, shows_b, all_signals.
  rewrite toLowerCase_digit, or_empty_text_of.
  cbn [map sumZ foldr weight implemented_markers confusion_markers hedging_markers
       reasoning_markers self_correction_markers].
  set (text := toLowerCase (text_of msg)).
  assert (Hsc : some_includes ["wait"; "actually"] text =
                includes text "wait" || includes text "actually")
    by (cbn; now rewrite orb_false_r).
  rewrite Hsc. clear Hsc. unfold hedgeMarkers, reasonMarkers, confusion_set.
  fold CONFUSION_MARKERS.
  destruct (some_includes CONFUSION_MARKERS text),
    (some_includes _ text), (some_includes _ text),
    (includes text "wait" || includes text "actually"),
    (test_digit (text_of msg)); lia.
Qed.

(** The loop over the window computes the sum of the scores. *)
Lemma fold_left_score (l : list ChatMessage) : forall score : Z,
  fold_left score_message l score =
  (score + sumZ (map (fun m => tally implemented_markers (text_of m)) l))%Z.
Proof.
  induction l as [|m l IH]; intros score; cbn [fold_left map sumZ foldr].
  - lia.
  - rewrite IH, score_message_adds.
    fold (sumZ (map (fun m => tally implemented_markers (text_of m)) l)).
    lia.
Qed.

(** [slice(-3)] keeps the last three elements. *)
Lemma slice_last3_last_three {A : Type} (l : list A) : slice_last3 l = last_three l.
Proof.
  unfold slice_last3, last_three. rewrite List.firstn_rev. apply eq_sym, rev_involutive.
Qed.

Lemma find_snoc {A : Type} (f : A -> bool) (l : list A) (a : A) :
  find f (l ++ [a]) =
  match find f l with
  | Some x => Some x
  | None => if f a then Some a else None
  end.
Proof.
  induction l as [|b l IH]; cbn; [reflexivity|].
  destruct (f b); [reflexivity|apply IH].
Qed.

(** The first student message of the reversed history is the last student
    message of the history. *)
Lemma find_rev_last (l : list ChatMessage) :
  find is_student (rev l) = last (filter (fun m => is_student m = true) l).
Proof.
  induction l as [|a l IH]; [reflexivity|].
  cbn [rev]. rewrite find_snoc, IH.
  destruct (is_student a) eqn:Ea.
  - rewrite filter_cons_True by assumption. now rewrite last_cons.
  - rewrite filter_cons_False by congruence. now destruct (last _).
Qed.

Lemma isConfused_evaluated (msgs : list ChatMessage) :
  isConfused msgs = confused_b implemented_markers msgs.
Proof.
  unfold isConfused, lastStudentText, confused_b, most_recent_student.
  rewrite find_rev_last, student_filter.
  destruct (last _) as [m|]; [now rewrite or_empty_text_of|].
  now rewrite toLowerCase_empty.
Qed.

Lemma quickEstimateForStrategy_evaluated (msgs : list ChatMessage) :
  quickEstimateForStrategy msgs = level_b implemented_markers msgs.
Proof.
  unfold quickEstimateForStrategy, level_b, window_tally, bucket.
  now rewrite fold_left_score, slice_last3_last_three, student_filter, Z.add_0_l.
Qed.

Lemma buildStrategyDirective_evaluated (turn maxTurns0 : nat) (phase : string)
    (topic0 : Topic) (msgs : list ChatMessage) :
  buildStrategyDirective turn maxTurns0 phase topic0 msgs =
  directive_b implemented_markers turn maxTurns0 phase topic0 msgs.
Proof.
  unfold buildStrategyDirective, directive_b, render, branch_b, phase_of_string.
  rewrite isConfused_evaluated, quickEstimateForStrategy_evaluated.
  destruct (turn =? 1)%nat; [reflexivity|].
  destruct (String.eqb phase "diagnostic"), (confused_b implemented_markers msgs);
    try reflexivity.
  destruct (4 <=? level_b implemented_markers msgs)%nat; reflexivity.
Qed.

Lemma bucket_range (total : Z) : 1 <= bucket total <= 5.
Proof.
  unfold bucket.
  destruct (total <=? -3)%Z, (total <=? -1)%Z, (total <=? 1)%Z, (total <=? 3)%Z; lia.
Qed.

(** C7, with the markers of the code.  [buildStrategyDirective] computes
    the directive of the algorithm of section 4.3 read with the sets of
    markers of [quickEstimateForStrategy]: hedging "maybe", "i think",
    "i guess", "not sure", "unsure"; reasoning "because", "so that",
    "therefore", "since", "so", "means", "reason".  For every turn number
    and history:
    - the text it returns is the one directive the algorithm allows;
    - for turn 1 it is the fixed opening directive, whatever the phase, the
      topic and the history;
    - [isConfused] holds exactly when a confusion marker occurs in the
      lower-cased text of the most recent student message;
    - the estimated level is the one level the algorithm allows: the bucket
      (<= -3: 1, <= -1: 2, <= 1: 3, <= 3: 4, else 5) of the sum, over the
      last three student messages, of the weights of the signals each shows
      (confusion -2, hedging -1, reasoning +1, self-correction +1,
      digit +1); it is between 1 and 5;
    - with no student message in the history the selector is not confused
      and the level is 3. *)
Theorem buildStrategyDirective_spec :
  forall (turn maxTurns0 : nat) (phase : string) (topic0 : Topic) (msgs : list ChatMessage),
    (forall d,
       directive implemented_markers turn maxTurns0 phase topic0 msgs d <->
       d = buildStrategyDirective turn maxTurns0 phase topic0 msgs) /\
    (turn = 1%nat ->
       forall (phase' : string) (topic' : Topic) (msgs' : list ChatMessage),
         buildStrategyDirective turn maxTurns0 phase' topic' msgs' = OPENING_DIRECTIVE) /\
    (isConfused msgs = true <-> confused implemented_markers msgs) /\
    (forall level0,
       heuristic_level implemented_markers msgs level0 <->
       level0 = quickEstimateForStrategy msgs) /\
    1 <= quickEstimateForStrategy msgs <= 5 /\
    (student_messages msgs = [] ->
       isConfused msgs = false /\ quickEstimateForStrategy msgs = 3%nat).
Proof.
  intros turn maxTurns0 phase topic0 msgs.
  split; [|split; [|split; [|split; [|split]]]].
  - intros d. rewrite buildStrategyDirective_evaluated. apply directive_decided.
  - intros -> phase' topic' msgs'. reflexivity.
  - rewrite isConfused_evaluated. apply confused_decided.
  - intros level0. rewrite quickEstimateForStrategy_evaluated.
    apply heuristic_level_decided.
  - rewrite quickEstimateForStrategy_evaluated. apply bucket_range.
  - intros Hnone. rewrite isConfused_evaluated, quickEstimateForStrategy_evaluated.
    unfold confused_b, most_recent_student, level_b, window_tally.
    rewrite Hnone. split; reflexivity.
Qed.

End StrategyClaims.

(** * The Strategy Selector on concrete histories *)

Section StrategyExamples.

#[local] Existing Instance example_env.

Import StrategySpec StrategyEvaluation.

Example confused_student_in_tutoring :
  let history := [mkChat "tutor" (Some "Why do plates move?");
                  mkChat "student" (Some "I don't understand this at all")] in
  isConfused history = true /\
  buildStrategyDirective 6 10 "tutoring" tectonics history =
    "Adaptive strategy: turn=6/10, phase=tutoring, topic=Plate Tectonics, estimated_level=2. Start by resolving the confusion from the last turn in 2-3 sentences, then ask ONE focused check question. Avoid long lectures and always respond to the last student message.".
Proof. split; reflexivity. Qed.

Example five_reasoned_answers :
  let answer := mkChat "student" (Some "It moves BECAUSE the mantle flows") in
  let question := mkChat "tutor" (Some "Why?") in
  quickEstimateForStrategy
    [question; answer; question; answer; question; answer; question; answer;
     question; answer] = 4%nat.
Proof. reflexivity. Qed.

Example only_the_last_three_count :
  quickEstimateForStrategy
    [mkChat "student" (Some "idk"); mkChat "student" (Some "no idea");
     mkChat "student" (Some "since 2 plates collide"); mkChat "student" (Some "wait, 3 of them");
     mkChat "student" (Some "therefore 4")] = 5%nat.
Proof. reflexivity. Qed.

(** A student message without a text counts as the empty text. *)
Example message_without_text :
  let history := [mkChat "student" (Some "because 2 and 2 is 4");
                  mkChat "student" None] in
  isConfused history = false /\ quickEstimateForStrategy history = 4%nat.
Proof. split; reflexivity. Qed.

(** C7 as stated fails.  Section 4.3 gives three hedging markers and three
    reasoning markers; the code has five and seven.  "also 5 apples" has a
    digit and none of the markers of section 4.3, which makes level 3 and,
    in the tutoring phase, the branch of a practice question; the code
    finds its marker "so" in "also", estimates level 4 and asks a transfer
    question: its directive is not the one of section 4.3. *)
Lemma extra_markers_change_the_directive :
  let history := [mkChat "student" (Some "also 5 apples")] in
  heuristic_level specified_markers history 3 /\
  quickEstimateForStrategy history = 4%nat /\
  directive specified_markers 6 10 "tutoring" tectonics history
    "Adaptive strategy: turn=6/10, phase=tutoring, topic=Plate Tectonics, estimated_level=3. Give a concise explanation, then ask ONE practice question plus a short reason. Avoid long lectures and always respond to the last student message." /\
  buildStrategyDirective 6 10 "tutoring" tectonics history =
    "Adaptive strategy: turn=6/10, phase=tutoring, topic=Plate Tectonics, estimated_level=4. Ask a transfer or 'why' question to probe depth. Require a 1-sentence justification. Avoid long lectures and always respond to the last student message." /\
  ~ directive specified_markers 6 10 "tutoring" tectonics history
      (buildStrategyDirective 6 10 "tutoring" tectonics history).
Proof.
  cbv zeta. split; [|split; [|split; [|split]]].
  - apply heuristic_level_decided. reflexivity.
  - reflexivity.
  - apply directive_decided. reflexivity.
  - reflexivity.
  - intros Hd. apply directive_decided in Hd. vm_compute in Hd. discriminate Hd.
Qed.

Lemma buildStrategyDirective_spec_witness :
  buildStrategyDirective 1 10 "diagnostic" tectonics
    [mkChat "student" (Some "I don't know")] = OPENING_DIRECTIVE /\
  isConfused [mkChat "tutor" (Some "What is a plate?");
              mkChat "student" (Some "IDK, sorry")] = true /\
  heuristic_level implemented_markers
    [mkChat "student" (Some "also 5 apples")] 4 /\
  isConfused [mkChat "tutor" (Some "What is a plate?")] = false /\
  quickEstimateForStrategy [mkChat "tutor" (Some "What is a plate?")] = 3%nat.
Proof.
  split; [|split; [|split]].
  - exact (proj1 (proj2 (buildStrategyDirective_spec 1 10 "diagnostic" tectonics []))
             eq_refl "diagnostic" tectonics [mkChat "student" (Some "I don't know")]).
  - apply (proj1 (proj2 (proj2 (buildStrategyDirective_spec 2 10 "diagnostic" tectonics
                                  [mkChat "tutor" (Some "What is a plate?");
                                   mkChat "student" (Some "IDK, sorry")])))).
    exists (mkChat "student" (Some "IDK, sorry")). split; [reflexivity|].
    exists "idk". split; [cbn; tauto|].
    exists "", ", sorry". reflexivity.
  - apply (proj1 (proj2 (proj2 (proj2 (buildStrategyDirective_spec 2 10 "diagnostic"
                                         tectonics
                                         [mkChat "student" (Some "also 5 apples")]))))).
    reflexivity.
  - refine (proj2 (proj2 (proj2 (proj2 (proj2
             (buildStrategyDirective_spec 2 10 "diagnostic" tectonics
                [mkChat "tutor" (Some "What is a plate?")]))))) _).
    reflexivity.
Defined.

End StrategyExamples.

(** * More of the session store *)

Section StoreExtras.

Implicit Types (s : Store) (c : Conversation) (op : StoreOp) (ops : list StoreOp).

Lemma appended_spec s (id r : string) (ct : option string) (now : string) c :
  s !! id = Some c ->
  addMessage id r ct now s = (<[id := appended r ct now c]> s, Some (appended r ct now c)).
Proof. intros Hc. unfold addMessage, appended. now rewrite Hc. Qed.

(** The record of a conversation after one operation, exactly. *)
Lemma apply_op_session_after op s (id : string) c :
  s !! id = Some c -> fresh_op op s -> is_delete_of id op = false ->
  apply_op op s !! id = Some (session_after id op c).
Proof.
  intros Hc Hfresh Hdel.
  destruct op as [uuid now sid tid st tp | cid r ct now | cid | cid l r now | cid];
    cbn [apply_op fresh_op is_delete_of session_after] in *.
  - cbn. rewrite lookup_insert_ne; [assumption|].
    intros E. rewrite <- E in Hc. congruence.
  - destruct (String.eqb cid id) eqn:E.
    + apply eqb_string_true in E. subst cid.
      rewrite (appended_spec s id r ct now c Hc). cbn. apply lookup_insert_eq.
    + apply eqb_string_false in E. unfold addMessage.
      destruct (s !! cid); cbn; [|assumption]. now rewrite lookup_insert_ne.
  - unfold endConversation. destruct (String.eqb cid id) eqn:E.
    + apply eqb_string_true in E. subst cid. rewrite Hc. cbn. apply lookup_insert_eq.
    + apply eqb_string_false in E.
      destruct (s !! cid); cbn; [|assumption]. now rewrite lookup_insert_ne.
  - unfold setLockedPrediction. destruct (String.eqb cid id) eqn:E.
    + apply eqb_string_true in E. subst cid. rewrite Hc.
      destruct (lockedPrediction c); cbn; [assumption|apply lookup_insert_eq].
    + apply eqb_string_false in E.
      destruct (s !! cid) as [c0|]; cbn; [|assumption].
      destruct (lockedPrediction c0); cbn; [assumption|]. now rewrite lookup_insert_ne.
  - apply eqb_string_false in Hdel. cbn. now rewrite lookup_delete_ne.
Qed.

(** X1. [createConversation] with an id that is not in use: the handle it
    returns names the key ["conv_" + uuid] with [max_turns] 10; the store
    holds, under that key, a record with an empty log, turn number 0, not
    complete, no locked level and the student and topic given; every other
    conversation keeps its record, and the store has one entry more. *)
Theorem createConversation_fresh :
  forall s (uuid now sid tid : string) (st : Student) (tp : Topic),
    s !! ("conv_" +:+ uuid) = None ->
    let s' := fst (createConversation uuid now sid tid st tp s) in
    let handle := snd (createConversation uuid now sid tid st tp s) in
    conversation_id handle = "conv_" +:+ uuid /\
    student_id handle = sid /\ topic_id handle = tid /\ max_turns handle = 10%nat /\
    (exists c,
       getConversation s' (conversation_id handle) = Some c /\
       messages c = [] /\ turnNumber c = 0%nat /\ maxTurns c = 10%nat /\
       isComplete c = false /\ lockedPrediction c = None /\
       studentId c = sid /\ topicId c = tid /\ student c = st /\ topic c = tp) /\
    (forall (id : string) c0, s !! id = Some c0 -> s' !! id = Some c0) /\
    size s' = S (size s).
Proof.
  intros s uuid now sid tid st tp Hfresh s' handle. subst s' handle.
  unfold createConversation, getConversation. cbn [fst snd conversation_id
    student_id topic_id max_turns].
  repeat split.
  - eexists. split; [apply lookup_insert_eq|]. repeat split.
  - intros id c0 Hc0. rewrite lookup_insert_ne; [assumption|].
    intros E. rewrite <- E in Hc0. congruence.
  - now apply map_size_insert_None.
Qed.

Lemma createConversation_fresh_witness :
  exists c,
    getConversation (fst (createConversation "u9" (clock0 0) lena_id "t3" lena fractions store1))
      "conv_u9" = Some c /\
    turnNumber c = 0%nat /\
    size (fst (createConversation "u9" (clock0 0) lena_id "t3" lena fractions store1)) = 2%nat.
Proof.
  assert (Hfresh : store1 !! ("conv_" +:+ "u9") = None) by (vm_compute; reflexivity).
  destruct (createConversation_fresh store1 "u9" (clock0 0) lena_id "t3" lena fractions Hfresh)
    as (_ & _ & _ & _ & (c & Hc & _ & Ht & _) & _ & Hsize).
  exists c. split; [exact Hc|]. split; [exact Ht|]. rewrite Hsize. vm_compute. reflexivity.
Defined.

(** X2. Every operation of the store on an id that has no conversation
    returns its "nothing" value and leaves the store as it is: [addMessage]
    and [setLockedPrediction] return [null], [endConversation] returns
    [undefined], [getOpenAIMessages] the empty list, [getLockedPrediction]
    [null], and [deleteConversation] [false]. *)
Theorem operations_on_unknown_conversation :
  forall s (id : string),
    getConversation s id = None ->
    (forall r ct now, addMessage id r ct now s = (s, None)) /\
    endConversation id s = (s, None) /\
    (forall (l r : JsValue) now, setLockedPrediction id l r now s = (s, None)) /\
    getOpenAIMessages s id = [] /\
    getLockedPrediction s id = None /\
    deleteConversation id s = (s, false).
Proof.
  intros s id Hnone. unfold getConversation in Hnone.
  unfold addMessage, endConversation, setLockedPrediction, getOpenAIMessages,
    getLockedPrediction, deleteConversation.
  rewrite Hnone, (delete_id _ _ Hnone). repeat split.
Qed.

Lemma operations_on_unknown_conversation_witness :
  addMessage "conv_missing" "tutor" (Some "Hello?") (clock0 0) store1 = (store1, None) /\
  deleteConversation "conv_missing" store1 = (store1, false).
Proof.
  assert (Hnone : getConversation store1 "conv_missing" = None) by (vm_compute; reflexivity).
  destruct (operations_on_unknown_conversation store1 "conv_missing" Hnone)
    as (Hadd & _ & _ & _ & _ & Hdel).
  split; [apply Hadd|exact Hdel].
Defined.

Lemma apply_op_other op s (id : string) :
  target op <> id -> apply_op op s !! id = s !! id.
Proof.
  intros Hne.
  destruct op as [uuid now sid tid st tp | cid r ct now | cid | cid l r now | cid];
    cbn [target apply_op] in *.
  - cbn. now rewrite lookup_insert_ne.
  - unfold addMessage. destruct (s !! cid); cbn; [|reflexivity].
    now rewrite lookup_insert_ne.
  - unfold endConversation. destruct (s !! cid); cbn; [|reflexivity].
    now rewrite lookup_insert_ne.
  - unfold setLockedPrediction. destruct (s !! cid) as [c0|]; cbn; [|reflexivity].
    destruct (lockedPrediction c0); cbn; [reflexivity|]. now rewrite lookup_insert_ne.
  - cbn. now rewrite lookup_delete_ne.
Qed.

(** X3. Conversations do not interfere: a sequence of operations none of
    which is addressed to a conversation (creations, appends, ends, locks
    and deletions of other ids) leaves the record of that conversation, or
    its absence, exactly as it was. *)
Theorem other_conversations_untouched :
  forall ops s (id : string),
    Forall (fun op => target op <> id) ops ->
    run_ops ops s !! id = s !! id.
Proof.
  induction ops as [|op ops IH]; intros s id Hall; cbn [run_ops]; [reflexivity|].
  inversion Hall as [|? ? Hop Hrest]; subst.
  rewrite IH by assumption. now apply apply_op_other.
Qed.

Lemma other_conversations_untouched_witness :
  run_ops [OpCreate "u9" (clock0 0) lena_id "t3" lena fractions;
           OpAddMessage "conv_u9" "tutor" (Some "What is a half?") (clock0 1);
           OpEnd "conv_u9"; OpDelete "conv_u9"] store1 !! "conv_u1" = Some conv1.
Proof.
  rewrite other_conversations_untouched.
  - vm_compute. reflexivity.
  - repeat constructor; discriminate.
Defined.

(** X4. The message log is append-only.  After any sequence of operations
    (the conversation not being deleted) the log is the old log followed by
    the messages of the [addMessage] calls on the conversation, in the
    order of the calls, each with the role, content and time it was given:
    nothing is dropped, reordered or rewritten. *)
Theorem message_log_append_only :
  forall ops s (id : string) c,
    s !! id = Some c -> fresh_uuids ops s -> never_deletes id ops ->
    exists c',
      run_ops ops s !! id = Some c' /\
      messages c' = (messages c ++ appends_to id ops)%list.
Proof.
  induction ops as [|op ops IH]; intros s id c Hc Hfresh Hdel;
    cbn [run_ops fresh_uuids] in *.
  - exists c. split; [assumption|]. cbn. now rewrite app_nil_r.
  - destruct Hfresh as [Hop Hfresh]. inversion Hdel as [|? ? Hd Hdel']; subst.
    pose proof (apply_op_session_after op s id c Hc Hop Hd) as Hc1.
    destruct (IH _ id _ Hc1 Hfresh Hdel') as (c' & Hrun & Hm).
    exists c'. split; [assumption|]. rewrite Hm.
    unfold appends_to. cbn [flat_map]. rewrite app_assoc. f_equal.
    destruct op as [uuid now sid tid st tp | cid r ct now | cid | cid l r now | cid];
      cbn [session_after]; rewrite ?app_nil_r; try reflexivity.
    + destruct (String.eqb cid id); [|now rewrite app_nil_r].
      unfold appended. destruct (String.eqb r "tutor"); cbn;
        destruct (Nat.leb _ _); reflexivity.
    + destruct (String.eqb cid id); reflexivity.
    + destruct (String.eqb cid id); [|reflexivity].
      destruct (lockedPrediction c); reflexivity.
Qed.

Lemma message_log_append_only_witness :
  exists c',
    run_ops [OpAddMessage "conv_u1" "tutor" (Some "What is a plate?") (clock0 0);
             OpSetLocked "conv_u1" (JsNumber 2%float) (JsString "") (clock0 1);
             OpAddMessage "conv_u1" "student" (Some "A piece of crust") (clock0 2)]
            store1 !! "conv_u1" = Some c' /\
    messages c' = [mkMessage "tutor" (Some "What is a plate?") (clock0 0);
                   mkMessage "student" (Some "A piece of crust") (clock0 2)].
Proof.
  assert (Hc1 : store1 !! "conv_u1" = Some conv1) by (vm_compute; reflexivity).
  edestruct (message_log_append_only
               [OpAddMessage "conv_u1" "tutor" (Some "What is a plate?") (clock0 0);
                OpSetLocked "conv_u1" (JsNumber 2%float) (JsString "") (clock0 1);
                OpAddMessage "conv_u1" "student" (Some "A piece of crust") (clock0 2)]
               store1 "conv_u1" conv1 Hc1) as (c' & Hrun & Hm).
  - cbn. auto.
  - repeat constructor.
  - exists c'. split; [exact Hrun|exact Hm].
Defined.

(** Like [run_ops_invariant], with the exact record after each operation. *)
Lemma run_ops_invariant_exact (P : Conversation -> Prop) (id : string) :
  (forall c, is_new c -> P c) ->
  (forall op c, P c -> P (session_after id op c)) ->
  forall ops s,
    fresh_uuids ops s ->
    (forall c, s !! id = Some c -> P c) ->
    forall c, run_ops ops s !! id = Some c -> P c.
Proof.
  intros Hnew Hstep ops.
  induction ops as [|op ops IH]; intros s Hfresh Hs c Hrun; cbn in *.
  - now apply Hs.
  - destruct Hfresh as [Hop Hfresh].
    apply (IH (apply_op op s)); try assumption.
    intros c1 Hc1. destruct (s !! id) as [c0|] eqn:Hc0.
    + destruct (is_delete_of id op) eqn:Hdel.
      * rewrite (apply_op_delete op s id Hdel) in Hc1. discriminate.
      * rewrite (apply_op_session_after op s id c0 Hc0 Hop Hdel) in Hc1.
        injection Hc1 as <-. now apply Hstep, Hs.
    + apply Hnew. eapply apply_op_absent; eauto.
Qed.

(** X5. The turn counter counts the tutor messages of the log.  From the
    empty store, after every sequence of store operations, the turn number
    of every conversation is the number of messages with role ["tutor"] in
    its log. *)
Theorem turnNumber_is_tutor_message_count :
  forall ops (id : string) c,
    fresh_uuids ops ∅ ->
    run_ops ops ∅ !! id = Some c ->
    turnNumber c = length (tutorMessagesOf c).
Proof.
  intros ops id c Hfresh.
  apply (run_ops_invariant_exact
           (fun c => turnNumber c = length (tutorMessagesOf c)) id) with (s := ∅);
    try assumption.
  - intros c0 [Ht _ _ _ Hm]. unfold tutorMessagesOf. now rewrite Ht, Hm.
  - intros op c0 Hc0.
    destruct op as [uuid now sid tid st tp | cid r ct now | cid | cid l r now | cid];
      cbn [session_after]; try assumption.
    + destruct (String.eqb cid id); [|assumption].
      unfold appended, tutorMessagesOf in *.
      destruct (String.eqb r "tutor") eqn:Er; cbn;
        destruct (Nat.leb _ _); cbn; rewrite filter_app, length_app.
      * rewrite filter_cons_True by assumption. cbn. lia.
      * rewrite filter_cons_True by assumption. cbn. lia.
      * rewrite filter_cons_False by (cbn; congruence). cbn. lia.
      * rewrite filter_cons_False by (cbn; congruence). cbn. lia.
    + destruct (String.eqb cid id); assumption.
    + destruct (String.eqb cid id); [|assumption].
      destruct (lockedPrediction c0); assumption.
  - intros c0. rewrite lookup_empty. discriminate.
Qed.

Lemma turnNumber_is_tutor_message_count_witness :
  exists c,
    run_ops [OpCreate "u1" (clock0 0) tim_id "t1" tim tectonics;
             OpAddMessage "conv_u1" "tutor" (Some "What is a plate?") (clock0 1);
             OpAddMessage "conv_u1" "student" (Some "A piece of crust") (clock0 2);
             OpAddMessage "conv_u1" "tutor" (Some "Why does it move?") (clock0 3)]
            ∅ !! "conv_u1" = Some c /\
    turnNumber c = length (tutorMessagesOf c) /\ turnNumber c = 2%nat.
Proof.
  eexists. split; [vm_compute; reflexivity|]. split; [|reflexivity].
  refine (turnNumber_is_tutor_message_count
            [OpCreate "u1" (clock0 0) tim_id "t1" tim tectonics;
             OpAddMessage "conv_u1" "tutor" (Some "What is a plate?") (clock0 1);
             OpAddMessage "conv_u1" "student" (Some "A piece of crust") (clock0 2);
             OpAddMessage "conv_u1" "tutor" (Some "Why does it move?") (clock0 3)]
            "conv_u1" _ _ _).
  - cbn. split; [vm_compute; reflexivity|auto].
  - vm_compute. reflexivity.
Defined.

(** X6. [deleteConversation] answers [true] exactly when the conversation
    existed.  Afterwards the conversation is gone: [getConversation] and
    [getLockedPrediction] return [null], [isConversationComplete] reports
    [true], a second deletion answers [false]; every other conversation
    keeps its record, and the number of conversations drops by one when
    the conversation existed. *)
Theorem deleteConversation_removes :
  forall s (id : string),
    let s' := fst (deleteConversation id s) in
    (snd (deleteConversation id s) = true <-> exists c, getConversation s id = Some c) /\
    getConversation s' id = None /\
    getLockedPrediction s' id = None /\
    isConversationComplete s' id = true /\
    deleteConversation id s' = (s', false) /\
    (forall id' : string, id' <> id -> s' !! id' = s !! id') /\
    (forall c, s !! id = Some c -> S (size s') = size s).
Proof.
  intros s id s'. subst s'. unfold deleteConversation, getConversation,
    getLockedPrediction, isConversationComplete. cbn [fst snd].
  rewrite !lookup_delete_eq. repeat split.
  - intros Hb. apply bool_decide_eq_true in Hb. destruct Hb as [c Hc]. eauto.
  - intros [c Hc]. apply bool_decide_eq_true. eauto.
  - f_equal. apply delete_id, lookup_delete_eq.
  - intros id' Hne. now apply lookup_delete_ne.
  - intros c Hc. rewrite (map_size_delete_Some id s) by eauto.
    assert (size s <> 0%nat); [|lia].
    intros Hz. apply map_size_empty_iff in Hz. subst. rewrite lookup_empty in Hc.
    discriminate.
Qed.

End StoreExtras.

(** * More of the parsing of the judge's reply *)

Section ParseExtras.

Context `{Environment}.

Lemma level_in_range_three : level_in_range (JsNumber 3%float) = Some true.
Proof. reflexivity. Qed.

Lemma level_in_range_digit_scan (raw : string) :
  level_in_range (fst (digit_scan raw)) = Some true.
Proof.
  unfold digit_scan. cbn [fst].
  destruct (match_1_to_5 raw) as [d|] eqn:Hd; [|reflexivity].
  apply level_in_range_integer, is_1_to_5_value.
  now apply (match_1_to_5_first raw d).
Qed.

(** The outcome of the [try] block, case by case. *)
Lemma try_parse_cases (raw : string) :
  match try_parse raw with
  | None => parsePrediction raw = digit_scan raw
  | Some (lv, rat) =>
      parsePrediction raw = (lv, rat) /\
      exists parsed parsedLevel accept parsedRationale,
        JSON_parse raw = Some parsed /\
        getProperty parsed "level" = Some parsedLevel /\
        level_in_range parsedLevel = Some accept /\
        getProperty parsed "rationale" = Some parsedRationale /\
        lv = (if accept then parsedLevel else JsNumber 3%float) /\
        rat = js_or parsedRationale (JsString "")
  end.
Proof.
  unfold parsePrediction. destruct (try_parse raw) as [[lv rat]|] eqn:Htry;
    [|reflexivity].
  split; [reflexivity|]. unfold try_parse in Htry.
  destruct (JSON_parse raw) as [parsed|] eqn:E1; [|discriminate]. cbn in Htry.
  destruct (getProperty parsed "level") as [parsedLevel|] eqn:E2; [|discriminate].
  cbn in Htry.
  destruct (level_in_range parsedLevel) as [accept|] eqn:E3; [|discriminate].
  cbn in Htry.
  destruct (getProperty parsed "rationale") as [parsedRationale|] eqn:E4;
    [|discriminate].
  cbn in Htry. injection Htry as <- <-.
  exists parsed, parsedLevel, accept, parsedRationale. repeat split; assumption.
Qed.

Lemma predictedLevel_accepted (judge : Completion) :
  level_in_range (fst (predictedLevel judge)) = Some true.
Proof.
  destruct judge as [[raw|]|]; [|reflexivity|reflexivity]. cbn [predictedLevel].
  pose proof (try_parse_cases raw) as Hcases.
  destruct (try_parse raw) as [[lv rat]|].
  - destruct Hcases as (-> & parsed & pl & accept & pr & _ & _ & Hacc & _ & -> & _).
    cbn [fst]. destruct accept; [assumption|reflexivity].
  - rewrite Hcases. apply level_in_range_digit_scan.
Qed.

(** X7. Whatever the judge returns, a text or none, and also when the call
    fails, the level handed to [setLockedPrediction] passes the test of the
    handler, [level && level >= 1 && level <= 5]; when it is a number, that
    number lies between 1 and 5. *)
Theorem predictedLevel_in_range :
  forall judge : Completion,
    level_in_range (fst (predictedLevel judge)) = Some true /\
    forall x : float,
      fst (predictedLevel judge) = JsNumber x ->
      PrimFloat.leb 1%float x = true /\ PrimFloat.leb x 5%float = true.
Proof.
  intros judge.
  pose proof (predictedLevel_accepted judge) as Hrange.
  split; [assumption|]. intros x Hx. rewrite Hx in Hrange.
  unfold level_in_range in Hrange. cbn [ToNumber ToBoolean] in Hrange.
  destruct (negb (PrimFloat.eqb x 0) && negb (PrimFloat.is_nan x)); [|discriminate].
  cbn in Hrange. destruct (PrimFloat.leb 1 x); [|discriminate].
  injection Hrange as ->. auto.
Qed.

(** X8. A reply that is valid JSON but not an object (a number, a string, a
    boolean, an array) locks level 3 with the empty rationale.  The scan
    for a digit runs only in the [catch], so even the reply [4], which
    parses as the number 4, locks level 3. *)
Theorem non_object_reply_locks_level_3 :
  forall (raw : string) (parsed : JsValue),
    JSON_parse raw = Some parsed ->
    match parsed with
    | JsBool _ | JsNumber _ | JsString _ | JsArray _ => True
    | _ => False
    end ->
    parsePrediction raw = (JsNumber 3%float, JsString "").
Proof.
  intros raw parsed Hparse Hkind.
  unfold parsePrediction, try_parse. rewrite Hparse.
  destruct parsed; try contradiction; reflexivity.
Qed.

(** X9. A reply that parses as a JSON object whose [level] fails the test
    (missing, [null], 0, a number outside 1..5) locks level 3, and keeps
    the [rationale] of the object (the empty string when that is missing
    or falsy). *)
Theorem rejected_level_keeps_rationale :
  forall (raw : string) (props : list (string * JsValue)),
    JSON_parse raw = Some (JsObject props) ->
    level_in_range (own_property props "level") = Some false ->
    parsePrediction raw =
      (JsNumber 3%float, js_or (own_property props "rationale") (JsString "")).
Proof.
  intros raw props Hparse Hlevel.
  unfold parsePrediction, try_parse. rewrite Hparse. cbn.
  now rewrite Hlevel.
Qed.

(** X10. When [JSON.parse] returns [null], or the comparison of the parsed
    [level] with 1 and 5 throws, the [catch] runs as for a SyntaxError: the
    level is the first character of the reply among 1..5, or 3, and the
    rationale is empty. *)
Theorem reading_failure_falls_back_to_digit_scan :
  forall raw : string,
    (JSON_parse raw = Some JsNull \/
     exists props,
       JSON_parse raw = Some (JsObject props) /\
       level_in_range (own_property props "level") = None) ->
    parsePrediction raw = digit_scan raw.
Proof.
  intros raw [Hnull | (props & Hparse & Hthrow)];
    unfold parsePrediction, try_parse.
  - now rewrite Hnull.
  - rewrite Hparse. cbn. now rewrite Hthrow.
Qed.

End ParseExtras.

Section ParseExamples.

#[local] Existing Instance example_env2.

Lemma non_object_reply_locks_level_3_witness :
  match_1_to_5 reply_bare_digit = Some "4"%char /\
  parsePrediction reply_bare_digit = (JsNumber 3%float, JsString "").
Proof.
  split; [reflexivity|].
  exact (non_object_reply_locks_level_3 reply_bare_digit (JsNumber 4%float) eq_refl I).
Defined.

Lemma rejected_level_keeps_rationale_witness :
  parsePrediction reply_seven = (JsNumber 3%float, JsString "off the scale").
Proof.
  exact (rejected_level_keeps_rationale reply_seven
           [("level", JsNumber 7%float); ("rationale", JsString "off the scale")]
           eq_refl eq_refl).
Defined.

Lemma reading_failure_falls_back_to_digit_scan_witness :
  parsePrediction reply_null = (JsNumber 3%float, JsString "").
Proof.
  exact (reading_failure_falls_back_to_digit_scan reply_null (or_introl eq_refl)).
Defined.

End ParseExamples.

(** * More of the two handlers *)

Section HandlerExtras.

Context `{Environment}.

Implicit Types (s : Store) (c : Conversation).

Lemma appended_fields (r : string) (ct : option string) (now : string) c :
  messages (appended r ct now c) = (messages c ++ [mkMessage r ct now])%list /\
  turnNumber (appended r ct now c) =
    (if String.eqb r "tutor" then S (turnNumber c) else turnNumber c) /\
  maxTurns (appended r ct now c) = maxTurns c /\
  isComplete (appended r ct now c) =
    isComplete c || (maxTurns c <=? turnNumber (appended r ct now c))%nat /\
  lockedPrediction (appended r ct now c) = lockedPrediction c /\
  student (appended r ct now c) = student c /\
  topic (appended r ct now c) = topic c /\
  studentId (appended r ct now c) = studentId c.
Proof.
  unfold appended. destruct (String.eqb r "tutor"); cbn;
    destruct (Nat.leb _ _) eqn:E; cbn; rewrite ?E, ?orb_true_r, ?orb_false_r;
    repeat split; reflexivity.
Qed.

(** [/api/interact] on a conversation that exists and is not complete,
    along all its paths. *)
Lemma interact_accepted s (cid msg : string) c clock (dialogue judge : Completion) :
  cid <> "" -> msg <> "" -> s !! cid = Some c -> isComplete c = false ->
  interact (Some cid) (Some msg) clock dialogue judge s =
    let c1 := appended "tutor" (Some msg) (clock 0) c in
    match buildSystemPrompt (studentId c) (topic c) with
    | Throws => mkOutcome (<[cid := c1]> s) [] Unanswered
    | Returns None =>
        mkOutcome (<[cid := c1]> s) [] (ErrorResponse 500 "Failed to build system prompt")
    | Returns (Some sp) =>
        let call1 := StudentCompletion sp (getOpenAIMessages (<[cid := c1]> s) cid) in
        match dialogue with
        | Throws =>
            mkOutcome (<[cid := c1]> s) [call1]
              (ErrorResponse 500 "Failed to generate student response")
        | Returns content0 =>
            let c2 := appended "student" content0 (clock 1) c1 in
            match content0 with
            | None =>
                mkOutcome (<[cid := c2]> s) [call1]
                  (ErrorResponse 500 "Failed to generate student response")
            | Some reply =>
                let answer :=
                  InteractResponse cid reply (turnNumber c2) (isComplete c2) in
                match lockedPrediction c with
                | Some p => mkOutcome (<[cid := c2]> s) [call1] (answer (level p))
                | None =>
                    if (5 <=? length (studentMessagesOf c2))%nat then
                      let p := {| level := fst (predictedLevel judge);
                                  rationale := snd (predictedLevel judge);
                                  lockedAtTurn := turnNumber c2; lockedAt := clock 2 |} in
                      mkOutcome (<[cid := set_locked p c2]> s)
                        [call1;
                         JudgeCompletion
                           (buildPredictionPrompt (student c2) (topic c2)
                              (conversationMessagesOf c2))]
                        (answer (estimatedLevelAfterLock (fst (predictedLevel judge))
                                   (snd (predictedLevel judge))))
                    else mkOutcome (<[cid := c2]> s) [call1] (answer JsNull)
                end
            end
        end
    end.
Proof.
  intros Hcid Hmsg Hc Hic. cbv zeta.
  unfold interact. rewrite !missing_Some by assumption.
  cbn [orb field_value]. unfold getConversation.
  rewrite Hc, Hic, (appended_spec s cid "tutor" (Some msg) (clock 0) c Hc). cbn [fst].
  destruct (buildSystemPrompt (studentId c) (topic c)) as [[sp|]|];
    [|reflexivity|reflexivity].
  destruct dialogue as [content0|]; [|reflexivity].
  rewrite (appended_spec _ cid "student" content0 (clock 1) _ (lookup_insert_eq _ _ _)).
  rewrite insert_insert_eq.
  destruct content0 as [reply|]; [|reflexivity].
  unfold getLockedPrediction. rewrite lookup_insert_eq.
  set (c1 := appended "tutor" (Some msg) (clock 0) c).
  set (c2 := appended "student" (Some reply) (clock 1) c1).
  assert (Hl : lockedPrediction c2 = lockedPrediction c).
  { subst c2 c1.
    destruct (appended_fields "student" (Some reply) (clock 1)
                (appended "tutor" (Some msg) (clock 0) c)) as (_ & _ & _ & _ & -> & _).
    now destruct (appended_fields "tutor" (Some msg) (clock 0) c)
      as (_ & _ & _ & _ & -> & _). }
  rewrite Hl. destruct (lockedPrediction c) as [p|] eqn:Hp; [reflexivity|].
  destruct (5 <=? length (studentMessagesOf c2))%nat; [|reflexivity].
  destruct (predictedLevel judge) as [l r] eqn:Hj. cbn [fst snd].
  rewrite (setLockedPrediction_unset _ cid c2) by
    (rewrite ?lookup_insert_eq; congruence).
  rewrite insert_insert_eq. reflexivity.
Qed.

(** [/api/interact] when it rejects the request. *)
Lemma interact_rejected s (cid0 msg0 : option string) clock (dialogue judge : Completion) :
  missing cid0 = true \/ missing msg0 = true \/
  s !! field_value cid0 = None \/
  (exists c, s !! field_value cid0 = Some c /\ isComplete c = true) ->
  store_after (interact cid0 msg0 clock dialogue judge s) = s /\
  calls (interact cid0 msg0 clock dialogue judge s) = [].
Proof.
  intros Hcase. unfold interact, getConversation.
  destruct (missing cid0 || missing msg0) eqn:Em; [split; reflexivity|].
  apply orb_false_iff in Em as [E1 E2].
  destruct Hcase as [Hm | [Hm | [Hnone | (c & Hc & Hic)]]]; try congruence.
  - rewrite Hnone. split; reflexivity.
  - rewrite Hc, Hic. split; reflexivity.
Qed.

(** [/api/tutor-response] along all its paths on a conversation that
    exists. *)
Lemma tutorResponse_found s (cid : string) c clock (dialogue judge : Completion) :
  cid <> "" -> s !! cid = Some c ->
  tutorResponse (Some cid) clock dialogue judge s =
    let turn := (turnNumber c + 1)%nat in
    let call1 :=
      TutorCompletion
        (buildTutorMessages (student c) (topic c) (conversationMessagesOf c)
           turn (maxTurns c)) in
    match dialogue with
    | Throws => mkOutcome s [call1] (ErrorResponse 500 "Failed to generate tutor response")
    | Returns content0 =>
        let answer lvl :=
          match content0 with
          | Some text =>
              TutorResponse text turn (turnPhase turn) lvl (maxTurns c <=? turn)%nat
          | None => ErrorResponse 500 "Failed to generate tutor response"
          end in
        match lockedPrediction c with
        | Some p => mkOutcome s [call1] (answer (level p))
        | None =>
            if (6 <=? turn)%nat then
              let p := {| level := fst (predictedLevel judge);
                          rationale := snd (predictedLevel judge);
                          lockedAtTurn := turnNumber c; lockedAt := clock 0 |} in
              mkOutcome (<[cid := set_locked p c]> s)
                [call1;
                 JudgeCompletion
                   (buildPredictionPrompt (student c) (topic c) (conversationMessagesOf c))]
                (answer (estimatedLevelAfterLock (fst (predictedLevel judge))
                           (snd (predictedLevel judge))))
            else mkOutcome s [call1] (answer JsNull)
        end
    end.
Proof.
  intros Hcid Hc. cbv zeta.
  unfold tutorResponse. rewrite missing_Some by assumption.
  cbn [field_value]. unfold getConversation, getLockedPrediction. rewrite Hc.
  destruct dialogue as [content0|]; [|reflexivity].
  destruct (lockedPrediction c) as [p|] eqn:Hp; [reflexivity|].
  destruct (6 <=? turnNumber c + 1)%nat; [|reflexivity].
  destruct (predictedLevel judge) as [l r] eqn:Hj. cbn [fst snd].
  rewrite (setLockedPrediction_unset _ cid c) by assumption.
  reflexivity.
Qed.

Lemma tutorResponse_rejected s (cid0 : option string) clock (dialogue judge : Completion) :
  missing cid0 = true \/ s !! field_value cid0 = None ->
  store_after (tutorResponse cid0 clock dialogue judge s) = s /\
  calls (tutorResponse cid0 clock dialogue judge s) = [].
Proof.
  intros Hcase. unfold tutorResponse, getConversation.
  destruct (missing cid0) eqn:Em; [split; reflexivity|].
  destruct Hcase as [Hm | Hnone]; [congruence|].
  rewrite Hnone. split; reflexivity.
Qed.

Lemma option_field_cases (field : option string) :
  missing field = true \/ exists v, field = Some v /\ v <> "" /\ field_value field = v.
Proof.
  destruct field as [v|]; [|now left]. cbn.
  destruct (String.eqb v "") eqn:E; [now left|].
  right. exists v. apply eqb_string_false in E. auto.
Qed.

Lemma interact_complete s (cid msg : string) c clock (dialogue judge : Completion) :
  cid <> "" -> msg <> "" -> s !! cid = Some c -> isComplete c = true ->
  interact (Some cid) (Some msg) clock dialogue judge s =
    mkOutcome s [] (ErrorResponse 400 "Conversation is already complete").
Proof.
  intros Hcid Hmsg Hc Hic. unfold interact. rewrite !missing_Some by assumption.
  cbn [orb field_value]. unfold getConversation. now rewrite Hc, Hic.
Qed.

(** X11. Once a level is locked for a conversation, neither handler calls
    the judge for it again: the locked record stays as it is, and every
    answer that carries an estimated level carries the level of that
    record, whatever the judge would have said. *)
Theorem locked_level_is_reused :
  forall s (cid : string) c p clock (dialogue judge : Completion),
    cid <> "" -> s !! cid = Some c -> lockedPrediction c = Some p ->
    (forall msg0 : option string,
       let o := interact (Some cid) msg0 clock dialogue judge s in
       existsb is_judge_call (calls o) = false /\
       getLockedPrediction (store_after o) cid = Some p /\
       forall a b t ic lvl, response o = InteractResponse a b t ic lvl -> lvl = level p) /\
    (let o := tutorResponse (Some cid) clock dialogue judge s in
     existsb is_judge_call (calls o) = false /\
     store_after o = s /\
     forall a t ph lvl l, response o = TutorResponse a t ph lvl l -> lvl = level p).
Proof.
  intros s cid c p clock dialogue judge Hcid Hc Hp.
  assert (Hget : getLockedPrediction s cid = Some p)
    by (unfold getLockedPrediction; now rewrite Hc).
  split.
  - intros msg0 o. subst o.
    destruct (option_field_cases msg0) as [Hm | (msg & -> & Hmsg & _)].
    + unfold interact. rewrite Hm, orb_true_r. cbn.
      split; [reflexivity|]. split; [assumption|]. discriminate.
    + destruct (isComplete c) eqn:Hic.
      * rewrite (interact_complete s cid msg c clock dialogue judge Hcid Hmsg Hc Hic).
        cbn. split; [reflexivity|]. split; [assumption|]. discriminate.
      * rewrite (interact_accepted s cid msg c clock dialogue judge Hcid Hmsg Hc Hic).
        cbv zeta. unfold getLockedPrediction.
        assert (Hl1 : lockedPrediction (appended "tutor" (Some msg) (clock 0) c) = Some p).
        { now destruct (appended_fields "tutor" (Some msg) (clock 0) c)
            as (_ & _ & _ & _ & -> & _). }
        assert (Hl2 : forall content0,
                  lockedPrediction
                    (appended "student" content0 (clock 1)
                       (appended "tutor" (Some msg) (clock 0) c)) = Some p).
        { intros content0.
          now destruct (appended_fields "student" content0 (clock 1)
                          (appended "tutor" (Some msg) (clock 0) c))
            as (_ & _ & _ & _ & -> & _). }
        destruct (buildSystemPrompt (studentId c) (topic c)) as [[sp|]|];
          [destruct dialogue as [[reply|]|]|..]; rewrite ?Hp; cbn;
          rewrite lookup_insert_eq, ?Hl1, ?Hl2;
          (split; [reflexivity|]); (split; [reflexivity|]);
          try discriminate.
        intros a b t ic lvl [= _ _ _ _ <-]. reflexivity.
  - cbv zeta. rewrite (tutorResponse_found s cid c clock dialogue judge Hcid Hc).
    cbv zeta. destruct dialogue as [[text|]|]; rewrite ?Hp; cbn;
      (split; [reflexivity|]); (split; [reflexivity|]); try discriminate.
    intros a t ph lvl l [= _ _ _ <- _]. reflexivity.
Qed.

(** X12. [/api/tutor-response] never touches the dialogue.  Whatever the
    request and the replies of the services, every conversation keeps its
    message log, turn number, [maxTurns] and completion flag, and a locked
    level stays locked; the only change it can make is to lock the level of
    the conversation it was asked about.  When the tutor completion throws,
    the store is left exactly as it was. *)
Theorem tutorResponse_leaves_the_dialogue :
  forall s (cid0 : option string) clock (dialogue judge : Completion) (id : string) c,
    s !! id = Some c ->
    let o := tutorResponse cid0 clock dialogue judge s in
    (exists c',
       store_after o !! id = Some c' /\
       messages c' = messages c /\ turnNumber c' = turnNumber c /\
       maxTurns c' = maxTurns c /\ isComplete c' = isComplete c /\
       (forall p, lockedPrediction c = Some p -> lockedPrediction c' = Some p) /\
       (field_value cid0 <> id -> c' = c)) /\
    (dialogue = Throws -> store_after o = s).
Proof.
  intros s cid0 clock dialogue judge id c Hc o. subst o.
  assert (Hsame : forall o', store_after o' = s ->
            exists c', store_after o' !! id = Some c' /\
              messages c' = messages c /\ turnNumber c' = turnNumber c /\
              maxTurns c' = maxTurns c /\ isComplete c' = isComplete c /\
              (forall p, lockedPrediction c = Some p -> lockedPrediction c' = Some p) /\
              (field_value cid0 <> id -> c' = c)).
  { intros o' ->. exists c. auto 10. }
  destruct (option_field_cases cid0) as [Hm | (cid & -> & Hcid & _)].
  - destruct (tutorResponse_rejected s cid0 clock dialogue judge (or_introl Hm))
      as [Hs _].
    split; [now apply Hsame|]. intros _. exact Hs.
  - cbn [field_value] in *. destruct (s !! cid) as [c0|] eqn:Hc0.
    + rewrite (tutorResponse_found s cid c0 clock dialogue judge Hcid Hc0).
      cbv zeta. destruct dialogue as [content0|].
      * split; [|discriminate].
        destruct (lockedPrediction c0) as [p0|] eqn:Hp0; [now apply Hsame|].
        destruct (6 <=? turnNumber c0 + 1)%nat; [|now apply Hsame].
        cbn [store_after]. destruct (decide (cid = id)) as [->|Hne].
        -- rewrite lookup_insert_eq. eexists. split; [reflexivity|].
           assert (c0 = c) by congruence. subst c0. cbn.
           repeat split; try reflexivity.
           ++ intros p Hp. congruence.
           ++ intros Habs. now destruct Habs.
        -- rewrite lookup_insert_ne by assumption. exists c. auto 10.
      * split; [now apply Hsame|]. reflexivity.
    + destruct (tutorResponse_rejected s (Some cid) clock dialogue judge
                  (or_intror Hc0)) as [Hs _].
      split; [now apply Hsame|]. intros _. exact Hs.
Qed.

Lemma existsb_eqb_In (x : string) (l : list string) :
  existsb (String.eqb x) l = true <-> In x l.
Proof.
  rewrite existsb_exists. split.
  - intros (y & Hin & Heq). apply eqb_string_true in Heq. now subst.
  - intros Hin. exists x. split; [assumption|apply String.eqb_refl].
Qed.

(** X13. [/api/interact] for a student whose id is not a key of the table
    of personalities.  The tutor message has been appended and the turn
    counted before the table is read, and no service is called.  When the
    id is not a name that the table inherits from [Object.prototype]
    either, the lookup is [undefined] and the request is answered with the
    500 error "Failed to build system prompt".  When it is such a name
    ("constructor", "toString", "__proto__", ...), the lookup gives a
    value without traits, building the prompt throws outside the [try],
    and the handler sends no answer. *)
Theorem interact_without_personality :
  forall s (cid msg : string) c clock (dialogue judge : Completion),
    cid <> "" -> msg <> "" -> s !! cid = Some c -> isComplete c = false ->
    ~ In (studentId c) personalityIds ->
    let o := interact (Some cid) (Some msg) clock dialogue judge s in
    (~ In (studentId c) objectPrototypeKeys ->
       buildSystemPrompt (studentId c) (topic c) = Returns None /\
       response o = ErrorResponse 500 "Failed to build system prompt") /\
    (In (studentId c) objectPrototypeKeys ->
       buildSystemPrompt (studentId c) (topic c) = Throws /\
       response o = Unanswered) /\
    calls o = [] /\
    exists c1,
      store_after o !! cid = Some c1 /\
      messages c1 = (messages c ++ [mkMessage "tutor" (Some msg) (clock 0)])%list /\
      turnNumber c1 = S (turnNumber c) /\
      lockedPrediction c1 = lockedPrediction c.
Proof.
  intros s cid msg c clock dialogue judge Hcid Hmsg Hc Hic Hkey o. subst o.
  rewrite (interact_accepted s cid msg c clock dialogue judge Hcid Hmsg Hc Hic).
  cbv zeta. unfold buildSystemPrompt.
  destruct (existsb (String.eqb (studentId c)) personalityIds) eqn:E1.
  { apply existsb_eqb_In in E1. contradiction. }
  destruct (existsb (String.eqb (studentId c)) objectPrototypeKeys) eqn:E2.
  - apply existsb_eqb_In in E2.
    split; [intros Hn; contradiction|]. split; [intros _; split; reflexivity|].
    split; [reflexivity|]. cbn. eexists. split; [apply lookup_insert_eq|].
    destruct (appended_fields "tutor" (Some msg) (clock 0) c)
      as (Hm & Ht & _ & _ & Hl & _).
    auto.
  - assert (Hn : ~ In (studentId c) objectPrototypeKeys).
    { intros Hin. apply existsb_eqb_In in Hin. congruence. }
    split; [intros _; split; reflexivity|]. split; [intros Hin; contradiction|].
    split; [reflexivity|]. cbn. eexists. split; [apply lookup_insert_eq|].
    destruct (appended_fields "tutor" (Some msg) (clock 0) c)
      as (Hm & Ht & _ & _ & Hl & _).
    auto.
Qed.

(** X14. An accepted turn is answered with the new turn number,
    [turnNumber + 1], and with [is_complete] true exactly when that number
    has reached [maxTurns]; when it has, every further request to
    [/api/interact] for the conversation is rejected with "Conversation is
    already complete" and changes nothing. *)
Theorem last_turn_closes_the_conversation :
  forall s (cid msg reply : string) c clock (judge : Completion) sp,
    cid <> "" -> msg <> "" -> s !! cid = Some c -> isComplete c = false ->
    buildSystemPrompt (studentId c) (topic c) = Returns (Some sp) ->
    let o := interact (Some cid) (Some msg) clock (Returns (Some reply)) judge s in
    (exists lvl,
       response o =
       InteractResponse cid reply (S (turnNumber c)) (maxTurns c <=? S (turnNumber c))%nat lvl) /\
    (maxTurns c <= S (turnNumber c) ->
     forall (msg' : string) clock' (dialogue' judge' : Completion),
       msg' <> "" ->
       interact (Some cid) (Some msg') clock' dialogue' judge' (store_after o) =
         mkOutcome (store_after o) [] (ErrorResponse 400 "Conversation is already complete")).
Proof.
  intros s cid msg reply c clock judge sp Hcid Hmsg Hc Hic Hsp o.
  destruct (appended_fields "tutor" (Some msg) (clock 0) c) as (_ & Ht1 & Hm1 & Hi1 & _).
  destruct (appended_fields "student" (Some reply) (clock 1)
              (appended "tutor" (Some msg) (clock 0) c))
    as (_ & Ht2 & Hm2 & Hi2 & _).
  cbn in Ht1, Ht2. rewrite Ht1 in Hi1. rewrite Ht2, Ht1, Hm1, Hi1, Hic in Hi2.
  cbn in Hi2. rewrite orb_diag in Hi2. rewrite Ht1 in Ht2.
  set (c2 := appended "student" (Some reply) (clock 1)
               (appended "tutor" (Some msg) (clock 0) c)) in *.
  assert (Hafter : exists c', store_after o !! cid = Some c' /\
                     isComplete c' = (maxTurns c <=? S (turnNumber c))%nat /\
                     exists lvl, response o =
                       InteractResponse cid reply (S (turnNumber c))
                         (maxTurns c <=? S (turnNumber c))%nat lvl).
  { subst o.
    rewrite (interact_accepted s cid msg c clock (Returns (Some reply)) judge Hcid Hmsg Hc Hic).
    cbv zeta. rewrite Hsp. fold c2.
    destruct (lockedPrediction c); [|destruct (5 <=? _)%nat]; cbn;
      rewrite lookup_insert_eq, Ht2, Hi2; eauto 10. }
  destruct Hafter as (c' & Hc' & Hic' & Hresp).
  split; [exact Hresp|].
  intros Hle msg' clock' dialogue' judge' Hmsg'.
  apply (interact_complete _ cid msg' c'); try assumption.
  rewrite Hic'. now apply Nat.leb_le.
Qed.

(** X26. [/api/tutor-response] when the content of the tutor completion is
    [null].  The answer is the 500 error "Failed to generate tutor
    response", but the level has been dealt with before the handler fails:
    with no locked level and an upcoming turn of 6 or more, the judge has
    been called and its level is locked by the request that is answered
    with the error; otherwise the store is as it was. *)
Theorem tutorResponse_without_text_still_locks :
  forall s (cid : string) c clock (judge : Completion),
    cid <> "" -> s !! cid = Some c ->
    let o := tutorResponse (Some cid) clock (Returns None) judge s in
    response o = ErrorResponse 500 "Failed to generate tutor response" /\
    (lockedPrediction c = None -> 6 <= turnNumber c + 1 ->
     existsb is_judge_call (calls o) = true /\
     getLockedPrediction (store_after o) cid =
       Some {| level := fst (predictedLevel judge);
               rationale := snd (predictedLevel judge);
               lockedAtTurn := turnNumber c; lockedAt := clock 0 |}) /\
    ((exists p, lockedPrediction c = Some p) \/ turnNumber c + 1 < 6 ->
     existsb is_judge_call (calls o) = false /\ store_after o = s).
Proof.
  intros s cid c clock judge Hcid Hc o. subst o.
  rewrite (tutorResponse_found s cid c clock (Returns None) judge Hcid Hc). cbv zeta.
  destruct (lockedPrediction c) as [p|] eqn:Hp.
  - split; [reflexivity|]. split; [discriminate|]. intros _. split; reflexivity.
  - destruct (6 <=? turnNumber c + 1)%nat eqn:E.
    + apply Nat.leb_le in E. split; [reflexivity|]. split.
      * intros _ _. split; [reflexivity|].
        unfold getLockedPrediction. cbn [store_after].
        rewrite lookup_insert_eq. reflexivity.
      * intros [(p & Habs) | Hlt]; [discriminate|lia].
    + apply Nat.leb_gt in E. split; [reflexivity|]. split; [intros _ ?; lia|].
      intros _. split; reflexivity.
Qed.

End HandlerExtras.

Section HandlerExtrasExamples.

#[local] Existing Instance example_env.

Lemma tutorResponse_without_text_still_locks_witness :
  let s5 := interact_n 5 Throws Throws store1 in
  let o := tutorResponse (Some "conv_u1") clock0 (Returns None)
             (Returns (Some reply_json)) s5 in
  response o = ErrorResponse 500 "Failed to generate tutor response" /\
  getLockedPrediction s5 "conv_u1" = None /\
  getLockedPrediction (store_after o) "conv_u1" =
    Some {| level := JsNumber 4%float; rationale := JsString "clear reasoning";
            lockedAtTurn := 5; lockedAt := clock0 0 |}.
Proof.
  intros s5 o.
  assert (Hc : exists c, s5 !! "conv_u1" = Some c /\ lockedPrediction c = None /\
                         turnNumber c = 5%nat).
  { eexists. split; [vm_compute; reflexivity|]. split; reflexivity. }
  destruct Hc as (c & Hc & Hnone & Hturn).
  destruct (tutorResponse_without_text_still_locks s5 "conv_u1" c clock0
              (Returns (Some reply_json)) ltac:(discriminate) Hc)
    as (Hresp & Hlock & _).
  split; [exact Hresp|]. split; [vm_compute; reflexivity|].
  destruct (Hlock Hnone ltac:(rewrite Hturn; lia)) as (_ & Hp).
  fold o in Hp. rewrite Hp, Hturn. vm_compute. reflexivity.
Defined.

Lemma tutorResponse_leaves_the_dialogue_witness :
  exists c',
    store_after (tutorResponse (Some "conv_u1") clock0 (Returns (Some "Next question")) Throws
                   (interact_n 5 Throws Throws store1)) !! "conv_u1" = Some c' /\
    turnNumber c' = 5%nat.
Proof.
  assert (Hc : exists c, interact_n 5 Throws Throws store1 !! "conv_u1" = Some c /\
                         turnNumber c = 5%nat).
  { eexists. split; [vm_compute; reflexivity|reflexivity]. }
  destruct Hc as (c & Hc & Hturn).
  destruct (tutorResponse_leaves_the_dialogue (interact_n 5 Throws Throws store1)
              (Some "conv_u1") clock0
              (Returns (Some "Next question")) Throws "conv_u1" c Hc)
    as ((c' & Hc' & _ & Ht & _) & _).
  exists c'. split; [exact Hc'|]. now rewrite Ht.
Defined.

Lemma interact_without_personality_witness :
  let o := interact (Some "conv_u2") (Some "What is a plate?") clock0
             (Returns (Some "A piece of crust")) Throws store_stranger in
  let o' := interact (Some "conv_u3") (Some "What is a plate?") clock0
              (Returns (Some "A piece of crust")) Throws store_constructor in
  response o = ErrorResponse 500 "Failed to build system prompt" /\
  (exists c1, store_after o !! "conv_u2" = Some c1 /\ turnNumber c1 = 1%nat) /\
  response o' = Unanswered /\
  (exists c1, store_after o' !! "conv_u3" = Some c1 /\ turnNumber c1 = 1%nat).
Proof.
  intros o o'.
  assert (Hc : exists c, store_stranger !! "conv_u2" = Some c /\ isComplete c = false /\
             studentId c = "someone-else" /\ turnNumber c = 0%nat).
  { eexists. split; [vm_compute; reflexivity|]. repeat split; reflexivity. }
  destruct Hc as (c & Hc & Hic & Hid & Hturn).
  assert (Hc' : exists c, store_constructor !! "conv_u3" = Some c /\
              isComplete c = false /\
              studentId c = "constructor" /\ turnNumber c = 0%nat).
  { eexists. split; [vm_compute; reflexivity|]. repeat split; reflexivity. }
  destruct Hc' as (c' & Hc' & Hic' & Hid' & Hturn').
  assert (Hkey : ~ In (studentId c) personalityIds).
  { rewrite Hid. cbn. intros Hin.
    repeat (destruct Hin as [Hin | Hin]; [discriminate Hin|]). exact Hin. }
  assert (Hkey' : ~ In (studentId c') personalityIds).
  { rewrite Hid'. cbn. intros Hin.
    repeat (destruct Hin as [Hin | Hin]; [discriminate Hin|]). exact Hin. }
  destruct (interact_without_personality store_stranger "conv_u2"
              "What is a plate?" c clock0 (Returns (Some "A piece of crust")) Throws
              ltac:(discriminate) ltac:(discriminate) Hc Hic Hkey)
    as (Hundefined & _ & _ & c1 & Hc1 & _ & Ht & _).
  destruct (interact_without_personality store_constructor "conv_u3"
              "What is a plate?" c' clock0 (Returns (Some "A piece of crust")) Throws
              ltac:(discriminate) ltac:(discriminate) Hc' Hic' Hkey')
    as (_ & Hinherited & _ & c1' & Hc1' & _ & Ht' & _).
  split; [|split; [|split]].
  - apply Hundefined. rewrite Hid. cbn. intros Hin.
    repeat (destruct Hin as [Hin | Hin]; [discriminate Hin|]). exact Hin.
  - exists c1. split; [exact Hc1|]. now rewrite Ht, Hturn.
  - apply Hinherited. rewrite Hid'. cbn. tauto.
  - exists c1'. split; [exact Hc1'|]. now rewrite Ht', Hturn'.
Defined.

Lemma last_turn_closes_the_conversation_witness :
  let s9 := interact_n 9 (Returns (Some "I think it moves because of heat")) Throws store1 in
  let o := interact (Some "conv_u1") (Some "Last one?") clock0 (Returns (Some "Yes")) Throws s9 in
  response o = InteractResponse "conv_u1" "Yes" 10 true (JsNumber 3%float) /\
  interact (Some "conv_u1") (Some "One more?") clock0 (Returns (Some "Sure")) Throws
    (store_after o) =
    mkOutcome (store_after o) [] (ErrorResponse 400 "Conversation is already complete").
Proof.
  intros s9 o.
  assert (Hc : exists c, s9 !! "conv_u1" = Some c /\ isComplete c = false /\
             buildSystemPrompt (studentId c) (topic c) = Returns (Some "") /\
             turnNumber c = 9%nat /\ maxTurns c = 10%nat).
  { eexists. split; [vm_compute; reflexivity|]. repeat split; reflexivity. }
  destruct Hc as (c & Hc & Hic & Hsp & Hturn & Hmax).
  destruct (last_turn_closes_the_conversation s9 "conv_u1" "Last one?" "Yes"
              c clock0 Throws "" ltac:(discriminate) ltac:(discriminate) Hc Hic Hsp)
    as (_ & Hnext).
  split; [vm_compute; reflexivity|].
  apply Hnext; [rewrite Hturn, Hmax; lia|discriminate].
Defined.

End HandlerExtrasExamples.

(** * Sequences of requests *)

Section ApiExtras.

Context `{Environment}.

Variable studentsData : StudentsData.

Implicit Types (s : Store) (c : Conversation) (r : Request) (rs : list Request).

Lemma students_appended (r0 : string) (ct : option string) (now : string) c :
  length (studentMessagesOf (appended r0 ct now c)) =
  (length (studentMessagesOf c) + (if String.eqb r0 "student" then 1 else 0))%nat.
Proof.
  unfold studentMessagesOf.
  destruct (appended_fields r0 ct now c) as (-> & _).
  rewrite filter_app, length_app. f_equal.
  destruct (String.eqb r0 "student") eqn:E.
  - now rewrite filter_cons_True by assumption.
  - now rewrite filter_cons_False by (cbn; congruence).
Qed.

Lemma tutors_appended (r0 : string) (ct : option string) (now : string) c :
  length (tutorMessagesOf (appended r0 ct now c)) =
  (length (tutorMessagesOf c) + (if String.eqb r0 "tutor" then 1 else 0))%nat.
Proof.
  unfold tutorMessagesOf.
  destruct (appended_fields r0 ct now c) as (-> & _).
  rewrite filter_app, length_app. f_equal.
  destruct (String.eqb r0 "tutor") eqn:E.
  - now rewrite filter_cons_True by assumption.
  - now rewrite filter_cons_False by (cbn; congruence).
Qed.

Lemma texts_appended (r0 : string) (ct : option string) (now : string) c :
  length (studentTextsOf (appended r0 ct now c)) =
  (length (studentTextsOf c) +
   (if String.eqb r0 "student"
    then match ct with Some _ => 1 | None => 0 end
    else 0))%nat.
Proof.
  unfold studentTextsOf, studentMessagesOf.
  destruct (appended_fields r0 ct now c) as (-> & _).
  rewrite !filter_app, length_app. f_equal.
  destruct (String.eqb r0 "student") eqn:E.
  - rewrite (filter_cons_True _ _ []) by assumption.
    destruct ct as [text|].
    + rewrite filter_cons_True by (cbn; eauto). reflexivity.
    + rewrite filter_cons_False by (cbn; intros [? ?]; discriminate). reflexivity.
  - rewrite (filter_cons_False _ _ []) by (cbn; congruence). reflexivity.
Qed.

Lemma texts_le_messages c : length (studentTextsOf c) <= length (studentMessagesOf c).
Proof. unfold studentTextsOf. apply length_filter. Qed.

Lemma api_session_new c : is_new c -> api_session c.
Proof.
  intros [Ht Hm Hi Hl Hmsg].
  constructor; unfold studentTextsOf, studentMessagesOf, tutorMessagesOf;
    rewrite ?Hmsg, ?Ht, ?Hm, ?Hi; cbn; try (unfold MAX_TURNS; lia); auto.
  intros p Hp. congruence.
Qed.

Lemma api_session_open c :
  api_session c -> isComplete c = false -> turnNumber c < maxTurns c.
Proof.
  intros Hc Hic. rewrite (api_complete c Hc) in Hic. now apply Nat.leb_gt in Hic.
Qed.

(** The tutor message of an accepted request keeps the record in shape. *)
Lemma api_session_tutor (msg now : string) c :
  api_session c -> isComplete c = false ->
  api_session (appended "tutor" (Some msg) now c).
Proof.
  intros Hc Hic. pose proof (api_session_open c Hc Hic) as Hlt.
  destruct Hc as [Hroles Hturns Hstud Hmax Hbound Hcompl Hunl Hlock].
  destruct (appended_fields "tutor" (Some msg) now c) as (Hm & Ht & Hmx & Hi & Hl & _).
  pose proof (students_appended "tutor" (Some msg) now c) as Hs.
  pose proof (tutors_appended "tutor" (Some msg) now c) as Htu.
  pose proof (texts_appended "tutor" (Some msg) now c) as Htx.
  cbn in Ht, Hs, Htu, Htx. rewrite Nat.add_0_r in Hs, Htx.
  constructor; rewrite ?Hs, ?Htu, ?Htx, ?Ht, ?Hmx, ?Hl; try lia; try assumption.
  - rewrite Hm. apply Forall_app. split; [assumption|].
    constructor; [now left|constructor].
  - rewrite Hi, Hic, Ht. reflexivity.
  - intros p Hp. destruct (Hlock p Hp) as [[? ?] ?]. repeat split; try assumption; lia.
Qed.

(** The record after the reply of the student too, a text or [null], but
    for what it says about the lock. *)
Lemma api_session_turn (msg : string) (reply : option string) (t0 t1 : string) c :
  api_session c -> isComplete c = false ->
  let c2 := appended "student" reply t1 (appended "tutor" (Some msg) t0 c) in
  Forall (fun m => role m = "tutor" \/ role m = "student") (messages c2) /\
  turnNumber c2 = S (turnNumber c) /\
  turnNumber c2 = length (tutorMessagesOf c2) /\
  length (studentMessagesOf c2) = S (length (studentMessagesOf c)) /\
  length (studentMessagesOf c2) <= turnNumber c2 /\
  maxTurns c2 = MAX_TURNS /\ turnNumber c2 <= maxTurns c2 /\
  isComplete c2 = (maxTurns c2 <=? turnNumber c2)%nat /\
  lockedPrediction c2 = lockedPrediction c /\
  length (studentTextsOf c2) =
    (length (studentTextsOf c) + match reply with Some _ => 1 | None => 0 end)%nat.
Proof.
  intros Hc Hic c2. pose proof (api_session_tutor msg t0 c Hc Hic) as Hc1.
  pose proof (api_session_open c Hc Hic) as Hlt.
  set (c1 := appended "tutor" (Some msg) t0 c) in *.
  destruct (appended_fields "tutor" (Some msg) t0 c) as (_ & Ht1 & Hmx1 & _ & Hl1 & _).
  pose proof (students_appended "tutor" (Some msg) t0 c) as Hs1.
  pose proof (texts_appended "tutor" (Some msg) t0 c) as Htx1.
  cbn in Ht1, Hs1, Htx1. rewrite Nat.add_0_r in Hs1, Htx1.
  fold c1 in Ht1, Hmx1, Hl1, Hs1, Htx1.
  destruct Hc1 as [Hroles Hturns Hstud Hmax Hbound Hcompl _ _].
  destruct (appended_fields "student" reply t1 c1) as (Hm & Ht & Hmx & Hi & Hl & _).
  pose proof (students_appended "student" reply t1 c1) as Hs.
  pose proof (tutors_appended "student" reply t1 c1) as Htu.
  pose proof (texts_appended "student" reply t1 c1) as Htx.
  cbn in Ht, Hs, Htu, Htx. rewrite Nat.add_0_r in Htu.
  fold c2 in Hm, Ht, Hmx, Hi, Hl, Hs, Htu, Htx.
  pose proof (api_students c Hc) as Hsc.
  repeat split; try lia; try congruence.
  - rewrite Hm. apply Forall_app. split; [assumption|].
    constructor; [now right|constructor].
  - rewrite Hi, Hcompl, Hmx, Ht. apply orb_diag.
Qed.

Lemma api_session_with_lock p c :
  (lockedPrediction c = None ->
   Forall (fun m => role m = "tutor" \/ role m = "student") (messages c) /\
   turnNumber c = length (tutorMessagesOf c) /\
   length (studentMessagesOf c) <= turnNumber c /\
   maxTurns c = MAX_TURNS /\ turnNumber c <= maxTurns c /\
   isComplete c = (maxTurns c <=? turnNumber c)%nat) ->
  lockedPrediction c = None ->
  5 <= lockedAtTurn p <= turnNumber c ->
  level_in_range (level p) = Some true ->
  api_session (set_locked p c).
Proof.
  intros Hcore Hn Hturn Hlevel.
  destruct (Hcore Hn) as (Hroles & Hturns & Hstud & Hmax & Hbound & Hcompl).
  constructor; cbn; try assumption.
  - discriminate.
  - intros p' [= <-]. auto.
Qed.

(** One request keeps every record in shape. *)
Lemma serve_api_session r s :
  (forall (id : string) c, s !! id = Some c -> api_session c) ->
  fresh_request r s ->
  forall (id : string) c', serve studentsData r s !! id = Some c' -> api_session c'.
Proof.
  intros Hs Hfresh id c' Hc'.
  destruct r as [sid tid uuid now | cid0 msg0 clock dialogue judge
                | cid0 clock dialogue judge]; cbn [serve fresh_request] in *.
  - unfold startConversation in Hc'.
    destruct (missing sid || missing tid); [now apply (Hs id)|].
    destruct (findStudent studentsData (field_value sid)) as [st|]; [|now apply (Hs id)].
    destruct (findTopic studentsData (field_value sid) (field_value tid)) as [t|];
      [|now apply (Hs id)].
    cbn in Hc'. destruct (decide ("conv_" +:+ uuid = id)) as [E|Hne].
    + rewrite <- E, lookup_insert_eq in Hc'. injection Hc' as <-.
      apply api_session_new. now constructor.
    + rewrite lookup_insert_ne in Hc' by assumption. now apply (Hs id).
  - destruct (option_field_cases cid0) as [Hm | (cid & -> & Hcid & _)].
    { destruct (interact_rejected s cid0 msg0 clock dialogue judge (or_introl Hm))
        as [Heq _]. rewrite Heq in Hc'. now apply (Hs id). }
    destruct (option_field_cases msg0) as [Hm | (msg & -> & Hmsg & _)].
    { destruct (interact_rejected s (Some cid) msg0 clock dialogue judge
                  (or_intror (or_introl Hm))) as [Heq _].
      rewrite Heq in Hc'. now apply (Hs id). }
    destruct (s !! cid) as [c|] eqn:Hc.
    2:{ destruct (interact_rejected s (Some cid) (Some msg) clock dialogue judge
                    (or_intror (or_intror (or_introl Hc)))) as [Heq _].
        rewrite Heq in Hc'. now apply (Hs id). }
    destruct (isComplete c) eqn:Hic.
    { rewrite (interact_complete s cid msg c clock dialogue judge Hcid Hmsg Hc Hic) in Hc'.
      now apply (Hs id). }
    pose proof (Hs cid c Hc) as Hapi.
    rewrite (interact_accepted s cid msg c clock dialogue judge Hcid Hmsg Hc Hic) in Hc'.
    cbv zeta in Hc'.
    assert (Hother : forall c0, (<[cid := c0]> s) !! id = Some c' ->
                                api_session c0 -> api_session c').
    { intros c0 Hl Hc0. destruct (decide (cid = id)) as [->|Hne].
      - rewrite lookup_insert_eq in Hl. now injection Hl as <-.
      - rewrite lookup_insert_ne in Hl by assumption. now apply (Hs id). }
    pose proof (api_session_tutor msg (clock 0) c Hapi Hic) as Hc1.
    destruct (buildSystemPrompt (studentId c) (topic c)) as [[sp|]|];
      [|now apply (Hother _ Hc')|now apply (Hother _ Hc')].
    destruct dialogue as [content0|]; [|now apply (Hother _ Hc')].
    destruct (api_session_turn msg content0 (clock 0) (clock 1) c Hapi Hic)
      as (Hroles & Ht & Hturns & Hstud1 & Hstud & Hmax & Hbound & Hcompl & Hl & Htx).
    pose proof (texts_le_messages
                  (appended "student" content0 (clock 1)
                     (appended "tutor" (Some msg) (clock 0) c))) as Hle.
    set (c2 := appended "student" content0 (clock 1)
                 (appended "tutor" (Some msg) (clock 0) c)) in *.
    assert (Hlocked : forall p, lockedPrediction c = Some p ->
              forall p', lockedPrediction c2 = Some p' ->
                5 <= lockedAtTurn p' <= turnNumber c2 /\
                level_in_range (level p') = Some true).
    { intros p Hp p'. rewrite Hl, Hp. intros [= <-].
      destruct (api_locked c Hapi p Hp) as [[? ?] ?]. repeat split; try assumption; lia. }
    destruct content0 as [reply|].
    2:{ apply (Hother _ Hc'). constructor; try assumption.
        - rewrite Hl. intros Hn. pose proof (api_unlocked c Hapi Hn). lia.
        - intros p' Hp'. rewrite Hl in Hp'.
          apply (Hlocked p' Hp'). now rewrite Hl. }
    destruct (lockedPrediction c) as [p|] eqn:Hp.
    + apply (Hother _ Hc'). constructor; try assumption.
      * rewrite Hl. discriminate.
      * now apply (Hlocked p).
    + destruct (5 <=? length (studentMessagesOf c2))%nat eqn:E.
      * apply (Hother _ Hc'). apply Nat.leb_le in E.
        apply api_session_with_lock; cbn; try assumption; [auto 10|lia|].
        apply predictedLevel_accepted.
      * apply (Hother _ Hc'). apply Nat.leb_gt in E.
        constructor; try assumption; [intros _; lia|].
        rewrite Hl. discriminate.
  - destruct (option_field_cases cid0) as [Hm | (cid & -> & Hcid & _)].
    { destruct (tutorResponse_rejected s cid0 clock dialogue judge (or_introl Hm))
        as [Heq _]. rewrite Heq in Hc'. now apply (Hs id). }
    destruct (s !! cid) as [c|] eqn:Hc.
    2:{ destruct (tutorResponse_rejected s (Some cid) clock dialogue judge
                    (or_intror Hc)) as [Heq _].
        rewrite Heq in Hc'. now apply (Hs id). }
    pose proof (Hs cid c Hc) as Hapi.
    rewrite (tutorResponse_found s cid c clock dialogue judge Hcid Hc) in Hc'.
    cbv zeta in Hc'.
    destruct dialogue as [content0|]; [|now apply (Hs id)].
    destruct (lockedPrediction c) as [p|] eqn:Hp; [now apply (Hs id)|].
    destruct (6 <=? turnNumber c + 1)%nat eqn:E; [|now apply (Hs id)].
    cbn [store_after] in Hc'. apply Nat.leb_le in E.
    destruct (decide (cid = id)) as [->|Hne].
    + rewrite lookup_insert_eq in Hc'. injection Hc' as <-.
      destruct Hapi as [Hroles Hturns Hstud Hmax Hbound Hcompl Hunl Hlock].
      apply api_session_with_lock; cbn; try assumption; [auto 10|lia|].
      apply predictedLevel_accepted.
    + rewrite lookup_insert_ne in Hc' by assumption. now apply (Hs id).
Qed.

(** From the empty store, every sequence of requests keeps every record in
    shape. *)
Lemma serve_all_api_session rs : forall s,
  (forall (id : string) c, s !! id = Some c -> api_session c) ->
  fresh_requests studentsData rs s ->
  forall (id : string) c, serve_all studentsData rs s !! id = Some c -> api_session c.
Proof.
  induction rs as [|r rs IH]; intros s Hs Hfresh id c Hc; cbn in *.
  - now apply (Hs id).
  - destruct Hfresh as [Hr Hfresh].
    apply (IH (serve studentsData r s)) with (id := id); try assumption.
    now apply serve_api_session.
Qed.

Lemma served_from_empty rs (id : string) c :
  fresh_requests studentsData rs ∅ ->
  serve_all studentsData rs ∅ !! id = Some c -> api_session c.
Proof.
  intros Hfresh. apply (serve_all_api_session rs ∅); [|assumption].
  intros id0 c0. rewrite lookup_empty. discriminate.
Qed.

(** X15. Through the handlers the completion flag is exact and the turn
    budget is kept.  After every sequence of requests to the server, for
    every conversation: [isComplete] is true if and only if
    [turnNumber >= maxTurns], [maxTurns] is 10, and the turn number never
    exceeds it. *)
Theorem served_flag_is_exact :
  forall rs (id : string) c,
    fresh_requests studentsData rs ∅ ->
    serve_all studentsData rs ∅ !! id = Some c ->
    (isComplete c = true <-> maxTurns c <= turnNumber c) /\
    maxTurns c = 10%nat /\ turnNumber c <= 10.
Proof.
  intros rs id c Hfresh Hc.
  destruct (served_from_empty rs id c Hfresh Hc) as [_ _ _ Hmax Hbound Hcompl _ _].
  unfold MAX_TURNS in Hmax. rewrite Hcompl, Nat.leb_le. split; [tauto|]. split; lia.
Qed.

(** X16. After every sequence of requests, the log of every conversation
    holds only messages of role ["tutor"] or ["student"], the turn number
    is the number of tutor messages, and there are never more student
    messages than tutor messages. *)
Theorem served_log_has_two_roles :
  forall rs (id : string) c,
    fresh_requests studentsData rs ∅ ->
    serve_all studentsData rs ∅ !! id = Some c ->
    Forall (fun m => role m = "tutor" \/ role m = "student") (messages c) /\
    turnNumber c = length (tutorMessagesOf c) /\
    length (studentMessagesOf c) <= length (tutorMessagesOf c) /\
    length (messages c) = (length (tutorMessagesOf c) + length (studentMessagesOf c))%nat.
Proof.
  intros rs id c Hfresh Hc.
  destruct (served_from_empty rs id c Hfresh Hc) as [Hroles Hturns Hstud _ _ _ _ _].
  split; [assumption|]. split; [assumption|]. split; [lia|].
  unfold tutorMessagesOf, studentMessagesOf. clear -Hroles.
  induction Hroles as [|m l Hm _ IH]; [reflexivity|].
  destruct Hm as [Hm | Hm].
  - rewrite filter_cons_True by (now rewrite Hm).
    rewrite filter_cons_False by (rewrite Hm; discriminate). cbn. lia.
  - rewrite filter_cons_False by (rewrite Hm; discriminate).
    rewrite filter_cons_True by (now rewrite Hm). cbn. lia.
Qed.

(** X17. After every sequence of requests, a conversation whose log holds
    five student messages with a text, or more, has a locked level.  A
    student message whose content is [null] is in the log without having
    been looked at: after it the log can hold five student messages and no
    level. *)
Theorem served_five_replies_are_judged :
  forall rs (id : string) c,
    fresh_requests studentsData rs ∅ ->
    serve_all studentsData rs ∅ !! id = Some c ->
    5 <= length (studentTextsOf c) ->
    exists p, lockedPrediction c = Some p.
Proof.
  intros rs id c Hfresh Hc Hfive.
  destruct (served_from_empty rs id c Hfresh Hc) as [_ _ _ _ _ _ Hunl _].
  destruct (lockedPrediction c) as [p|]; [eauto|].
  specialize (Hunl eq_refl). lia.
Qed.

(** X18. After every sequence of requests, a locked level was locked at
    turn 5 or later, not after the current turn, and its value passes the
    test [level && level >= 1 && level <= 5]. *)
Theorem served_lock_is_valid :
  forall rs (id : string) c p,
    fresh_requests studentsData rs ∅ ->
    serve_all studentsData rs ∅ !! id = Some c ->
    lockedPrediction c = Some p ->
    5 <= lockedAtTurn p <= turnNumber c /\
    level_in_range (level p) = Some true.
Proof.
  intros rs id c p Hfresh Hc Hp.
  destruct (served_from_empty rs id c Hfresh Hc) as [_ _ _ _ _ _ _ Hlock].
  now apply Hlock.
Qed.

(** What one request does to the record of a conversation that exists. *)
Lemma serve_step r s (id : string) c :
  s !! id = Some c -> fresh_request r s ->
  exists c',
    serve studentsData r s !! id = Some c' /\
    turnNumber c <= turnNumber c' /\
    (exists added, messages c' = (messages c ++ added)%list) /\
    (forall p, lockedPrediction c = Some p -> lockedPrediction c' = Some p) /\
    (isComplete c = true ->
     isComplete c' = true /\ messages c' = messages c /\ turnNumber c' = turnNumber c).
Proof.
  intros Hc Hfresh.
  assert (Hsame : forall s', s' !! id = Some c ->
            exists c', s' !! id = Some c' /\
              turnNumber c <= turnNumber c' /\
              (exists added, messages c' = (messages c ++ added)%list) /\
              (forall p, lockedPrediction c = Some p -> lockedPrediction c' = Some p) /\
              (isComplete c = true ->
               isComplete c' = true /\ messages c' = messages c /\
               turnNumber c' = turnNumber c)).
  { intros s' Hs'. exists c. split; [assumption|]. split; [lia|].
    split; [exists []; now rewrite app_nil_r|]. auto. }
  destruct r as [sid tid uuid now | cid0 msg0 clock dialogue judge
                | cid0 clock dialogue judge]; cbn [serve fresh_request] in *.
  - apply Hsame. unfold startConversation.
    destruct (missing sid || missing tid); [assumption|].
    destruct (findStudent studentsData (field_value sid)) as [st|]; [|assumption].
    destruct (findTopic studentsData (field_value sid) (field_value tid)) as [t|];
      [|assumption].
    cbn. rewrite lookup_insert_ne; [assumption|].
    intros E. rewrite <- E in Hc. congruence.
  - destruct (option_field_cases cid0) as [Hm | (cid & -> & Hcid & _)].
    { destruct (interact_rejected s cid0 msg0 clock dialogue judge (or_introl Hm))
        as [-> _]. now apply Hsame. }
    destruct (option_field_cases msg0) as [Hm | (msg & -> & Hmsg & _)].
    { destruct (interact_rejected s (Some cid) msg0 clock dialogue judge
                  (or_intror (or_introl Hm))) as [-> _]. now apply Hsame. }
    destruct (s !! cid) as [c0|] eqn:Hc0.
    2:{ destruct (interact_rejected s (Some cid) (Some msg) clock dialogue judge
                    (or_intror (or_intror (or_introl Hc0)))) as [-> _].
        now apply Hsame. }
    destruct (isComplete c0) eqn:Hic.
    { rewrite (interact_complete s cid msg c0 clock dialogue judge Hcid Hmsg Hc0 Hic).
      now apply Hsame. }
    rewrite (interact_accepted s cid msg c0 clock dialogue judge Hcid Hmsg Hc0 Hic).
    cbv zeta.
    destruct (decide (cid = id)) as [->|Hne].
    2:{ destruct (buildSystemPrompt _ _) as [[sp|]|];
          [destruct dialogue as [[reply|]|];
           [destruct (lockedPrediction c0); [|destruct (5 <=? _)%nat]| |]| |];
          cbn [store_after]; apply Hsame; now rewrite lookup_insert_ne. }
    assert (c0 = c) by congruence. subst c0.
    destruct (appended_fields "tutor" (Some msg) (clock 0) c)
      as (Hm1 & Ht1 & _ & _ & Hl1 & _).
    cbn in Ht1.
    assert (Hone : exists c',
              (<[id := appended "tutor" (Some msg) (clock 0) c]> s) !! id = Some c' /\
              turnNumber c <= turnNumber c' /\
              (exists added, messages c' = (messages c ++ added)%list) /\
              (forall p, lockedPrediction c = Some p -> lockedPrediction c' = Some p) /\
              (isComplete c = true ->
               isComplete c' = true /\ messages c' = messages c /\
               turnNumber c' = turnNumber c)).
    { eexists. split; [apply lookup_insert_eq|]. rewrite Ht1, Hm1, Hl1, Hic.
      split; [lia|]. split; [eauto|]. split; [auto|discriminate]. }
    destruct (buildSystemPrompt _ _) as [[sp|]|]; [|exact Hone|exact Hone].
    destruct dialogue as [content0|]; [|exact Hone].
    destruct (appended_fields "student" content0 (clock 1)
                (appended "tutor" (Some msg) (clock 0) c))
      as (Hm2 & Ht2 & _ & _ & Hl2 & _).
    cbn in Ht2. rewrite Hm1, <- app_assoc in Hm2. rewrite Ht1 in Ht2. rewrite Hl1 in Hl2.
    destruct content0 as [reply|];
      [destruct (lockedPrediction c) as [p|] eqn:Hp; [|destruct (5 <=? _)%nat]|];
      cbn [store_after]; rewrite lookup_insert_eq; eexists; (split; [reflexivity|]);
      cbn; rewrite ?Ht2, ?Hm2, ?Hl2, ?Hic;
      (split; [lia|]); (split; [eauto|]); (split; [auto; discriminate|discriminate]).
  - destruct (option_field_cases cid0) as [Hm | (cid & -> & Hcid & _)].
    { destruct (tutorResponse_rejected s cid0 clock dialogue judge (or_introl Hm))
        as [-> _]. now apply Hsame. }
    destruct (s !! cid) as [c0|] eqn:Hc0.
    2:{ destruct (tutorResponse_rejected s (Some cid) clock dialogue judge
                    (or_intror Hc0)) as [-> _]. now apply Hsame. }
    rewrite (tutorResponse_found s cid c0 clock dialogue judge Hcid Hc0). cbv zeta.
    destruct dialogue as [content0|]; [|now apply Hsame].
    destruct (lockedPrediction c0) as [p0|] eqn:Hp0; [now apply Hsame|].
    destruct (6 <=? turnNumber c0 + 1)%nat; [|now apply Hsame].
    cbn [store_after]. destruct (decide (cid = id)) as [->|Hne].
    + assert (c0 = c) by congruence. subst c0.
      rewrite lookup_insert_eq. eexists. split; [reflexivity|]. cbn.
      split; [lia|]. split; [exists []; now rewrite app_nil_r|].
      split; [intros p Hp; congruence|auto].
    + apply Hsame. now rewrite lookup_insert_ne.
Qed.

(** X19. No request deletes a conversation, takes a message back or
    unlocks a level.  After every further sequence of requests a
    conversation still exists, its old log is the beginning of its log,
    its turn number has not decreased and a locked level is the same
    record; and once the conversation is complete its log and turn number
    do not change any more. *)
Theorem requests_only_extend :
  forall rs s (id : string) c,
    s !! id = Some c -> fresh_requests studentsData rs s ->
    exists c',
      serve_all studentsData rs s !! id = Some c' /\
      turnNumber c <= turnNumber c' /\
      (exists added, messages c' = (messages c ++ added)%list) /\
      (forall p, lockedPrediction c = Some p -> lockedPrediction c' = Some p) /\
      (isComplete c = true ->
       isComplete c' = true /\ messages c' = messages c /\ turnNumber c' = turnNumber c).
Proof.
  induction rs as [|r rs IH]; intros s id c Hc Hfresh; cbn [serve_all fresh_requests] in *.
  - exists c. split; [assumption|]. split; [lia|].
    split; [exists []; now rewrite app_nil_r|]. auto.
  - destruct Hfresh as [Hr Hfresh].
    destruct (serve_step r s id c Hc Hr) as (c1 & Hc1 & Ht1 & (a1 & Hm1) & Hl1 & Hk1).
    destruct (IH _ id c1 Hc1 Hfresh) as (c' & Hc' & Ht & (a2 & Hm) & Hl & Hk).
    exists c'. split; [assumption|]. split; [lia|].
    split; [exists (a1 ++ a2)%list; now rewrite Hm, Hm1, app_assoc|].
    split; [auto|].
    intros Hic. destruct (Hk1 Hic) as (Hic1 & Hm1' & Ht1').
    destruct (Hk Hic1) as (Hic' & Hm' & Ht'). repeat split; congruence.
Qed.

(** X27. The level in the answer of the request that locks.  After the lock
    the handler logs the level and the rationale, still inside the [try]
    of the judge call.  When one of them cannot be converted to a string
    (the judge replied with an object whose rationale has a property
    [toString] of its own), the line throws, the [catch] runs after the
    lock, and the answer says level 3 whatever level is locked.  Otherwise
    the answer carries the locked level. *)
Theorem answer_level_after_lock :
  forall s (cid msg reply : string) c clock (judge : Completion) sp,
    cid <> "" -> msg <> "" -> s !! cid = Some c -> isComplete c = false ->
    buildSystemPrompt (studentId c) (topic c) = Returns (Some sp) ->
    lockedPrediction c = None -> 4 <= length (studentMessagesOf c) ->
    let o := interact (Some cid) (Some msg) clock (Returns (Some reply)) judge s in
    exists p lvl,
      getLockedPrediction (store_after o) cid = Some p /\
      (level p, rationale p) = predictedLevel judge /\
      response o =
        InteractResponse cid reply (S (turnNumber c))
          (maxTurns c <=? S (turnNumber c))%nat lvl /\
      (toString_throws (level p) = false -> toString_throws (rationale p) = false ->
       lvl = level p) /\
      (toString_throws (level p) = true \/ toString_throws (rationale p) = true ->
       lvl = JsNumber 3%float).
Proof.
  intros s cid msg reply c clock judge sp Hcid Hmsg Hc Hic Hsp Hnone Hfour o. subst o.
  destruct (interact_dialogue_returns s cid msg reply c clock judge sp
              Hcid Hmsg Hc Hic Hsp)
    as (c2 & call1 & prompt & Hm & Ht & Hmx & Hi & _ & _ & Heq).
  rewrite Heq, Hnone. cbv zeta.
  assert (Hfive : (5 <=? length (studentMessagesOf c2))%nat = true).
  { apply Nat.leb_le. unfold studentMessagesOf in *. rewrite Hm, filter_app, length_app.
    rewrite filter_cons_False by (cbn; discriminate).
    rewrite filter_cons_True by reflexivity. cbn. lia. }
  rewrite Hfive. cbn [store_after response].
  eexists _, _. split.
  { unfold getLockedPrediction. rewrite lookup_insert_eq. reflexivity. }
  cbn [lockedPrediction set_locked level rationale].
  split; [now destruct (predictedLevel judge)|].
  split; [now rewrite Ht, Hi|].
  unfold estimatedLevelAfterLock. split.
  - intros -> ->. reflexivity.
  - intros [-> | ->]; rewrite ?orb_true_r; reflexivity.
Qed.

End ApiExtras.

Section LockExamples.

#[local] Existing Instance example_env3.

Lemma answer_level_after_lock_witness :
  let s4 := interact_n 4 (Returns (Some "I think it moves because of heat")) Throws store1 in
  let o := interact (Some "conv_u1") (Some "Why?") clock0 (Returns (Some "It floats"))
             (Returns (Some reply_odd)) s4 in
  (exists p, getLockedPrediction (store_after o) "conv_u1" = Some p /\
             level p = JsNumber 4%float) /\
  response o = InteractResponse "conv_u1" "It floats" 5 false (JsNumber 3%float).
Proof.
  intros s4 o.
  assert (Hc : exists c, s4 !! "conv_u1" = Some c /\ isComplete c = false /\
             lockedPrediction c = None /\
             buildSystemPrompt (studentId c) (topic c) = Returns (Some "") /\
             length (studentMessagesOf c) = 4%nat /\
             turnNumber c = 4%nat /\ maxTurns c = 10%nat).
  { eexists. split; [vm_compute; reflexivity|]. repeat split; reflexivity. }
  destruct Hc as (c & Hc & Hic & Hnone & Hsp & Hlen & Hturn & Hmax).
  destruct (answer_level_after_lock s4 "conv_u1" "Why?" "It floats" c clock0
              (Returns (Some reply_odd)) "" ltac:(discriminate) ltac:(discriminate)
              Hc Hic Hsp Hnone ltac:(rewrite Hlen; lia))
    as (p & lvl & Hp & Hlr & Hresp & _ & Hthree).
  assert (Hlevel : level p = JsNumber 4%float /\
                   rationale p = JsObject [("toString", JsNumber 1%float)]).
  { assert (Hodd : predictedLevel (Returns (Some reply_odd)) =
                   (JsNumber 4%float, JsObject [("toString", JsNumber 1%float)]))
      by (vm_compute; reflexivity).
    rewrite Hodd in Hlr. injection Hlr as -> ->. split; reflexivity. }
  destruct Hlevel as [Hl Hr]. split.
  - exists p. split; [exact Hp|exact Hl].
  - assert (Hthrows : toString_throws (rationale p) = true) by now rewrite Hr.
    fold o in Hresp. rewrite Hresp, Hturn, Hmax, (Hthree (or_intror Hthrows)).
    reflexivity.
Defined.

End LockExamples.

Section ApiExamples.

#[local] Existing Instance example_env.

Lemma session_requests_fresh (n : nat) : fresh_requests cache (session_requests n) ∅.
Proof.
  unfold session_requests. cbn [fresh_requests fresh_request].
  split; [apply lookup_empty|].
  generalize (serve cache (PostStart (Some tim_id) (Some "t1") "u1" (clock0 0)) ∅).
  induction n as [|n IH]; intros s; cbn [repeat fresh_requests]; [exact I|].
  split; [exact I|apply IH].
Qed.

Lemma served_flag_is_exact_witness :
  exists c,
    serve_all cache (session_requests 10) ∅ !! "conv_u1" = Some c /\
    turnNumber c = 10%nat /\ isComplete c = true.
Proof.
  assert (Hc : exists c, serve_all cache (session_requests 10) ∅ !! "conv_u1" = Some c /\
                         turnNumber c = 10%nat).
  { eexists. split; [vm_compute; reflexivity|reflexivity]. }
  destruct Hc as (c & Hc & Hturn).
  destruct (served_flag_is_exact cache (session_requests 10) "conv_u1" c
              (session_requests_fresh 10) Hc) as (Hiff & Hmax & _).
  exists c. split; [exact Hc|]. split; [exact Hturn|].
  apply Hiff. rewrite Hmax, Hturn. lia.
Defined.

Lemma served_log_has_two_roles_witness :
  exists c,
    serve_all cache (session_requests 3) ∅ !! "conv_u1" = Some c /\
    length (messages c) = 6%nat /\ turnNumber c = length (tutorMessagesOf c).
Proof.
  assert (Hc : exists c, serve_all cache (session_requests 3) ∅ !! "conv_u1" = Some c /\
                         length (messages c) = 6%nat).
  { eexists. split; [vm_compute; reflexivity|reflexivity]. }
  destruct Hc as (c & Hc & Hlen).
  destruct (served_log_has_two_roles cache (session_requests 3) "conv_u1" c
              (session_requests_fresh 3) Hc) as (_ & Ht & _).
  exists c. split; [exact Hc|]. split; [exact Hlen|exact Ht].
Defined.

Lemma served_five_replies_are_judged_witness :
  exists c p,
    serve_all cache (session_requests 5) ∅ !! "conv_u1" = Some c /\
    lockedPrediction c = Some p.
Proof.
  assert (Hc : exists c, serve_all cache (session_requests 5) ∅ !! "conv_u1" = Some c /\
                         length (studentTextsOf c) = 5%nat).
  { eexists. split; [vm_compute; reflexivity|reflexivity]. }
  destruct Hc as (c & Hc & Hlen).
  destruct (served_five_replies_are_judged cache (session_requests 5) "conv_u1" c
              (session_requests_fresh 5) Hc) as (p & Hp).
  - rewrite Hlen. lia.
  - exists c, p. split; [exact Hc|exact Hp].
Defined.

Lemma served_lock_is_valid_witness :
  exists c p,
    serve_all cache (session_requests 7) ∅ !! "conv_u1" = Some c /\
    lockedPrediction c = Some p /\ 5 <= lockedAtTurn p <= turnNumber c.
Proof.
  assert (Hc : exists c p, serve_all cache (session_requests 7) ∅ !! "conv_u1" = Some c /\
                           lockedPrediction c = Some p).
  { eexists. eexists. split; [vm_compute; reflexivity|reflexivity]. }
  destruct Hc as (c & p & Hc & Hp).
  destruct (served_lock_is_valid cache (session_requests 7) "conv_u1" c p
              (session_requests_fresh 7) Hc Hp) as (Hturn & _).
  exists c, p. split; [exact Hc|]. split; [exact Hp|exact Hturn].
Defined.

Lemma requests_only_extend_witness :
  exists c',
    serve_all cache
      [turn_request;
       PostTutorResponse (Some "conv_u1") clock0 (Returns (Some "Next question")) Throws;
       PostStart (Some lena_id) (Some "t3") "u9" (clock0 1)]
      store1 !! "conv_u1" = Some c' /\
    turnNumber conv1 <= turnNumber c' /\
    exists added, messages c' = (messages conv1 ++ added)%list.
Proof.
  assert (Hc1 : store1 !! "conv_u1" = Some conv1) by (vm_compute; reflexivity).
  destruct (requests_only_extend cache
              [turn_request;
               PostTutorResponse (Some "conv_u1") clock0 (Returns (Some "Next question")) Throws;
               PostStart (Some lena_id) (Some "t3") "u9" (clock0 1)]
              store1 "conv_u1" conv1 Hc1) as (c' & Hc' & Ht & Hm & _).
  - cbn [fresh_requests fresh_request]. split; [exact I|]. split; [exact I|].
    split; [vm_compute; reflexivity|exact I].
  - exists c'. split; [exact Hc'|]. split; [exact Ht|exact Hm].
Defined.

End ApiExamples.

(** * The students cache *)

Section MapBuilding.

(** A [Map] filled by [if (!m.has(key)) m.set(key, v)] over a list of
    items, of which only those that pass [keep] are looked at. *)
Context {T V : Type} (key : T -> string) (val : T -> V) (keep : T -> bool).

#[local] Notation "'fill'" :=
  (fold_left (fun m t => if keep t then set_if_absent m (key t) (val t) else m)).

Lemma map_has_In (m : list (string * V)) (k : string) :
  map_has m k = true <-> In k (map fst m).
Proof.
  unfold map_has. rewrite existsb_exists, in_map_iff. split.
  - intros (e & He & Hk). apply eqb_string_true in Hk. eauto.
  - intros (e & Hk & He). exists e. split; [assumption|]. now apply eqb_string_true.
Qed.

Lemma fill_keeps (items : list T) : forall (m : list (string * V)) e,
  In e m -> In e (fill items m).
Proof.
  induction items as [|t items IH]; intros m e He; cbn [fold_left]; [assumption|].
  apply IH. destruct (keep t); [|assumption]. unfold set_if_absent, map_add.
  destruct (map_has m (key t)); [assumption|]. apply in_or_app. now left.
Qed.

Lemma fill_NoDup (items : list T) : forall m : list (string * V),
  NoDup (map fst m) -> NoDup (map fst (fill items m)).
Proof.
  induction items as [|t items IH]; intros m Hm; cbn [fold_left]; [assumption|].
  apply IH. destruct (keep t); [|assumption]. unfold set_if_absent, map_add.
  destruct (map_has m (key t)) eqn:E; [assumption|].
  rewrite map_app. cbn. apply NoDup_app. split; [assumption|]. split.
  - intros k Hk Hin. apply list_elem_of_In in Hk, Hin.
    destruct Hin as [<-|[]]. apply map_has_In in Hk. congruence.
  - repeat constructor. intros Hin. apply list_elem_of_In in Hin. destruct Hin.
Qed.

Lemma fill_sound (items : list T) : forall (m : list (string * V)) e,
  In e (fill items m) ->
  In e m \/ exists t, In t items /\ keep t = true /\ e = (key t, val t).
Proof.
  induction items as [|t items IH]; intros m e He; cbn [fold_left] in He; [now left|].
  destruct (IH _ _ He) as [Hin | (t' & Ht' & Hk & ->)].
  - destruct (keep t) eqn:Ek; [|now left]. unfold set_if_absent, map_add in Hin.
    destruct (map_has m (key t)); [now left|].
    apply in_app_or in Hin as [Hin | [<- | []]]; [now left|].
    right. exists t. cbn. auto.
  - right. exists t'. cbn. auto.
Qed.

Lemma fill_complete (items : list T) : forall (m : list (string * V)) t,
  In t items -> keep t = true -> In (key t) (map fst (fill items m)).
Proof.
  induction items as [|t0 items IH]; intros m t Ht Hk; cbn [fold_left]; [destruct Ht|].
  destruct Ht as [-> | Ht]; [|now apply IH].
  rewrite Hk. unfold set_if_absent, map_add.
  destruct (map_has m (key t)) eqn:E.
  - apply map_has_In in E. apply in_map_iff in E as (e & He1 & He2).
    apply in_map_iff. exists e. split; [assumption|]. now apply fill_keeps.
  - apply in_map_iff. exists (key t, val t). split; [reflexivity|].
    apply fill_keeps, in_or_app. right. now left.
Qed.

(** The first kept item with a key is the one the map holds for it. *)
Lemma fill_first_wins (before after : list T) (t : T) (m : list (string * V)) :
  keep t = true ->
  map_has m (key t) = false ->
  (forall t', In t' before -> keep t' = true -> key t' <> key t) ->
  In (key t, val t) (fill (before ++ t :: after) m).
Proof.
  revert m. induction before as [|b before IH]; intros m Hk Hm Hfirst; cbn [app fold_left].
  - rewrite Hk. unfold set_if_absent. rewrite Hm.
    apply fill_keeps, in_or_app. right. now left.
  - apply IH; [assumption| |intros t' Ht'; apply Hfirst; now right].
    destruct (keep b) eqn:Eb; [|assumption]. unfold set_if_absent, map_add.
    destruct (map_has m (key b)); [assumption|].
    unfold map_has. rewrite existsb_app. unfold map_has in Hm. rewrite Hm. cbn.
    rewrite orb_false_r. apply eqb_string_false. apply Hfirst; [now left|assumption].
Qed.

Lemma fill_nested {S0 : Type} (inner : S0 -> list T) (outer : list S0) :
  forall m : list (string * V),
    fold_left (fun m st => fill (inner st) m) outer m = fill (flat_map inner outer) m.
Proof.
  induction outer as [|st outer IH]; intros m; cbn [fold_left flat_map]; [reflexivity|].
  now rewrite fold_left_app, IH.
Qed.

End MapBuilding.

Section CatalogExtras.

Implicit Types (studentsData : StudentsData) (s : Store).

Lemma findStudent_Some studentsData (sid : string) st :
  findStudent studentsData sid = Some st ->
  In st studentsData /\ cached_student_id st = sid.
Proof.
  unfold findStudent. intros Hf. apply find_some in Hf as [Hin Heq].
  now apply eqb_string_true in Heq.
Qed.

(** X20. [POST /api/interact/start] starts a conversation only for a
    student of the cache and a topic in that student's own list: a
    successful answer names the new conversation, whose record holds that
    student and that topic at turn 0; every error answer (400 or 404)
    leaves the store as it was. *)
Theorem startConversation_checks_the_cache :
  forall studentsData (sid0 tid0 : option string) (uuid now : string) s,
    let out := startConversation studentsData sid0 tid0 uuid now s in
    (forall handle,
       snd out = StartOk handle ->
       exists st t c,
         In st studentsData /\ cached_student_id st = field_value sid0 /\
         In t (cached_topics st) /\ cached_topic_id t = field_value tid0 /\
         conversation_id handle = "conv_" +:+ uuid /\
         fst out !! conversation_id handle = Some c /\
         student c = cached_student st /\ topic c = cached_topic t /\
         studentId c = field_value sid0 /\ topicId c = field_value tid0 /\
         turnNumber c = 0%nat /\ messages c = [] /\ isComplete c = false) /\
    (forall status error,
       snd out = StartError status error ->
       fst out = s /\ (status = 400%nat \/ status = 404%nat)).
Proof.
  intros studentsData sid0 tid0 uuid now s out. subst out.
  unfold startConversation.
  destruct (missing sid0 || missing tid0).
  { split; [discriminate|]. intros status error [= <- _]. auto. }
  destruct (findStudent studentsData (field_value sid0)) as [st|] eqn:Hst.
  2:{ split; [discriminate|]. intros status error [= <- _]. auto. }
  unfold findTopic. rewrite Hst.
  destruct (find _ (cached_topics st)) as [t|] eqn:Ht.
  2:{ split; [discriminate|]. intros status error [= <- _]. auto. }
  cbn. split; [|discriminate].
  intros handle [= <-]. cbn.
  apply findStudent_Some in Hst as [Hin Hid].
  apply find_some in Ht as [Htin Htid]. apply eqb_string_true in Htid.
  exists st, t. eexists. rewrite lookup_insert_eq. repeat split; assumption.
Qed.

(** X21. [GET /api/subjects] lists every subject once: no two entries
    share an id, every entry is the subject of some topic of some student,
    every topic of every student has its subject in the list, and the entry
    of a subject is the one of the first topic that carries its id. *)
Theorem listSubjects_unique :
  forall studentsData,
    NoDup (map subject_id (listSubjects studentsData)) /\
    (forall sub,
       In sub (listSubjects studentsData) ->
       exists st t,
         In st studentsData /\ In t (cached_topics st) /\ sub = subject_of t) /\
    (forall st t,
       In st studentsData -> In t (cached_topics st) ->
       exists sub,
         In sub (listSubjects studentsData) /\ subject_id sub = cached_subject_id t) /\
    (forall before t after,
       flat_map cached_topics studentsData = (before ++ t :: after)%list ->
       (forall t', In t' before -> cached_subject_id t' <> cached_subject_id t) ->
       In (subject_of t) (listSubjects studentsData)).
Proof.
  intros studentsData. unfold listSubjects, map_values.
  pose proof (fill_nested cached_subject_id subject_of (fun _ => true)
                cached_topics studentsData []) as Hflat.
  cbn beta iota in Hflat. rewrite Hflat. clear Hflat.
  set (m := fold_left _ (flat_map cached_topics studentsData) []).
  assert (Hkeys : forall e, In e m -> fst e = subject_id (snd e)).
  { intros e He. subst m.
    apply (fill_sound cached_subject_id subject_of (fun _ => true)) in He
      as [[] | (t & _ & _ & ->)]. reflexivity. }
  assert (Hmap : map subject_id (map snd m) = map fst m).
  { rewrite map_map. apply map_ext_in. intros e He. now rewrite (Hkeys e He). }
  split; [|split; [|split]].
  - rewrite Hmap. subst m.
    apply (fill_NoDup cached_subject_id subject_of (fun _ => true)). constructor.
  - intros sub Hsub. apply in_map_iff in Hsub as (e & <- & He). subst m.
    apply (fill_sound cached_subject_id subject_of (fun _ => true)) in He
      as [[] | (t & Ht & _ & ->)].
    apply in_flat_map in Ht as (st & Hst & Ht). exists st, t. auto.
  - intros st t Hst Ht.
    assert (Hin : In (cached_subject_id t) (map fst m)).
    { subst m. apply (fill_complete cached_subject_id subject_of (fun _ => true));
        [|reflexivity]. apply in_flat_map. eauto. }
    apply in_map_iff in Hin as (e & Hk & He).
    exists (snd e). split; [now apply in_map|]. now rewrite <- (Hkeys e He).
  - intros before t after Hsplit Hfirst. subst m. rewrite Hsplit.
    apply in_map_iff. exists (cached_subject_id t, subject_of t). split; [reflexivity|].
    apply (fill_first_wins cached_subject_id subject_of (fun _ => true));
      [reflexivity|reflexivity|]. intros t' Ht' _. now apply Hfirst.
Qed.

(** X22. [GET /api/topics] lists every topic id once and respects the
    filter: no two entries share a topic id; every entry is a topic of some
    student and, when the query gives a [subject_id], belongs to that
    subject; and every topic of the cache that passes the filter has an
    entry with its id. *)
Theorem listTopics_unique_and_filtered :
  forall studentsData (subject_id0 : option string),
    NoDup (map cached_topic_id (listTopics studentsData subject_id0)) /\
    (forall t,
       In t (listTopics studentsData subject_id0) ->
       (exists st, In st studentsData /\ In t (cached_topics st)) /\
       (missing subject_id0 = true \/ cached_subject_id t = field_value subject_id0)) /\
    (forall st t,
       In st studentsData -> In t (cached_topics st) ->
       missing subject_id0 = true \/ cached_subject_id t = field_value subject_id0 ->
       exists t',
         In t' (listTopics studentsData subject_id0) /\
         cached_topic_id t' = cached_topic_id t).
Proof.
  intros studentsData q. unfold listTopics, map_values.
  pose proof (fill_nested cached_topic_id (fun t => t) (subject_matches q)
                cached_topics studentsData []) as Hflat.
  cbn beta iota in Hflat. rewrite Hflat. clear Hflat.
  set (m := fold_left _ (flat_map cached_topics studentsData) []).
  assert (Hkeys : forall e, In e m ->
            fst e = cached_topic_id (snd e) /\
            In (snd e) (flat_map cached_topics studentsData) /\
            subject_matches q (snd e) = true).
  { intros e He. subst m.
    apply (fill_sound cached_topic_id (fun t => t) (subject_matches q)) in He
      as [[] | (t & Ht & Hk & ->)]. auto. }
  assert (Hmatch : forall t, subject_matches q t = true <->
            missing q = true \/ cached_subject_id t = field_value q).
  { intros t. unfold subject_matches. rewrite orb_true_iff, eqb_string_true. tauto. }
  split; [|split].
  - replace (map cached_topic_id (map snd m)) with (map fst m).
    + subst m. apply (fill_NoDup cached_topic_id (fun t => t) (subject_matches q)).
      constructor.
    + rewrite map_map. apply map_ext_in. intros e He. now destruct (Hkeys e He).
  - intros t Ht. apply in_map_iff in Ht as (e & <- & He).
    destruct (Hkeys e He) as (_ & Hin & Hk). split; [|now apply Hmatch].
    apply in_flat_map in Hin as (st & Hst & Hin). eauto.
  - intros st t Hst Ht Hq.
    assert (Hin : In (cached_topic_id t) (map fst m)).
    { subst m. apply (fill_complete cached_topic_id (fun t => t) (subject_matches q));
        [|now apply Hmatch]. apply in_flat_map. eauto. }
    apply in_map_iff in Hin as (e & Hk & He).
    exists (snd e). split; [now apply in_map|].
    destruct (Hkeys e He) as (Hfst & _). congruence.
Qed.

Lemma listSubjects_unique_witness :
  listSubjects cache = [mkSubject "geo" "Geography"; mkSubject "math" "Mathematics"] /\
  In (subject_of (mkCachedTopic "t1" "geo" tectonics)) (listSubjects cache).
Proof.
  split; [reflexivity|].
  apply (proj2 (proj2 (proj2 (listSubjects_unique cache)))
           [] (mkCachedTopic "t1" "geo" tectonics)
           [mkCachedTopic "t2" "geo" volcanoes; mkCachedTopic "t3" "math" fractions;
            mkCachedTopic "t1" "geo" tectonics]).
  - reflexivity.
  - intros t' [].
Defined.

Lemma listTopics_unique_and_filtered_witness :
  map cached_topic_id (listTopics cache (Some "geo")) = ["t1"; "t2"] /\
  exists t', In t' (listTopics cache (Some "geo")) /\ cached_topic_id t' = "t2".
Proof.
  split; [reflexivity|].
  apply (proj2 (proj2 (listTopics_unique_and_filtered cache (Some "geo")))
           (mkCachedStudent tim_id tim
              [mkCachedTopic "t1" "geo" tectonics; mkCachedTopic "t2" "geo" volcanoes])
           (mkCachedTopic "t2" "geo" volcanoes)).
  - now left.
  - right. now left.
  - right. reflexivity.
Defined.

Lemma startConversation_checks_the_cache_witness :
  (exists handle,
     snd (startConversation cache (Some tim_id) (Some "t2") "u3" (clock0 0) store1) =
       StartOk handle /\ conversation_id handle = "conv_u3") /\
  startConversation cache (Some tim_id) (Some "t3") "u3" (clock0 0) store1 =
    (store1, StartError 404 "Topic not found for this student").
Proof.
  split.
  - eexists. split; [reflexivity|].
    destruct (proj1 (startConversation_checks_the_cache cache (Some tim_id) (Some "t2")
                       "u3" (clock0 0) store1) _ eq_refl)
      as (st & t & c & _ & _ & _ & _ & Hid & _).
    exact Hid.
  - reflexivity.
Defined.

End CatalogExtras.

(** * More of the Strategy Selector and the prompts *)

Section StrategyExtras.

Context `{Environment}.

Lemma slice_last3_app {A : Type} (older recent : list A) :
  3 <= length recent -> slice_last3 (older ++ recent) = slice_last3 recent.
Proof.
  intros Hlen. unfold slice_last3. rewrite length_app, skipn_app.
  rewrite skipn_all2 by lia. cbn [app]. f_equal. lia.
Qed.

Lemma filter_students_twice (l : list ChatMessage) :
  filter (fun m => is_student m = true) (filter (fun m => is_student m = true) l) =
  filter (fun m => is_student m = true) l.
Proof.
  induction l as [|m l IH]; [reflexivity|].
  destruct (is_student m) eqn:E.
  - rewrite !filter_cons_True by assumption. now rewrite IH.
  - now rewrite filter_cons_False by congruence.
Qed.

(** X23. The estimate looks at the last three student messages only: the
    tutor messages do not count, and when a history ends with a part that
    holds three student messages or more, whatever came before that part
    does not change the estimate. *)
Theorem quickEstimate_window :
  forall older recent : list ChatMessage,
    quickEstimateForStrategy recent =
      quickEstimateForStrategy (filter (fun m => is_student m = true) recent) /\
    (3 <= length (filter (fun m => is_student m = true) recent) ->
     quickEstimateForStrategy (older ++ recent) = quickEstimateForStrategy recent).
Proof.
  intros older recent. split.
  - unfold quickEstimateForStrategy.
    now rewrite filter_students_twice.
  - intros Hlen. unfold quickEstimateForStrategy.
    now rewrite filter_app, slice_last3_app.
Qed.

Lemma score_message_reasoned (score : Z) (msg : ChatMessage) :
  some_includes CONFUSION_MARKERS (toLowerCase (or_empty (chat_content msg))) = false ->
  some_includes reasonMarkers (toLowerCase (or_empty (chat_content msg))) = true ->
  (score <= score_message score msg)%Z.
Proof.
  intros Hconf Hreason. unfold score_message. rewrite Hconf, Hreason.
  destruct (some_includes hedgeMarkers _), (includes _ "wait" || includes _ "actually"),
    (test_digit _); lia.
Qed.

Lemma fold_score_reasoned (l : list ChatMessage) : forall score : Z,
  Forall (fun m =>
            some_includes CONFUSION_MARKERS (toLowerCase (or_empty (chat_content m))) = false /\
            some_includes reasonMarkers (toLowerCase (or_empty (chat_content m))) = true) l ->
  (score <= fold_left score_message l score)%Z.
Proof.
  induction l as [|m l IH]; intros score Hall; cbn [fold_left]; [lia|].
  inversion Hall as [|? ? [Hc Hr] Hrest]; subst.
  pose proof (score_message_reasoned score m Hc Hr).
  pose proof (IH (score_message score m) Hrest). lia.
Qed.

(** X24. Student messages that give a reason and show no confusion never
    pull the estimate below the middle: when each of the last three student
    messages contains a reasoning marker and no confusion marker, the
    estimated level is at least 3, whatever else the messages contain. *)
Theorem reasoned_answers_estimate_at_least_3 :
  forall msgs : list ChatMessage,
    Forall (fun m =>
              some_includes CONFUSION_MARKERS (toLowerCase (or_empty (chat_content m))) = false /\
              some_includes reasonMarkers (toLowerCase (or_empty (chat_content m))) = true)
           (slice_last3 (filter (fun m => is_student m = true) msgs)) ->
    3 <= quickEstimateForStrategy msgs.
Proof.
  intros msgs Hall. unfold quickEstimateForStrategy.
  pose proof (fold_score_reasoned _ 0%Z Hall) as Hscore.
  set (score := fold_left score_message _ 0%Z) in *.
  destruct (score <=? -3)%Z eqn:E1; [apply Z.leb_le in E1; lia|].
  destruct (score <=? -1)%Z eqn:E2; [apply Z.leb_le in E2; lia|].
  destruct (score <=? 1)%Z; [lia|]. destruct (score <=? 3)%Z; lia.
Qed.

Lemma history_mirror (l : list Message) :
  Forall (fun m => role m = "tutor" \/ role m = "student") l ->
  flat_map (fun msg =>
              if String.eqb (chat_role msg) "tutor"
              then [ {| chat_role := "assistant"; chat_content := chat_content msg |} ]
              else if String.eqb (chat_role msg) "student"
              then [ {| chat_role := "user"; chat_content := chat_content msg |} ]
              else [])
           (map (fun m => {| chat_role := role m; chat_content := content m |}) l) =
  map (fun m =>
         {| chat_role := if String.eqb (chat_role m) "user" then "assistant" else "user";
            chat_content := chat_content m |})
      (map (fun msg =>
              {| chat_role := if String.eqb (role msg) "tutor" then "user" else "assistant";
                 chat_content := content msg |}) l).
Proof.
  induction 1 as [|m l Hm _ IH]; [reflexivity|].
  cbn [map flat_map]. rewrite IH.
  destruct Hm as [Hm | Hm]; cbn [chat_role chat_content]; rewrite Hm; reflexivity.
Qed.

(** X25. The two prompts see the same dialogue from opposite sides.  For a
    log that holds only tutor and student messages, the history that
    [buildTutorMessages] puts after its three system messages is the
    history [getOpenAIMessages] gives the student model with the roles
    ["user"] and ["assistant"] exchanged: same messages, same order, same
    contents. *)
Theorem tutor_and_student_views_mirror :
  forall (s : Store) (id : string) (c : Conversation) (turn maxTurns0 : nat),
    s !! id = Some c ->
    Forall (fun m => role m = "tutor" \/ role m = "student") (messages c) ->
    let tutorView :=
      buildTutorMessages (student c) (topic c) (conversationMessagesOf c) turn maxTurns0 in
    length tutorView = (3 + length (messages c))%nat /\
    skipn 3 tutorView =
      map (fun m =>
             {| chat_role := if String.eqb (chat_role m) "user" then "assistant" else "user";
                chat_content := chat_content m |})
          (getOpenAIMessages s id).
Proof.
  intros s id c turn maxTurns0 Hc Hroles tutorView. subst tutorView.
  unfold buildTutorMessages, getOpenAIMessages, conversationMessagesOf.
  rewrite Hc, (history_mirror (messages c) Hroles). cbn [app skipn length].
  rewrite !length_map. split; reflexivity.
Qed.

End StrategyExtras.

Section StrategyExtrasExamples.

#[local] Existing Instance example_env.

Lemma quickEstimate_window_witness :
  quickEstimateForStrategy
    ([mkChat "student" (Some "idk"); mkChat "student" (Some "no idea")] ++
     [mkChat "student" (Some "since 2 plates collide"); mkChat "tutor" (Some "And then?");
      mkChat "student" (Some "wait, 3 of them"); mkChat "student" (Some "therefore 4")]) =
  quickEstimateForStrategy
    [mkChat "student" (Some "since 2 plates collide"); mkChat "tutor" (Some "And then?");
     mkChat "student" (Some "wait, 3 of them"); mkChat "student" (Some "therefore 4")].
Proof.
  apply (proj2 (quickEstimate_window
                  [mkChat "student" (Some "idk"); mkChat "student" (Some "no idea")]
                  [mkChat "student" (Some "since 2 plates collide"); mkChat "tutor" (Some "And then?");
                   mkChat "student" (Some "wait, 3 of them"); mkChat "student" (Some "therefore 4")])).
  vm_compute. lia.
Defined.

Lemma reasoned_answers_estimate_at_least_3_witness :
  3 <= quickEstimateForStrategy
         [mkChat "student" (Some "I dont know"); mkChat "tutor" (Some "Try again");
          mkChat "student" (Some "Maybe because it is hot");
          mkChat "student" (Some "I guess since it floats");
          mkChat "student" (Some "I think it means they drift")].
Proof.
  apply reasoned_answers_estimate_at_least_3.
  vm_compute. repeat constructor.
Defined.

Lemma tutor_and_student_views_mirror_witness :
  exists c,
    interact_n 2 (Returns (Some "I think it moves because of heat")) Throws store1
      !! "conv_u1" = Some c /\
    length (buildTutorMessages (student c) (topic c)
              (conversationMessagesOf c) 3 10) = 7%nat.
Proof.
  assert (Hc : exists c,
             interact_n 2 (Returns (Some "I think it moves because of heat")) Throws store1
               !! "conv_u1" = Some c /\
             length (messages c) = 4%nat /\
             Forall (fun m => role m = "tutor" \/ role m = "student") (messages c)).
  { eexists. split; [vm_compute; reflexivity|]. split; [reflexivity|].
    cbn [messages]. repeat (constructor; [first [now left | now right]|]). constructor. }
  destruct Hc as (c & Hc & Hlen & Hroles).
  destruct (tutor_and_student_views_mirror _ "conv_u1" c 3 10 Hc Hroles)
    as [Hl _].
  exists c. split; [exact Hc|]. rewrite Hl, Hlen. reflexivity.
Defined.

End StrategyExtrasExamples.

Section MoreWitnesses.

#[local] Existing Instance example_env.

Lemma deleteConversation_removes_witness :
  snd (deleteConversation "conv_u1" store1) = true /\
  size (fst (deleteConversation "conv_u1" store1)) = 0%nat.
Proof.
  assert (Hc1 : store1 !! "conv_u1" = Some conv1) by (vm_compute; reflexivity).
  destruct (deleteConversation_removes store1 "conv_u1") as (Hret & _ & _ & _ & _ & _ & Hsize).
  split.
  - apply Hret. exists conv1. exact Hc1.
  - specialize (Hsize conv1 Hc1).
    assert (Hone : size store1 = 1%nat) by (vm_compute; reflexivity).
    rewrite Hone in Hsize. lia.
Defined.

Lemma predictedLevel_in_range_witness :
  fst (predictedLevel (Returns (Some reply_json))) = JsNumber 4%float /\
  PrimFloat.leb 1%float 4%float = true /\ PrimFloat.leb 4%float 5%float = true.
Proof.
  assert (Hfst : fst (predictedLevel (Returns (Some reply_json))) = JsNumber 4%float)
    by (vm_compute; reflexivity).
  split; [exact Hfst|].
  exact (proj2 (predictedLevel_in_range (Returns (Some reply_json))) 4%float Hfst).
Defined.

Lemma locked_level_is_reused_witness :
  let s6 := interact_n 6 (Returns (Some "I think it moves because of heat")) Throws store1 in
  let o := interact (Some "conv_u1") (Some "And now?") clock0
             (Returns (Some "It is level 5 stuff")) (Returns (Some reply_json)) s6 in
  existsb is_judge_call (calls o) = false /\
  exists p, getLockedPrediction (store_after o) "conv_u1" = Some p /\
            level p = JsNumber 3%float.
Proof.
  intros s6 o.
  assert (Hc : exists c p, s6 !! "conv_u1" = Some c /\ lockedPrediction c = Some p /\
                           level p = JsNumber 3%float).
  { eexists. eexists. split; [vm_compute; reflexivity|]. split; reflexivity. }
  destruct Hc as (c & p & Hc & Hp & Hlevel).
  destruct (proj1 (locked_level_is_reused s6 "conv_u1" c p clock0
                     (Returns (Some "It is level 5 stuff")) (Returns (Some reply_json))
                     ltac:(discriminate) Hc Hp) (Some "And now?"))
    as (Hcalls & Hlock & _).
  split; [exact Hcalls|]. exists p. split; [exact Hlock|exact Hlevel].
Defined.

End MoreWitnesses.
